(** * Logbook: operation logs, head resolution and commit-list derivation

    A shallow embedding of package [logbook] (qri): the operation model,
    the head-path scan [latestSavePath], the commit-list derivation
    [branchToVersionInfos], and the [Book] facade with its write
    operations, reference resolution and log merging. *)

From Stdlib Require Import ZArith String List Lia Ascii DecimalString.
From stdpp Require Import base option list strings gmap.

Local Open Scope string_scope.
Local Open Scope list_scope.
Local Open Scope Z_scope.

(** ** Machine integers

    Go's [int] and [int64] are 64-bit two's complement on the platforms qri
    targets; additions and subtractions wrap around. *)

Definition wrap64 (z : Z) : Z := (z + 2 ^ 63) mod 2 ^ 64 - 2 ^ 63.

(** [fmt.Sprintf("%d", n)] *)
Definition sprintf_d (n : Z) : string := NilZero.string_of_int (Z.to_int n).

(** [strings.HasPrefix] and [strings.TrimPrefix] *)
Definition HasPrefix (s pre : string) : bool := String.prefix pre s.

Definition TrimPrefix (s pre : string) : string :=
  if HasPrefix s pre
  then String.substring (String.length pre) (String.length s - String.length pre) s
  else s.

(** ** Errors and results *)

(** The sentinel errors of the package ([ErrNoLogbook], [ErrNotFound],
    [ErrLogTooShort], [ErrAccessDenied]), [dsref.ErrRefNotFound], and the
    errors the package builds with [fmt.Errorf]. *)
Inductive Error : Type :=
  | ErrNoLogbook
  | ErrNotFound
  | ErrOplogNotFound
  | ErrLogTooShort
  | ErrAccessDenied
  | ErrRefNotFound
  | ErrNameRequired
  | ErrUsernameRequired
  | ErrInvalidName (what name : string)
  | ErrAlreadyExists (name : string)
  | ErrRemovingStrayLog (cause : Error)
  | ErrBranchCount (n : nat)
  | ErrRunIDMismatch
  | ErrEmptyInitID
  | ErrExternal (msg : string).

(** A call returns a value, returns an error, or panics (index or slice
    bounds out of range, nil dereference). *)
Inductive result (A : Type) : Type :=
  | Ok (a : A)
  | Err (e : Error)
  | Panic.
Arguments Ok {A} a.
Arguments Err {A} e.
Arguments Panic {A}.

(** ** Package oplog: operations and logs *)

Module oplog.

(** Modelled from the spec: the [OpType] enum of package oplog, "enum
    {Init, Amend, Remove}". *)
Inductive OpType : Type := OpTypeInit | OpTypeAmend | OpTypeRemove.

(** Modelled from the spec: the [Op] record of package oplog (field table
    of the data model); [Model] is a [uint32], [Timestamp] and [Size] are
    [int64]. *)
Record Op : Type := mkOp
  { Type_ : OpType;
    Model : N;
    Ref : string;
    Prev : string;
    Relations : list string;
    Name : string;
    AuthorID : string;
    Timestamp : Z;
    Size : Z;
    Note : string }.

(** Modelled from the spec: a log is "a tuple (ops, children,
    signature?)". *)
#[warnings="-register-all"]
Inductive Log : Type :=
  mkLog (ops : list Op) (logs : list Log) (signature : list Byte.byte).

Definition Ops (lg : Log) : list Op := let 'mkLog ops _ _ := lg in ops.
Definition Logs (lg : Log) : list Log := let 'mkLog _ logs _ := lg in logs.
Definition Signature (lg : Log) : list Byte.byte := let 'mkLog _ _ s := lg in s.

(** Modelled from the spec: [oplog.InitLog], a log that holds its Init op
    and nothing else. *)
Definition InitLog (initop : Op) : Log := mkLog [initop] [] [].

(** Modelled from the spec: "[Append(op)] pushes [op] to [ops]". *)
Definition Append (op : Op) (lg : Log) : Log :=
  mkLog (Ops lg ++ [op]) (Logs lg) (Signature lg).

(** Modelled from the spec: [AddChild] puts a log among the children. *)
Definition AddChild (child : Log) (lg : Log) : Log :=
  mkLog (Ops lg) (Logs lg ++ [child]) (Signature lg).

(** *** The journal: a forest of logs

    A [*Log] handed out by the store is modelled by the position of the
    log in the forest: the index of a top-level log followed by the
    indices of the children on the way down. Writing through the pointer
    changes the log in the store. *)

Definition ptr : Type := list nat.

Fixpoint deref (logs : list Log) (p : ptr) : option Log :=
  match p with
  | [] => None
  | i :: p' =>
      match logs !! i with
      | None => None
      | Some lg => match p' with [] => Some lg | _ :: _ => deref (Logs lg) p' end
      end
  end.

Definition setLogs (logs : list Log) (lg : Log) : Log :=
  mkLog (Ops lg) logs (Signature lg).

Fixpoint update (f : Log -> Log) (logs : list Log) (p : ptr) : list Log :=
  match p with
  | [] => logs
  | i :: p' =>
      alter (fun lg => match p' with
                       | [] => f lg
                       | _ :: _ => setLogs (update f (Logs lg) p') lg
                       end) i logs
  end.

Section FirstSome.
Context {A B : Type} (f : nat -> A -> option B).

(** The first element, from index [i] on, that [f] accepts. *)
Fixpoint first_some_from (i : nat) (l : list A) : option B :=
  match l with
  | [] => None
  | x :: l' =>
      match f i x with
      | Some b => Some b
      | None => first_some_from (S i) l'
      end
  end.
End FirstSome.

Definition isInitOrAmend (t : OpType) : bool :=
  match t with OpTypeInit | OpTypeAmend => true | OpTypeRemove => false end.

(** Modelled from the spec: "ops[0] ... gives the log its identifier, its
    model, and its initial name and author". *)
Definition Log_Model (lg : Log) : N :=
  match Ops lg with [] => 0%N | op :: _ => Model op end.

(** Modelled from the spec: the author of a log is the author id of
    [ops[0]]. *)
Definition Log_Author (lg : Log) : string :=
  match Ops lg with [] => "" | op :: _ => AuthorID op end.

(** Modelled from the spec: "Current name: the name of the latest
    Init-or-Amend op on the model that matches the log's root model." *)
Definition Log_Name (lg : Log) : string :=
  fold_left
    (fun name op =>
       if (Model op =? Log_Model lg)%N && isInitOrAmend (Type_ op)
       then Name op else name)
    (Ops lg) "".

Section Identified.

(** [Op.Hash]: the base-58 SHA-256 of the canonical encoding of an op. *)
Variable Hash : Op -> string.

(** Modelled from the spec: "Identifier: deterministic hash of the first
    (Init) op." *)
Definition Log_ID (lg : Log) : string :=
  match Ops lg with [] => "" | op :: _ => Hash op end.

(** Modelled from the spec: lookup "by id": the log itself, then its
    children in order, depth first. The result is relative to [lg]. *)
Fixpoint Log_find (id : string) (lg : Log) {struct lg} : option (ptr * Log) :=
  match lg with
  | mkLog ops logs sig =>
      if String.eqb (Log_ID (mkLog ops logs sig)) id
      then Some ([], mkLog ops logs sig)
      else
        first_some_from
          (fun i child =>
             match Log_find id child with
             | Some (p, found) => Some (i :: p, found)
             | None => None
             end)
          0%nat logs
  end.

(** Modelled from the spec: [Journal.Get], lookup by id over the
    top-level logs; [NotFound] when no log has the id. *)
Definition Journal_Get (logs : list Log) (id : string) : result (ptr * Log) :=
  match
    first_some_from
      (fun i lg =>
         match Log_find id lg with
         | Some (p, found) => Some (i :: p, found)
         | None => None
         end)
      0%nat logs
  with
  | Some pl => Ok pl
  | None => Err ErrOplogNotFound
  end.

End Identified.

(** The first log of the list whose current name is [name]. *)
Definition findNamed (name : string) (logs : list Log) : option (nat * Log) :=
  first_some_from
    (fun i lg => if String.eqb (Log_Name lg) name then Some (i, lg) else None)
    0%nat logs.

(** Modelled from the spec: lookup "by name path": "case-sensitive segment
    match against each log's derived current name; returns NotFound if any
    segment fails". *)
Fixpoint Log_HeadRef (logs : list Log) (names : list string) : result (ptr * Log) :=
  match names with
  | [] => Err ErrNameRequired
  | name :: rest =>
      match findNamed name logs with
      | None => Err ErrOplogNotFound
      | Some (i, lg) =>
          match rest with
          | [] => Ok ([i], lg)
          | _ :: _ =>
              match Log_HeadRef (Logs lg) rest with
              | Ok (p, found) => Ok (i :: p, found)
              | Err e => Err e
              | Panic => Panic
              end
          end
      end
  end.

Definition Journal_HeadRef (logs : list Log) (names : list string)
  : result (ptr * Log) := Log_HeadRef logs names.

(** Modelled from the spec: [RemoveLog] "physically removes a log", the
    one the name path leads to; [NotFound] when there is none. *)
Definition removeNamed (name : string) (logs : list Log) : option (list Log) :=
  match findNamed name logs with
  | Some (i, _) => Some (delete i logs)
  | None => None
  end.

Definition Journal_RemoveLog (logs : list Log) (names : list string)
  : list Log * option Error :=
  match reverse names with
  | [] => (logs, Some ErrNameRequired)
  | remove :: parentPath_rev =>
      match reverse parentPath_rev with
      | [] =>
          match removeNamed remove logs with
          | Some logs' => (logs', None)
          | None => (logs, Some ErrOplogNotFound)
          end
      | parentPath =>
          match Journal_HeadRef logs parentPath with
          | Ok (p, parent) =>
              match removeNamed remove (Logs parent) with
              | Some children => (update (setLogs children) logs p, None)
              | None => (logs, Some ErrOplogNotFound)
              end
          | Err e => (logs, Some e)
          | Panic => (logs, Some ErrOplogNotFound)
          end
      end
  end.

End oplog.

(** ** Package dsref: references and version infos *)

Module dsref.

Record Ref : Type := mkRef
  { InitID : string;
    Username : string;
    ProfileID : string;
    Name : string;
    Path : string }.

(** The fields of [dsref.VersionInfo] this package writes; every other
    field keeps its zero value. Times are nanoseconds since the epoch. *)
Record VersionInfo : Type := mkVersionInfo
  { viUsername : string;
    viProfileID : string;
    viName : string;
    viPath : string;
    Published : bool;
    CommitTime : Z;
    BodySize : Z;
    CommitTitle : string;
    RunID : string;
    RunStatus : string;
    RunDuration : Z }.

Definition zeroVersionInfo : VersionInfo :=
  mkVersionInfo "" "" "" "" false 0 0 "" "" "" 0.

Definition setPublished (b : bool) (vi : VersionInfo) : VersionInfo :=
  mkVersionInfo (viUsername vi) (viProfileID vi) (viName vi) (viPath vi) b
    (CommitTime vi) (BodySize vi) (CommitTitle vi) (RunID vi) (RunStatus vi)
    (RunDuration vi).

End dsref.

Import oplog dsref.

(** ** Model constants *)

Definition AuthorModel : N := 0.
Definition DatasetModel : N := 1.
Definition BranchModel : N := 2.
Definition CommitModel : N := 3.
Definition PushModel : N := 4.
Definition RunModel : N := 5.
Definition ACLModel : N := 6.

Definition DefaultBranchName : string := "main".
Definition runIDRelPrefix : string := "runID:".

(** ** Head path *)

(** The loop of [latestSavePath], from the last op down to the first; the
    ops are handed over newest first. *)
Fixpoint latestSavePath_scan (removes : Z) (ops_newest_first : list Op) : string :=
  match ops_newest_first with
  | [] => ""
  | op :: older =>
      if (Model op =? CommitModel)%N then
        match Type_ op with
        | OpTypeRemove => latestSavePath_scan (wrap64 (removes + Size op)) older
        | OpTypeInit | OpTypeAmend =>
            let removes := if 0 <? removes then removes - 1 else removes in
            if removes =? 0 then oplog.Ref op else latestSavePath_scan removes older
        end
      else latestSavePath_scan removes older
  end.

Definition latestSavePath (branchLog : Log) : string :=
  latestSavePath_scan 0 (reverse (Ops branchLog)).

(** The head algorithm in the words of the specification: "Remove: removes
    += op.size. Init or Amend: if removes > 0, decrement and continue; else
    return op.ref. If the scan exhausts ops, return the empty string." *)
Fixpoint headPath_spec_scan (removes : Z) (ops_newest_first : list Op) : string :=
  match ops_newest_first with
  | [] => ""
  | op :: older =>
      if (Model op =? CommitModel)%N then
        match Type_ op with
        | OpTypeRemove => headPath_spec_scan (removes + Size op) older
        | OpTypeInit | OpTypeAmend =>
            if 0 <? removes then headPath_spec_scan (removes - 1) older
            else oplog.Ref op
        end
      else headPath_spec_scan removes older
  end.

Definition headPath_spec (branchLog : Log) : string :=
  headPath_spec_scan 0 (reverse (Ops branchLog)).

(** ** Go slices

    A slice of version infos is a window on a backing array: [visible] are
    the elements below [len], [spare] the ones between [len] and [cap].
    Reslicing upwards ([s[:n]] with [len < n <= cap]) brings spare elements
    back into view. *)

Record slice : Type := mkSlice
  { visible : list VersionInfo;
    spare : list VersionInfo }.

Definition emptySlice : slice := mkSlice [] [].

Definition slen (s : slice) : Z := Z.of_nat (length (visible s)).
Definition scap (s : slice) : Z := Z.of_nat (length (visible s) + length (spare s)).

Section Slices.

(** The capacity the runtime picks when [append] has to reallocate a full
    slice of the given capacity; it depends on allocator size classes. *)
Variable growcap : nat -> nat.

(** [append(s, x)] *)
Definition sappend (s : slice) (x : VersionInfo) : slice :=
  match spare s with
  | _ :: sp => mkSlice (visible s ++ [x]) sp
  | [] =>
      mkSlice (visible s ++ [x])
        (replicate (growcap (length (visible s)) - S (length (visible s)))%nat
           zeroVersionInfo)
  end.

(** [s[:n]]; panics unless [0 <= n <= cap(s)] *)
Definition sliceTo (s : slice) (n : Z) : result slice :=
  if (0 <=? n) && (n <=? scap s) then
    let all := visible s ++ spare s in
    Ok (mkSlice (take (Z.to_nat n) all) (drop (Z.to_nat n) all))
  else Panic.

(** [s[off:]]; panics unless [0 <= off <= len(s)] *)
Definition sliceFrom (s : slice) (off : Z) : result slice :=
  if (0 <=? off) && (off <=? slen s) then
    Ok (mkSlice (drop (Z.to_nat off) (visible s)) (spare s))
  else Panic.

(** [s[i] = f(s[i])]; panics unless [0 <= i < len(s)] *)
Definition sliceAlter (f : VersionInfo -> VersionInfo) (s : slice) (i : Z)
  : result slice :=
  if (0 <=? i) && (i <? slen s) then
    Ok (mkSlice (alter f (Z.to_nat i) (visible s)) (spare s))
  else Panic.

(** [s[i]]; panics unless [0 <= i < len(s)] *)
Definition sliceIndex (s : slice) (i : Z) : result VersionInfo :=
  if (0 <=? i) && (i <? slen s) then
    match visible s !! Z.to_nat i with
    | Some x => Ok x
    | None => Panic
    end
  else Panic.

End Slices.

(** ** Commit-list derivation *)

Fixpoint commitOpRunID_loop (relations : list string) : string :=
  match relations with
  | [] => ""
  | str :: rest =>
      if HasPrefix str runIDRelPrefix then TrimPrefix str runIDRelPrefix
      else commitOpRunID_loop rest
  end.

Definition commitOpRunID (op : Op) : string := commitOpRunID_loop (Relations op).

Definition versionInfoFromOp (ref : Ref) (op : Op) : VersionInfo :=
  {| viUsername := Username ref;
     viProfileID := ProfileID ref;
     viName := dsref.Name ref;
     viPath := oplog.Ref op;
     Published := false;
     CommitTime := Timestamp op;
     BodySize := Size op;
     CommitTitle := Note op;
     RunID := "";
     RunStatus := "";
     RunDuration := 0 |}.

Definition runItemFromOp (ref : Ref) (op : Op) : VersionInfo :=
  {| viUsername := Username ref;
     viProfileID := ProfileID ref;
     viName := dsref.Name ref;
     viPath := "";
     Published := false;
     CommitTime := Timestamp op;
     BodySize := 0;
     CommitTitle := "";
     RunID := oplog.Ref op;
     RunStatus := Note op;
     RunDuration := Size op |}.

Definition addCommitDetailsToRunItem (li : VersionInfo) (op : Op) : VersionInfo :=
  {| viUsername := viUsername li;
     viProfileID := viProfileID li;
     viName := viName li;
     viPath := oplog.Ref op;
     Published := Published li;
     CommitTime := Timestamp op;
     BodySize := Size op;
     CommitTitle := Note op;
     RunID := RunID li;
     RunStatus := RunStatus li;
     RunDuration := RunDuration li |}.

(** [for i := 1; i <= int(op.Size); i++ { refs[len(refs)-i].Published = b }],
    entered at loop counter [i]. The index leaves the slice after at most
    [len(refs)] rounds, so [fuel = len(refs) + 1] rounds are enough to reach
    either the exit test or the panic. *)
Fixpoint markPublished (b : bool) (size : Z) (fuel : nat) (i : Z) (refs : slice)
  : result slice :=
  if i <=? size then
    match fuel with
    | O => Panic
    | S fuel' =>
        match sliceAlter (setPublished b) refs (slen refs - i) with
        | Ok refs' => markPublished b size fuel' (i + 1) refs'
        | Err e => Err e
        | Panic => Panic
        end
    end
  else Ok refs.

(** The reversal loop, [for i := len(refs)/2 - 1; i >= 0; i-- { opp :=
    len(refs) - 1 - i; refs[i], refs[opp] = refs[opp], refs[i] }], with
    [rounds] rounds left to run. *)
Definition swapAt (i j : nat) (l : list VersionInfo) : list VersionInfo :=
  match l !! i, l !! j with
  | Some x, Some y => <[i := y]> (<[j := x]> l)
  | _, _ => l
  end.

Fixpoint reverseLoop (rounds : nat) (l : list VersionInfo) : list VersionInfo :=
  match rounds with
  | O => l
  | S i => reverseLoop i (swapAt i (length l - 1 - i) l)
  end.

Definition reverseInPlace (l : list VersionInfo) : list VersionInfo :=
  reverseLoop (length l / 2) l.

Section Derivation.

Variable growcap : nat -> nat.

(** One round of the loop over [blog.Ops()]; the state is [refs] and
    [deleteAtEnd]. *)
Definition branchToVersionInfos_step (ref : Ref) (collapseAllDeletes : bool)
    (st : slice * Z) (op : Op) : result (slice * Z) :=
  let '(refs, deleteAtEnd) := st in
  if (Model op =? CommitModel)%N then
    match Type_ op with
    | OpTypeInit =>
        let commitRunID := commitOpRunID op in
        match
          (if negb (String.eqb commitRunID "") && (0 <? slen refs)
           then match sliceIndex refs (slen refs - 1) with
                | Ok li => if String.eqb commitRunID (RunID li) then Some li else None
                | _ => None
                end
           else None)
        with
        | Some li =>
            match sliceAlter (fun _ => addCommitDetailsToRunItem li op) refs
                    (slen refs - 1) with
            | Ok refs' => Ok (refs', deleteAtEnd)
            | Err e => Err e
            | Panic => Panic
            end
        | None => Ok (sappend growcap refs (versionInfoFromOp ref op), deleteAtEnd)
        end
    | OpTypeAmend =>
        match sliceAlter (fun _ => versionInfoFromOp ref op) refs (slen refs - 1) with
        | Ok refs' => Ok (refs', 0)
        | Err e => Err e
        | Panic => Panic
        end
    | OpTypeRemove =>
        if collapseAllDeletes then
          match sliceTo refs (wrap64 (slen refs - Size op)) with
          | Ok refs' => Ok (refs', deleteAtEnd)
          | Err e => Err e
          | Panic => Panic
          end
        else Ok (refs, wrap64 (deleteAtEnd + Size op))
    end
  else if (Model op =? RunModel)%N then
    Ok (sappend growcap refs (runItemFromOp ref op), deleteAtEnd)
  else if (Model op =? PushModel)%N then
    match Type_ op with
    | OpTypeInit =>
        match markPublished true (Size op) (S (length (visible refs))) 1 refs with
        | Ok refs' => Ok (refs', deleteAtEnd)
        | Err e => Err e
        | Panic => Panic
        end
    | OpTypeRemove =>
        match markPublished false (Size op) (S (length (visible refs))) 1 refs with
        | Ok refs' => Ok (refs', deleteAtEnd)
        | Err e => Err e
        | Panic => Panic
        end
    | OpTypeAmend => Ok (refs, deleteAtEnd)
    end
  else Ok (refs, deleteAtEnd).

Fixpoint branchToVersionInfos_loop (ref : Ref) (collapseAllDeletes : bool)
    (st : slice * Z) (ops : list Op) : result (slice * Z) :=
  match ops with
  | [] => Ok st
  | op :: rest =>
      match branchToVersionInfos_step ref collapseAllDeletes st op with
      | Ok st' => branchToVersionInfos_loop ref collapseAllDeletes st' rest
      | Err e => Err e
      | Panic => Panic
      end
  end.

(** What follows the loop: the pending tail delete, the reversal, offset
    and limit. *)
Definition branchToVersionInfos_finish (st : slice * Z) (offset limit : Z)
  : result (list VersionInfo) :=
  let '(refs, deleteAtEnd) := st in
  let refs :=
    if 0 <? deleteAtEnd then
      if deleteAtEnd <? slen refs
      then sliceTo refs (slen refs - deleteAtEnd)
      else Ok emptySlice
    else Ok refs in
  match refs with
  | Ok refs =>
      let refs := mkSlice (reverseInPlace (visible refs)) (spare refs) in
      let offset := if slen refs <? offset then slen refs else offset in
      match sliceFrom refs offset with
      | Ok refs =>
          if (limit <? slen refs) && negb (limit =? -1) then
            match sliceTo refs limit with
            | Ok refs => Ok (visible refs)
            | Err e => Err e
            | Panic => Panic
            end
          else Ok (visible refs)
      | Err e => Err e
      | Panic => Panic
      end
  | Err e => Err e
  | Panic => Panic
  end.

Definition branchToVersionInfos (blog : Log) (ref : Ref) (offset limit : Z)
    (collapseAllDeletes : bool) : result (list VersionInfo) :=
  match branchToVersionInfos_loop ref collapseAllDeletes (emptySlice, 0) (Ops blog) with
  | Ok st => branchToVersionInfos_finish st offset limit
  | Err e => Err e
  | Panic => Panic
  end.

(** [ConvertLogsToVersionInfos] *)
Definition ConvertLogsToVersionInfos (l : Log) (ref : Ref) : result (list VersionInfo) :=
  branchToVersionInfos l ref 0 (-1) true.

End Derivation.

(** The last [n] entries of a list with their [Published] flag set to [b],
    the others as they were. *)
Definition markLast (b : bool) (n : Z) (l : list VersionInfo) : list VersionInfo :=
  imap (fun j x => if Z.of_nat (length l) - n <=? Z.of_nat j then setPublished b x else x) l.

(** A commit op as [WriteVersionSave] writes it for a version that names no
    run, and a push op of the given type and size. *)
Definition isPlainSave (op : Op) : Prop :=
  Model op = CommitModel /\ Type_ op = OpTypeInit /\ commitOpRunID op = "".

Definition isPush (t : OpType) (n : Z) (op : Op) : Prop :=
  Model op = PushModel /\ Type_ op = t /\ Size op = n.

(** ** Packages dataset, run and event: what the logbook reads and emits *)

Module dataset.

(** [Timestamp] holds [Commit.Timestamp.UnixNano()]. *)
Record Commit : Type := mkCommit
  { Timestamp : Z;
    Title : string;
    RunID : string }.

Record Structure : Type := mkStructure
  { Length : Z }.

(** [Commit_] and [Structure_] are pointers and may be nil. *)
Record Dataset : Type := mkDataset
  { Path : string;
    PreviousPath : string;
    Commit_ : option Commit;
    Structure_ : option Structure;
    Peername : string;
    ProfileID : string;
    Name : string }.

End dataset.

Module run.

(** [StartTime] holds [StartTime.UnixNano()] when the pointer is set. *)
Record State : Type := mkState
  { ID : string;
    Number : Z;
    Status : string;
    Duration : Z;
    StartTime : option Z }.

End run.

Module event.

Inductive Type_ : Type :=
  | ETDatasetNameInit
  | ETDatasetRename
  | ETDatasetDeleteAll
  | ETDatasetCommitChange.

Record DsChange : Type := mkDsChange
  { InitID : string;
    TopIndex : Z;
    ProfileID : string;
    Username : string;
    PrettyName : string;
    HeadRef : string;
    Info : option VersionInfo }.

End event.

(** ** Collaborators

    What the book calls and this package does not define: hashing of init
    ops, name validation, signature verification, the merge of the oplog
    engine, encryption of the journal, the filesystem, and the slice
    growth of the runtime. *)

Class Collaborators (PrivKey PubKey Filesystem : Type) : Type :=
  { (** [oplog.Op.Hash] *)
    Hash : Op -> string;
    (** [dsref.IsValidName] *)
    IsValidName : string -> bool;
    (** [oplog.Log.Verify]: [None] when the signature verifies *)
    Verify : Log -> PubKey -> option Error;
    (** [oplog.Journal.MergeLog] *)
    Journal_MergeLog : list Log -> Log -> list Log * option Error;
    (** [oplog.Journal.FlatbufferCipher] *)
    FlatbufferCipher : list Log -> PrivKey -> list Byte.byte * option Error;
    (** [qfs.Filesystem.Put] of a memfile: the new filesystem, the path
        returned and the error returned *)
    fsPut : Filesystem -> string -> list Byte.byte -> Filesystem * string * option Error;
    (** [oplog.GetWithSparseAncestorsAllDescendants] followed by [Parent] *)
    SparseAncestorsParent : list Log -> string -> result Log;
    (** [dsref.ConvertDatasetToVersionInfo] *)
    ConvertDatasetToVersionInfo : dataset.Dataset -> VersionInfo;
    (** capacity chosen by [append] on a full slice *)
    growcap : nat -> nat }.

(** [profile.Author]: who sends a log. *)
Record Author (PubKey : Type) : Type := mkAuthor
  { Author_AuthorID : string;
    Author_Username : string;
    AuthorPubKey : PubKey }.
Arguments mkAuthor {PubKey} _ _ _.
Arguments Author_AuthorID {PubKey} a.
Arguments Author_Username {PubKey} a.
Arguments AuthorPubKey {PubKey} a.

(** What the book does to the outside, in program order: events handed to
    the publisher and blobs handed to the filesystem. *)
Inductive Effect : Type :=
  | EffPublish (t : event.Type_) (payload : event.DsChange)
  | EffPut (location : string) (data : list Byte.byte) (err : option Error).

(** Early return: carry on with the value of [r], or return its error (or
    panic) together with the state [s] reached so far. *)
Definition attempt {S A B : Type} (s : S) (r : result A) (k : A -> S * result B)
  : S * result B :=
  match r with
  | Ok a => k a
  | Err e => (s, Err e)
  | Panic => (s, Panic)
  end.

Definition errResult (e : option Error) : result unit :=
  match e with Some err => Err err | None => Ok tt end.

Section Logbook.

Context {PrivKey PubKey Filesystem : Type}.
Context {C : Collaborators PrivKey PubKey Filesystem}.

(** The book: its journal ([store]), key, author, place on the
    filesystem, and the effects it has had so far. *)
Record Book : Type := mkBook
  { store : list Log;
    pk : PrivKey;
    authorID : string;
    authorName : string;
    fsLocation : string;
    fs : Filesystem;
    effects : list Effect }.

Definition withStore (logs : list Log) (book : Book) : Book :=
  mkBook logs (pk book) (authorID book) (authorName book) (fsLocation book)
    (fs book) (effects book).

Definition withAuthorName (name : string) (book : Book) : Book :=
  mkBook (store book) (pk book) (authorID book) name (fsLocation book)
    (fs book) (effects book).

Definition withAuthorID (id : string) (book : Book) : Book :=
  mkBook (store book) (pk book) id (authorName book) (fsLocation book)
    (fs book) (effects book).

(** [book.publisher.Publish]; the error it returns is logged and dropped. *)
Definition Publish (t : event.Type_) (payload : event.DsChange) (book : Book) : Book :=
  mkBook (store book) (pk book) (authorID book) (authorName book) (fsLocation book)
    (fs book) (effects book ++ [EffPublish t payload]).

(** Write through a log pointer. *)
Definition modifyLog (f : Log -> Log) (p : ptr) (book : Book) : Book :=
  withStore (update f (store book) p) book.

Definition Username (book : Book) : string := authorName book.
Definition AuthorID (book : Book) : string := authorID book.

(** [save]: the journal is an [AuthorLogstore]. A failure of
    [FlatbufferCipher] is returned. The error of [fs.Put] is assigned to
    the [err] declared inside the [if] block, not to the named result, so
    after a [Put] the function returns nil, and [fsLocation] takes
    whatever path [Put] returned. *)
Definition save (book : Book) : Book * result unit :=
  let '(ciphertext, err) := FlatbufferCipher (store book) (pk book) in
  match err with
  | Some e => (book, Err e)
  | None =>
      let '(fs', location, puterr) := fsPut (fs book) (fsLocation book) ciphertext in
      (mkBook (store book) (pk book) (authorID book) (authorName book) location fs'
         (effects book ++ [EffPut (fsLocation book) ciphertext puterr]),
       Ok tt)
  end.

(** [initialize], with the reading of [NewTimestamp] as an argument. *)
Definition initialize (authorID_ : string) (now : Z) (book : Book) : Book * result unit :=
  let userActions :=
    InitLog (mkOp OpTypeInit AuthorModel "" "" [] (Username book) authorID_ now 0 "") in
  let book := withAuthorID (Log_ID Hash userActions) book in
  let '(logs, err) := Journal_MergeLog (store book) userActions in
  let book := withStore logs book in
  match err with
  | Some e => (book, Err e)
  | None => save book
  end.

(** [authorLog], [datasetLog], [branchLog]: a pointer into the store and
    the log it points to. *)
Definition authorLog (book : Book) : result (ptr * Log) :=
  Journal_Get Hash (store book) (authorID book).

Definition datasetLog (book : Book) (initID : string) : result (ptr * Log) :=
  Journal_Get Hash (store book) initID.

Definition branchLog (book : Book) (initID : string) : result (ptr * Log) :=
  match Journal_Get Hash (store book) initID with
  | Ok (p, lg) =>
      match Logs lg with
      | [branch] => Ok (p ++ [0%nat], branch)
      | logs => Err (ErrBranchCount (length logs))
      end
  | Err e => Err e
  | Panic => Panic
  end.

(** [hasWriteAccess]; [log.Ops[0]] panics on a log without ops. *)
Definition hasWriteAccess (book : Book) (log : Log) : result unit :=
  match Ops log with
  | [] => Panic
  | op :: _ =>
      if negb (String.eqb (oplog.AuthorID op) (authorID book))
      then Err ErrAccessDenied
      else Ok tt
  end.

Definition dsRefToLogPath (ref : Ref) : list string :=
  [dsref.Username ref; dsref.Name ref].

(** [DatasetRef] *)
Definition DatasetRef (book : Book) (ref : Ref) : result (ptr * Log) :=
  if String.eqb (dsref.Username ref) "" then Err ErrUsernameRequired
  else if String.eqb (dsref.Name ref) "" then Err ErrNameRequired
  else Journal_HeadRef (store book) [dsref.Username ref; dsref.Name ref].

(** [RefToInitID] *)
Definition RefToInitID (book : Book) (ref : Ref) : result string :=
  match Journal_HeadRef (store book) [dsref.Username ref; dsref.Name ref] with
  | Ok (_, dsLog) => Ok (Log_ID Hash dsLog)
  | Err ErrOplogNotFound => Err ErrNotFound
  | Err e => Err e
  | Panic => Panic
  end.

(** [RemoveLog]; the error of [store.RemoveLog] is dropped. *)
Definition RemoveLog (book : Book) (ref : Ref) : Book * result unit :=
  let '(logs, _) := Journal_RemoveLog (store book) (dsRefToLogPath ref) in
  save (withStore logs book).

(** [MergeLog] *)
Definition MergeLog (book : Book) (sender : Author PubKey) (lg : Log)
  : Book * result unit :=
  match Verify lg (AuthorPubKey sender) with
  | Some err => (book, Err err)
  | None =>
      let '(logs, err) := Journal_MergeLog (store book) lg in
      let book := withStore logs book in
      match err with
      | Some e => (book, Err e)
      | None => save book
      end
  end.

Definition authorRenameOp (book : Book) (newName : string) (now : Z) : Op :=
  {| Type_ := OpTypeAmend; Model := AuthorModel; oplog.Ref := ""; Prev := "";
     Relations := []; oplog.Name := newName; oplog.AuthorID := AuthorID book;
     Timestamp := now; Size := 0; Note := "" |}.

(** [WriteAuthorRename], with the reading of [NewTimestamp] as [now]. *)
Definition WriteAuthorRename (book : Book) (newName : string) (now : Z)
  : Book * result unit :=
  if negb (IsValidName newName)
  then (book, Err (ErrInvalidName "author name" newName))
  else
    attempt book (authorLog book) (fun '(p, _) =>
      let book := modifyLog (Append (authorRenameOp book newName now)) p book in
      match save book with
      | (book, Ok _) => (withAuthorName newName book, Ok tt)
      | (book, Err e) => (book, Err e)
      | (book, Panic) => (book, Panic)
      end).

(** The test for "blank" logs in [WriteDatasetInit]. *)
Definition isStranded (dsLog : Log) : bool :=
  (length (Ops dsLog) =? 1)%nat && (length (Logs dsLog) =? 1)%nat &&
  match Logs dsLog with
  | branch :: _ => (length (Ops branch) =? 1)%nat
  | [] => false
  end.

Definition datasetInitOp (book : Book) (dsName : string) (now : Z) : Op :=
  {| Type_ := OpTypeInit; Model := DatasetModel; oplog.Ref := ""; Prev := "";
     Relations := []; oplog.Name := dsName; oplog.AuthorID := AuthorID book;
     Timestamp := now; Size := 0; Note := "" |}.

Definition branchInitOp (book : Book) (now : Z) : Op :=
  {| Type_ := OpTypeInit; Model := BranchModel; oplog.Ref := ""; Prev := "";
     Relations := []; oplog.Name := DefaultBranchName; oplog.AuthorID := AuthorID book;
     Timestamp := now; Size := 0; Note := "" |}.

(** The dataset log [WriteDatasetInit] builds: its Init op and one branch
    log. *)
Definition newDatasetLog (book : Book) (dsName : string) (now1 now2 : Z) : Log :=
  AddChild (InitLog (branchInitOp book now2)) (InitLog (datasetInitOp book dsName now1)).

(** [WriteDatasetInit]; [now1] and [now2] are the two readings of
    [NewTimestamp]. The result is the pair [(initID, err)]. The profile id
    of the user log is the author id of its first op. *)
Definition WriteDatasetInit (book : Book) (dsName : string) (now1 now2 : Z)
  : Book * (string * result unit) :=
  if String.eqb dsName "" then (book, ("", Err ErrNameRequired))
  else if negb (IsValidName dsName)
  then (book, ("", Err (ErrInvalidName "dataset name" dsName)))
  else
    let ref := mkRef "" (Username book) "" dsName "" in
    let cleared : Book * result unit :=
      match DatasetRef book ref with
      | Ok (_, dsLog) =>
          if isStranded dsLog then
            match RemoveLog book ref with
            | (book', Ok _) => (book', Ok tt)
            | (book', Err e) => (book', Err (ErrRemovingStrayLog e))
            | (book', Panic) => (book', Panic)
            end
          else (book, Err (ErrAlreadyExists dsName))
      | Err _ | Panic => (book, Ok tt)
      end in
    match cleared with
    | (book, Ok _) =>
        match authorLog book with
        | Ok (p, authorLg) =>
            let profileID := Log_Author authorLg in
            let dsLog := newDatasetLog book dsName now1 now2 in
            let book := modifyLog (AddChild dsLog) p book in
            let initID := Log_ID Hash dsLog in
            let book :=
              Publish event.ETDatasetNameInit
                {| event.InitID := initID; event.TopIndex := 0;
                   event.ProfileID := profileID; event.Username := Username book;
                   event.PrettyName := dsName; event.HeadRef := "";
                   event.Info := None |} book in
            let '(book, err) := save book in
            (book, (initID, err))
        | Err e => (book, ("", Err e))
        | Panic => (book, ("", Panic))
        end
    | (book, Err e) => (book, ("", Err e))
    | (book, Panic) => (book, ("", Panic))
    end.

Definition datasetRenameOp (newName : string) (now : Z) : Op :=
  {| Type_ := OpTypeAmend; Model := DatasetModel; oplog.Ref := ""; Prev := "";
     Relations := []; oplog.Name := newName; oplog.AuthorID := "";
     Timestamp := now; Size := 0; Note := "" |}.

(** [WriteDatasetRename] *)
Definition WriteDatasetRename (book : Book) (initID newName : string) (now : Z)
  : Book * result unit :=
  if negb (IsValidName newName)
  then (book, Err (ErrInvalidName "new dataset name" newName))
  else
    attempt book (datasetLog book initID) (fun '(p, dsLog) =>
    attempt book (hasWriteAccess book dsLog) (fun _ =>
      let book := modifyLog (Append (datasetRenameOp newName now)) p book in
      let book :=
        Publish event.ETDatasetRename
          {| event.InitID := initID; event.TopIndex := 0; event.ProfileID := "";
             event.Username := ""; event.PrettyName := newName;
             event.HeadRef := ""; event.Info := None |} book in
      save book)).

Definition datasetDeleteOp (now : Z) : Op :=
  {| Type_ := OpTypeRemove; Model := DatasetModel; oplog.Ref := ""; Prev := "";
     Relations := []; oplog.Name := ""; oplog.AuthorID := "";
     Timestamp := now; Size := 0; Note := "" |}.

(** [WriteDatasetDelete] *)
Definition WriteDatasetDelete (book : Book) (initID : string) (now : Z)
  : Book * result unit :=
  attempt book (datasetLog book initID) (fun '(p, dsLog) =>
  attempt book (hasWriteAccess book dsLog) (fun _ =>
    let book := modifyLog (Append (datasetDeleteOp now)) p book in
    let book :=
      Publish event.ETDatasetDeleteAll
        {| event.InitID := initID; event.TopIndex := 0; event.ProfileID := "";
           event.Username := ""; event.PrettyName := "";
           event.HeadRef := ""; event.Info := None |} book in
    save book)).

(** The op [appendVersionSave] builds; reading [ds.Commit] panics when the
    pointer is nil. *)
Definition versionSaveOp (ds : dataset.Dataset) : result Op :=
  match dataset.Commit_ ds with
  | None => Panic
  | Some commit =>
      Ok {| Type_ := OpTypeInit; Model := CommitModel;
            oplog.Ref := dataset.Path ds; Prev := dataset.PreviousPath ds;
            Relations :=
              if negb (String.eqb (dataset.RunID commit) "")
              then [String.append runIDRelPrefix (dataset.RunID commit)]
              else [];
            oplog.Name := ""; oplog.AuthorID := "";
            Timestamp := dataset.Timestamp commit;
            Size := match dataset.Structure_ ds with
                    | Some structure => dataset.Length structure
                    | None => 0
                    end;
            Note := dataset.Title commit |}
  end.

(** [appendVersionSave]: the book, the branch log after the append, and
    the index of the new op. *)
Definition appendVersionSave (book : Book) (p : ptr) (blog : Log) (ds : dataset.Dataset)
  : Book * result (Log * Z) :=
  attempt book (versionSaveOp ds) (fun op =>
    let blog := Append op blog in
    (modifyLog (Append op) p book, Ok (blog, Z.of_nat (length (Ops blog)) - 1))).

(** The op [appendTransformRun] builds. *)
Definition transformRunOp (rs : run.State) : Op :=
  {| Type_ := OpTypeInit; Model := RunModel; oplog.Ref := run.ID rs; Prev := "";
     Relations := []; oplog.Name := sprintf_d (run.Number rs); oplog.AuthorID := "";
     Timestamp := match run.StartTime rs with Some t => t | None => 0 end;
     Size := run.Duration rs; Note := run.Status rs |}.

(** [appendTransformRun]; a nil [rs] panics. *)
Definition appendTransformRun (book : Book) (p : ptr) (blog : Log) (rs : option run.State)
  : Book * result (Log * Z) :=
  match rs with
  | None => (book, Panic)
  | Some rs =>
      let blog := Append (transformRunOp rs) blog in
      (modifyLog (Append (transformRunOp rs)) p book,
       Ok (blog, Z.of_nat (length (Ops blog)) - 1))
  end.

(** [WriteVersionSave] *)
Definition WriteVersionSave (book : Book) (initID : string) (ds : dataset.Dataset)
    (rs : option run.State) : Book * result unit :=
  attempt book (branchLog book initID) (fun '(p, branchLg) =>
  attempt book (hasWriteAccess book branchLg) (fun _ =>
    let afterRun : Book * result Log :=
      match rs with
      | Some st =>
          match dataset.Commit_ ds with
          | None => (book, Panic)
          | Some commit =>
              if negb (String.eqb (run.ID st) (dataset.RunID commit))
              then (book, Err ErrRunIDMismatch)
              else
                match appendTransformRun book p branchLg rs with
                | (book, Ok (blog, _)) => (book, Ok blog)
                | (book, Err e) => (book, Err e)
                | (book, Panic) => (book, Panic)
                end
          end
      | None => (book, Ok branchLg)
      end in
    let '(book, r) := afterRun in
    attempt book r (fun branchLg =>
      let '(book, r) := appendVersionSave book p branchLg ds in
      attempt book r (fun '(_, topIndex) =>
        let '(book, err) := save book in
        attempt book err (fun _ =>
          let info := ConvertDatasetToVersionInfo ds in
          (Publish event.ETDatasetCommitChange
             {| event.InitID := initID; event.TopIndex := topIndex;
                event.ProfileID := ""; event.Username := ""; event.PrettyName := "";
                event.HeadRef := viPath info; event.Info := Some info |} book,
           Ok tt)))))).

(** [WriteTransformRun] *)
Definition WriteTransformRun (book : Book) (initID : string) (rs : option run.State)
  : Book * result unit :=
  attempt book (branchLog book initID) (fun '(p, branchLg) =>
  attempt book (hasWriteAccess book branchLg) (fun _ =>
    let '(book, r) := appendTransformRun book p branchLg rs in
    attempt book r (fun _ => save book))).

Definition versionAmendOp (ds : dataset.Dataset) (commit : dataset.Commit) : Op :=
  {| Type_ := OpTypeAmend; Model := CommitModel;
     oplog.Ref := dataset.Path ds; Prev := dataset.PreviousPath ds;
     Relations := []; oplog.Name := ""; oplog.AuthorID := "";
     Timestamp := dataset.Timestamp commit; Size := 0;
     Note := dataset.Title commit |}.

(** [WriteVersionAmend] *)
Definition WriteVersionAmend (book : Book) (initID : string) (ds : dataset.Dataset)
  : Book * result unit :=
  attempt book (branchLog book initID) (fun '(p, branchLg) =>
  attempt book (hasWriteAccess book branchLg) (fun _ =>
    match dataset.Commit_ ds with
    | None => (book, Panic)
    | Some commit =>
        save (modifyLog (Append (versionAmendOp ds commit)) p book)
    end)).

Definition versionDeleteOp (revisions : Z) : Op :=
  {| Type_ := OpTypeRemove; Model := CommitModel; oplog.Ref := ""; Prev := "";
     Relations := []; oplog.Name := ""; oplog.AuthorID := ""; Timestamp := 0;
     Size := revisions; Note := "" |}.

(** [WriteVersionDelete] *)
Definition WriteVersionDelete (book : Book) (initID : string) (revisions : Z)
  : Book * result unit :=
  attempt book (branchLog book initID) (fun '(p, branchLg) =>
  attempt book (hasWriteAccess book branchLg) (fun _ =>
    let book := modifyLog (Append (versionDeleteOp revisions)) p book in
    let branchLg := Append (versionDeleteOp revisions) branchLg in
    attempt book
      (branchToVersionInfos growcap branchLg (mkRef "" "" "" "" "") 0 (-1) false)
      (fun items =>
         let book :=
           match last items with
           | Some lastItem =>
               Publish event.ETDatasetCommitChange
                 {| event.InitID := initID;
                    event.TopIndex := Z.of_nat (length items);
                    event.ProfileID := ""; event.Username := "";
                    event.PrettyName := ""; event.HeadRef := viPath lastItem;
                    event.Info := Some lastItem |} book
           | None => book
           end in
         save book))).

(** [UserDatasetBranchesLog] *)
Definition UserDatasetBranchesLog (book : Book) (datasetInitID : string) : result Log :=
  if String.eqb datasetInitID "" then Err ErrEmptyInitID
  else SparseAncestorsParent (store book) datasetInitID.

(** The rollback closure of [WriteRemotePush] and [WriteRemoteDelete]: the
    init id it captured, whether [rollbackOnce] has fired, and
    [rollbackError]. *)
Record Rollback : Type := mkRollback
  { rbInitID : string;
    rbFired : bool;
    rbError : option Error }.

(** Calling the closure. Dropping the last op of a log without ops
    panics. *)
Definition callRollback (book : Book) (rb : Rollback) : Book * Rollback * result unit :=
  if rbFired rb then (book, rb, errResult (rbError rb))
  else
    match branchLog book (rbInitID rb) with
    | Ok (p, branchLg) =>
        match Ops branchLg with
        | [] => (book, rb, Panic)
        | _ :: _ =>
            let book :=
              modifyLog
                (fun lg => mkLog (take (length (Ops lg) - 1) (Ops lg)) (Logs lg) (Signature lg))
                p book in
            match save book with
            | (book, Ok _) => (book, mkRollback (rbInitID rb) true None, Ok tt)
            | (book, Err e) => (book, mkRollback (rbInitID rb) true (Some e), Err e)
            | (book, Panic) => (book, rb, Panic)
            end
        end
    | Err e => (book, mkRollback (rbInitID rb) true (Some e), Err e)
    | Panic => (book, rb, Panic)
    end.

(** What [WriteRemotePush] and [WriteRemoteDelete] return: [(l, rollback,
    err)]. *)
Record PushResult : Type := mkPushResult
  { prLog : option Log;
    prRollback : option Rollback;
    prErr : result unit }.

Definition pushFailed (r : result unit) : PushResult := mkPushResult None None r.

Definition remoteOp (t : OpType) (revisions : Z) (remoteAddr : string) (now : Z) : Op :=
  {| Type_ := t; Model := PushModel; oplog.Ref := ""; Prev := "";
     Relations := [remoteAddr]; oplog.Name := ""; oplog.AuthorID := "";
     Timestamp := now; Size := revisions; Note := "" |}.

(** The body shared by [WriteRemotePush] and [WriteRemoteDelete], which
    differ in the type of the op they append. *)
Definition writeRemote (t : OpType) (book : Book) (initID : string) (revisions : Z)
    (remoteAddr : string) (now : Z) : Book * PushResult :=
  match branchLog book initID with
  | Ok (p, branchLg) =>
      match hasWriteAccess book branchLg with
      | Ok _ =>
          let book := modifyLog (Append (remoteOp t revisions remoteAddr now)) p book in
          match save book with
          | (book, Ok _) =>
              let rollback := mkRollback initID false None in
              match UserDatasetBranchesLog book initID with
              | Ok sparseLog => (book, mkPushResult (Some sparseLog) (Some rollback) (Ok tt))
              | Err e =>
                  let '(book, rollback, _) := callRollback book rollback in
                  (book, mkPushResult None (Some rollback) (Err e))
              | Panic => (book, pushFailed Panic)
              end
          | (book, r) => (book, pushFailed r)
          end
      | r => (book, pushFailed r)
      end
  | Err e => (book, pushFailed (Err e))
  | Panic => (book, pushFailed Panic)
  end.

(** [WriteRemotePush] *)
Definition WriteRemotePush := writeRemote OpTypeInit.

(** [WriteRemoteDelete] *)
Definition WriteRemoteDelete := writeRemote OpTypeRemove.

Definition setInitID (id : string) (ref : Ref) : Ref :=
  mkRef id (dsref.Username ref) (dsref.ProfileID ref) (dsref.Name ref) (dsref.Path ref).
Definition setPath (path : string) (ref : Ref) : Ref :=
  mkRef (dsref.InitID ref) (dsref.Username ref) (dsref.ProfileID ref) (dsref.Name ref) path.
Definition setProfileID (id : string) (ref : Ref) : Ref :=
  mkRef (dsref.InitID ref) (dsref.Username ref) id (dsref.Name ref) (dsref.Path ref).

(** [ResolveRef]: the reference as the call leaves it, and the pair
    [(address, err)]. *)
Definition ResolveRef (book : Book) (ref : Ref) : Ref * result string :=
  match RefToInitID book ref with
  | Ok initID =>
      let ref := setInitID initID ref in
      let withPath : Ref * result (option Log) :=
        if String.eqb (dsref.Path ref) "" then
          match branchLog book initID with
          | Ok (_, branchLg) => (setPath (latestSavePath branchLg) ref, Ok (Some branchLg))
          | Err e => (ref, Err e)
          | Panic => (ref, Panic)
          end
        else (ref, Ok None) in
      let '(ref, r) := withPath in
      attempt ref r (fun branchLg =>
        if String.eqb (dsref.ProfileID ref) "" then
          let found : result Log :=
            match branchLg with
            | Some branchLg => Ok branchLg
            | None =>
                match branchLog book initID with
                | Ok (_, branchLg) => Ok branchLg
                | Err e => Err e
                | Panic => Panic
                end
            end in
          attempt ref found (fun branchLg =>
          attempt ref (Journal_Get Hash (store book) (Log_Author branchLg))
            (fun '(_, authorLg) =>
               match Ops authorLg with
               | [] => (ref, Panic)
               | op :: _ => (setProfileID (oplog.AuthorID op) ref, Ok "")
               end))
        else (ref, Ok ""))
  | Err _ | Panic => (ref, Err ErrRefNotFound)
  end.

(** [Items] *)
Definition Items (book : Book) (ref : Ref) (offset limit : Z)
  : result (list VersionInfo) :=
  match RefToInitID book (mkRef "" (dsref.Username ref) "" (dsref.Name ref) "") with
  | Ok initID =>
      match branchLog book initID with
      | Ok (_, branchLg) => branchToVersionInfos growcap branchLg ref offset limit true
      | Err e => Err e
      | Panic => Panic
      end
  | Err e => Err e
  | Panic => Panic
  end.

(** The domain write operations that address an existing log by its init
    id, with their arguments. *)
Inductive WriteOp : Type :=
  | DatasetRename (newName : string) (now : Z)
  | DatasetDelete (now : Z)
  | VersionSave (ds : dataset.Dataset) (rs : option run.State)
  | TransformRun (rs : option run.State)
  | VersionAmend (ds : dataset.Dataset)
  | VersionDelete (revisions : Z)
  | RemotePush (revisions : Z) (remoteAddr : string) (now : Z)
  | RemoteDelete (revisions : Z) (remoteAddr : string) (now : Z).

(** The book and the error the operation leaves behind. *)
Definition runWrite (book : Book) (initID : string) (w : WriteOp) : Book * result unit :=
  match w with
  | DatasetRename newName now => WriteDatasetRename book initID newName now
  | DatasetDelete now => WriteDatasetDelete book initID now
  | VersionSave ds rs => WriteVersionSave book initID ds rs
  | TransformRun rs => WriteTransformRun book initID rs
  | VersionAmend ds => WriteVersionAmend book initID ds
  | VersionDelete revisions => WriteVersionDelete book initID revisions
  | RemotePush revisions remoteAddr now =>
      let '(book, r) := WriteRemotePush book initID revisions remoteAddr now in
      (book, prErr r)
  | RemoteDelete revisions remoteAddr now =>
      let '(book, r) := WriteRemoteDelete book initID revisions remoteAddr now in
      (book, prErr r)
  end.

(** The log an operation appends to: the dataset log for rename and
    delete, its branch log for the others. *)
Definition targetLog (book : Book) (initID : string) (w : WriteOp) : result (ptr * Log) :=
  match w with
  | DatasetRename _ _ | DatasetDelete _ => datasetLog book initID
  | _ => branchLog book initID
  end.

Definition isRemoteOp (w : WriteOp) : bool :=
  match w with
  | RemotePush _ _ _ | RemoteDelete _ _ _ => true
  | _ => false
  end.

(** The check an operation makes on its arguments before it looks for
    its target: [WriteDatasetRename] validates the new name. *)
Definition argumentError (w : WriteOp) : option Error :=
  match w with
  | DatasetRename newName _ =>
      if negb (IsValidName newName)
      then Some (ErrInvalidName "new dataset name" newName)
      else None
  | _ => None
  end.

(** The ops an operation appends to its target log once it has passed
    its checks; [None] when its arguments make it stop before. *)
Definition appendedOps (w : WriteOp) : option (list Op) :=
  match w with
  | DatasetRename newName now =>
      if IsValidName newName then Some [datasetRenameOp newName now] else None
  | DatasetDelete now => Some [datasetDeleteOp now]
  | VersionSave ds None =>
      match versionSaveOp ds with Ok op => Some [op] | _ => None end
  | VersionSave ds (Some st) =>
      match dataset.Commit_ ds, versionSaveOp ds with
      | Some commit, Ok op =>
          if String.eqb (run.ID st) (dataset.RunID commit)
          then Some [transformRunOp st; op] else None
      | _, _ => None
      end
  | TransformRun (Some st) => Some [transformRunOp st]
  | TransformRun None => None
  | VersionAmend ds =>
      match dataset.Commit_ ds with
      | Some commit => Some [versionAmendOp ds commit]
      | None => None
      end
  | VersionDelete revisions => Some [versionDeleteOp revisions]
  | RemotePush revisions remoteAddr now =>
      Some [remoteOp OpTypeInit revisions remoteAddr now]
  | RemoteDelete revisions remoteAddr now =>
      Some [remoteOp OpTypeRemove revisions remoteAddr now]
  end.

Definition appendAll (ops : list Op) (lg : Log) : Log :=
  mkLog (Ops lg ++ ops) (Logs lg) (Signature lg).

(** Encrypting the journal with the book's key fails, or works, whatever
    the journal holds. *)
Definition cipherFails (book : Book) (e : Error) : Prop :=
  forall logs, snd (FlatbufferCipher logs (pk book)) = Some e.

Definition cipherWorks (book : Book) : Prop :=
  forall logs, snd (FlatbufferCipher logs (pk book)) = None.

End Logbook.

(** What an operation adds to the effects of the book: an event, followed
    by at most one write to the filesystem. *)
Definition publishedThenPut (t : event.Type_) (added : list Effect) : Prop :=
  exists payload,
    added = [EffPublish t payload]
    \/ exists location data err, added = [EffPublish t payload; EffPut location data err].

(** ** A runnable instance of the collaborators

    String keys, a list of files, and stand-ins for hashing and encryption
    that keep distinct init ops apart. The book runs on concrete inputs with
    it. *)

Module Sample.

Definition hashOp (op : Op) : string :=
  String.append "Qm"
    (String.append (sprintf_d (Z.of_N (Model op)))
       (String.append "-"
          (String.append (oplog.Name op)
             (String.append "-"
                (String.append (oplog.AuthorID op)
                   (String.append "-" (sprintf_d (Timestamp op)))))))).

Definition validNameChar (c : ascii) : bool :=
  let n := nat_of_ascii c in
  ((48 <=? n) && (n <=? 57) || (65 <=? n) && (n <=? 90)
   || (97 <=? n) && (n <=? 122) || (n =? 95) || (n =? 45))%nat.

(** Modelled from the spec: the name rule of [dsref.IsValidName], "1-80
    chars, [a-zA-Z0-9_-]". *)
Definition validName (s : string) : bool :=
  ((1 <=? String.length s) && (String.length s <=? 80))%nat
  && forallb validNameChar (list_ascii_of_string s).

(** A log verifies under a key when its signature is the key's bytes. *)
Definition verify (lg : Log) (pub : string) : option Error :=
  if String.eqb (string_of_list_byte (Signature lg)) pub then None
  else Some (ErrExternal "invalid signature").

(** An incoming log is put at the top level. *)
Definition mergeLog (logs : list Log) (lg : Log) : list Log * option Error :=
  (logs ++ [lg], None).

(** Encryption fails without a key. *)
Definition cipher (logs : list Log) (priv : string) : list Byte.byte * option Error :=
  if String.eqb priv "" then ([], Some (ErrExternal "private key is required"))
  else (concat (map (fun lg => list_byte_of_string (Log_ID hashOp lg)) logs), None).

Record Files : Type := mkFiles
  { files : list (string * list Byte.byte);
    writable : bool }.

Definition put (fs : Files) (location : string) (data : list Byte.byte)
  : Files * string * option Error :=
  if writable fs
  then (mkFiles ((location, data) :: files fs) true, location, None)
  else (fs, "", Some (ErrExternal "read-only filesystem")).

(** The top-level log above the log with the given id, cut down to its
    Init op, with that log as only child. *)
Definition sparseParent (logs : list Log) (id : string) : result Log :=
  match Journal_Get hashOp logs id with
  | Ok (i :: _ :: _, found) =>
      match logs !! i with
      | Some top => Ok (mkLog (take 1 (Ops top)) [found] (Signature top))
      | None => Err ErrOplogNotFound
      end
  | Ok _ => Err ErrOplogNotFound
  | Err e => Err e
  | Panic => Panic
  end.

Definition versionInfoOf (ds : dataset.Dataset) : VersionInfo :=
  {| viUsername := dataset.Peername ds;
     viProfileID := dataset.ProfileID ds;
     viName := dataset.Name ds;
     viPath := dataset.Path ds;
     Published := false;
     CommitTime := match dataset.Commit_ ds with Some c => dataset.Timestamp c | None => 0 end;
     BodySize := match dataset.Structure_ ds with Some s => dataset.Length s | None => 0 end;
     CommitTitle := match dataset.Commit_ ds with Some c => dataset.Title c | None => "" end;
     RunID := match dataset.Commit_ ds with Some c => dataset.RunID c | None => "" end;
     RunStatus := "";
     RunDuration := 0 |}.

#[global] Instance collaborators : Collaborators string string Files :=
  {| Hash := hashOp;
     IsValidName := validName;
     Verify := verify;
     Journal_MergeLog := mergeLog;
     FlatbufferCipher := cipher;
     fsPut := put;
     SparseAncestorsParent := sparseParent;
     ConvertDatasetToVersionInfo := versionInfoOf;
     growcap := fun n => (2 * n + 1)%nat |}.

(** A book that has not been initialized yet. *)
Definition blankBook (priv username : string) (canWrite : bool) : Book :=
  mkBook [] priv "" username "/mem/logbook.qfb" (mkFiles [] canWrite) [].

(** Alice's book after [initialize]. *)
Definition aliceBook : Book :=
  fst (initialize "QmAliceKey" 1 (blankBook "alice-private" "alice" true)).

(** A dataset version at [path] following [prev]. *)
Definition version (path prev title : string) (ts : Z) : dataset.Dataset :=
  dataset.mkDataset path prev (Some (dataset.mkCommit ts title ""))
    (Some (dataset.mkStructure 10)) "alice" "QmAliceKey" "movies".

(** Alice names a dataset, then saves three versions of it. *)
Definition movies : Book * (string * result unit) :=
  WriteDatasetInit aliceBook "movies" 2 3.
Definition moviesBook : Book := fst movies.
Definition moviesID : string := fst (snd movies).
Definition moviesRef : Ref := mkRef "" "alice" "" "movies" "".

Definition savedOnce : Book :=
  fst (WriteVersionSave moviesBook moviesID (version "/ipfs/Qa" "" "t1" 1000) None).
Definition savedTwice : Book :=
  fst (WriteVersionSave savedOnce moviesID (version "/ipfs/Qb" "/ipfs/Qa" "t2" 1001) None).
Definition savedThrice : Book :=
  fst (WriteVersionSave savedTwice moviesID (version "/ipfs/Qc" "/ipfs/Qb" "t3" 1002) None).

(** Bob's book with one dataset, and his user log signed for export. *)
Definition bobBook : Book :=
  fst (initialize "QmBobKey" 10 (blankBook "bob-private" "bob" true)).
Definition rare : Book * (string * result unit) := WriteDatasetInit bobBook "rare" 11 12.
Definition rareID : string := fst (snd rare).
Definition bob : Author string := mkAuthor "QmBobKey" "bob" "bob-public".

Definition signedBy (pub : string) (lg : Log) : Log :=
  mkLog (Ops lg) (Logs lg) (list_byte_of_string pub).

Definition bobLog : Log := signedBy "bob-public" (nth 0 (store (fst rare)) (mkLog [] [] [])).
Definition bobLogUnsigned : Log := nth 0 (store (fst rare)) (mkLog [] [] []).

(** Alice's book after she merged Bob's log. *)
Definition aliceWithBob : Book := fst (MergeLog savedTwice bob bobLog).

(** The same book with a key that cannot encrypt, and on a filesystem
    that cannot be written. *)
Definition withoutKey (book : @Book string Files) : @Book string Files :=
  mkBook (store book) "" (authorID book) (authorName book) (fsLocation book)
    (fs book) (effects book).

Definition readOnly (book : @Book string Files) : @Book string Files :=
  mkBook (store book) (pk book) (authorID book) (authorName book) (fsLocation book)
    (mkFiles (files (fs book)) false) (effects book).

(** A run and the version it produced. *)
Definition runState (id : string) : run.State := run.mkState id 1 "succeeded" 2500 (Some 999).

Definition versionOfRun (path prev title runID : string) (ts : Z) : dataset.Dataset :=
  dataset.mkDataset path prev (Some (dataset.mkCommit ts title runID))
    (Some (dataset.mkStructure 10)) "alice" "QmAliceKey" "movies".

(** The log a pointer leads to in a book. *)
Definition logAt (book : @Book string Files) (p : ptr) : Log :=
  default (mkLog [] [] []) (deref (store book) p).

(** A branch log of Alice's: its Init op followed by the given ops; and
    the commit op a plain save of [path] writes. *)
Definition branchOf (ops : list Op) : Log :=
  mkLog (branchInitOp aliceBook 3 :: ops) [] [].

Definition commitOp (path : string) : Op :=
  {| Type_ := OpTypeInit; Model := CommitModel; oplog.Ref := path; Prev := "";
     Relations := []; oplog.Name := ""; oplog.AuthorID := ""; Timestamp := 1000;
     Size := 10; Note := "t" |}.

Definition amendOp (path : string) : Op :=
  {| Type_ := OpTypeAmend; Model := CommitModel; oplog.Ref := path; Prev := "";
     Relations := []; oplog.Name := ""; oplog.AuthorID := ""; Timestamp := 1000;
     Size := 0; Note := "t" |}.

End Sample.

(** ** More of the package: what the writes leave behind, descriptors,
    entries, referenced paths and construction *)

(** An op of a model the commit-list derivation does not look at. *)
Definition ignoredOp (op : Op) : Prop :=
  Model op <> CommitModel /\ Model op <> RunModel /\ Model op <> PushModel.

(** [op.Model == CommitModel] *)
Definition isCommitOp (op : Op) : bool := (Model op =? CommitModel)%N.

Section Refers.
Context {PrivKey PubKey Filesystem : Type}.
Context {C : Collaborators PrivKey PubKey Filesystem}.

(** The reference names the dataset [initID]: its name path and its id
    lead to the same dataset log, whose one branch log is [blog], at
    [p]. *)
Definition refersTo (book : @Book PrivKey Filesystem) (ref : Ref) (initID : string)
    (p : ptr) (blog : Log) : Prop :=
  exists i j dsLog,
    Journal_HeadRef (store book) [dsref.Username ref; dsref.Name ref] = Ok ([i; j], dsLog)
    /\ Log_ID Hash dsLog = initID
    /\ Journal_Get Hash (store book) initID = Ok ([i; j], dsLog)
    /\ Logs dsLog = [blog]
    /\ p = [i; j; 0%nat].

(** [Ops = Ops[:len(Ops)-1]] *)
Definition dropLastOp (lg : Log) : Log :=
  mkLog (take (length (Ops lg) - 1) (Ops lg)) (Logs lg) (Signature lg).

End Refers.

(** The events among the effects, in the order they were published. *)
Definition events (effs : list Effect) : list (event.Type_ * event.DsChange) :=
  omap (fun eff => match eff with
                   | EffPublish t payload => Some (t, payload)
                   | EffPut _ _ _ => None
                   end) effs.

(** ** Descriptors and plain logs *)

(** [ModelString] *)
Definition ModelString (m : N) : string :=
  if (m =? AuthorModel)%N then "user"
  else if (m =? DatasetModel)%N then "dataset"
  else if (m =? BranchModel)%N then "branch"
  else if (m =? CommitModel)%N then "commit"
  else if (m =? PushModel)%N then "push"
  else if (m =? ACLModel)%N then "acl"
  else if (m =? RunModel)%N then "run"
  else "".

(** [opTypeString] *)
Definition opTypeString (op : OpType) : string :=
  match op with
  | OpTypeInit => "init"
  | OpTypeAmend => "amend"
  | OpTypeRemove => "remove"
  end.

(** [PlainOp]; [poTimestamp] holds the nanoseconds that
    [time.Unix(0, op.Timestamp)] is made of. *)
Record PlainOp : Type := mkPlainOp
  { poType : string;
    poModel : string;
    poRef : string;
    poPrev : string;
    poRelations : list string;
    poName : string;
    poAuthorID : string;
    poTimestamp : Z;
    poSize : Z;
    poNote : string }.

#[warnings="-register-all"]
Inductive PlainLog : Type :=
  mkPlainLog (ops : list PlainOp) (logs : list PlainLog).

Definition plOps (pl : PlainLog) : list PlainOp := let 'mkPlainLog ops _ := pl in ops.
Definition plLogs (pl : PlainLog) : list PlainLog := let 'mkPlainLog _ logs := pl in logs.

(** [newPlainOp] *)
Definition newPlainOp (op : Op) : PlainOp :=
  {| poType := opTypeString (Type_ op);
     poModel := ModelString (Model op);
     poRef := oplog.Ref op;
     poPrev := Prev op;
     poRelations := Relations op;
     poName := oplog.Name op;
     poAuthorID := oplog.AuthorID op;
     poTimestamp := Timestamp op;
     poSize := Size op;
     poNote := Note op |}.

(** [NewPlainLog], for a log that is not nil. *)
Fixpoint NewPlainLog (lg : Log) : PlainLog :=
  match lg with
  | mkLog ops logs _ => mkPlainLog (map newPlainOp ops) (map NewPlainLog logs)
  end.

(** ** Log entries *)






(** ** Referenced paths *)

(** A slice of strings: the elements below [len] and the ones between
    [len] and [cap]. *)
Record pathSlice : Type := mkPathSlice
  { pvisible : list string;
    pspare : list string }.

Definition emptyPaths : pathSlice := mkPathSlice [] [].

Definition plen (s : pathSlice) : Z := Z.of_nat (length (pvisible s)).
Definition pcap (s : pathSlice) : Z := Z.of_nat (length (pvisible s) + length (pspare s)).

Section Paths.

(** The capacity the runtime picks when [append] has to reallocate a full
    slice of strings. *)
Variable growcapPaths : nat -> nat.

(** [append(ps, x)] *)
Definition pappend (s : pathSlice) (x : string) : pathSlice :=
  match pspare s with
  | _ :: sp => mkPathSlice (pvisible s ++ [x]) sp
  | [] =>
      mkPathSlice (pvisible s ++ [x])
        (replicate (growcapPaths (length (pvisible s)) - S (length (pvisible s)))%nat "")
  end.

(** [ps[:n]]; panics unless [0 <= n <= cap(ps)] *)
Definition pathsTo (s : pathSlice) (n : Z) : result pathSlice :=
  if (0 <=? n) && (n <=? pcap s) then
    let all := pvisible s ++ pspare s in
    Ok (mkPathSlice (take (Z.to_nat n) all) (drop (Z.to_nat n) all))
  else Panic.

(** [ps[i] = x]; panics unless [0 <= i < len(ps)] *)
Definition pathsSet (s : pathSlice) (i : Z) (x : string) : result pathSlice :=
  if (0 <=? i) && (i <? plen s) then
    Ok (mkPathSlice (<[Z.to_nat i := x]> (pvisible s)) (pspare s))
  else Panic.

(** One round of the first loop of [addReferencedPaths]. *)
Definition addReferencedPaths_step (ps : pathSlice) (op : Op) : result pathSlice :=
  if (Model op =? CommitModel)%N then
    match Type_ op with
    | OpTypeInit => Ok (pappend ps (oplog.Ref op))
    | OpTypeRemove => pathsTo ps (wrap64 (plen ps - Size op))
    | OpTypeAmend => pathsSet ps (plen ps - 1) (oplog.Ref op)
    end
  else Ok ps.

Fixpoint addReferencedPaths_loop (ps : pathSlice) (ops : list Op) : result pathSlice :=
  match ops with
  | [] => Ok ps
  | op :: rest =>
      match addReferencedPaths_step ps op with
      | Ok ps' => addReferencedPaths_loop ps' rest
      | Err e => Err e
      | Panic => Panic
      end
  end.

(** [for _, p := range ps { paths[p] = struct{}{} }] *)
Definition addPaths (ps : list string) (paths : gset string) : gset string :=
  foldl (fun paths p => {[p]} ∪ paths) paths ps.

(** [addReferencedPaths]: the map after the call. *)
Fixpoint addReferencedPaths (log : Log) (paths : gset string) : result (gset string) :=
  match log with
  | mkLog ops logs _ =>
      match addReferencedPaths_loop emptyPaths ops with
      | Ok ps =>
          (fix children (logs : list Log) (paths : gset string) : result (gset string) :=
             match logs with
             | [] => Ok paths
             | l :: rest =>
                 match addReferencedPaths l paths with
                 | Ok paths' => children rest paths'
                 | Err e => Err e
                 | Panic => Panic
                 end
             end) logs (addPaths (pvisible ps) paths)
      | Err e => Err e
      | Panic => Panic
      end
  end.

(** The loop of [AllReferencedDatasetPaths] over the logs listed. *)
Fixpoint addAllReferencedPaths (logs : list Log) (paths : gset string)
  : result (gset string) :=
  match logs with
  | [] => Ok paths
  | l :: rest =>
      match addReferencedPaths l paths with
      | Ok paths' => addAllReferencedPaths rest paths'
      | Err e => Err e
      | Panic => Panic
      end
  end.

End Paths.

Section LogbookReads.

Context {PrivKey PubKey Filesystem : Type}.
Context {C : Collaborators PrivKey PubKey Filesystem}.

(** [oplog.Journal.Logs(ctx, offset, limit)], which this package calls
    with offset 0 and limit -1 when it lists the logs. *)
Variable Journal_Logs : list Log -> Z -> Z -> result (list Log).

(** [growslice] for a slice of strings. *)
Variable growcapPaths : nat -> nat.

(** [ListAllLogs] *)
Definition ListAllLogs (book : @Book PrivKey Filesystem) : result (list Log) :=
  Journal_Logs (store book) 0 (-1).

(** [AllReferencedDatasetPaths] *)
Definition AllReferencedDatasetPaths (book : @Book PrivKey Filesystem)
  : result (gset string) :=
  match ListAllLogs book with
  | Ok logs => addAllReferencedPaths growcapPaths logs ∅
  | Err e => Err e
  | Panic => Panic
  end.



(** [ActivePeerID]; an error of the lookup is turned into a panic. *)
Definition ActivePeerID (book : @Book PrivKey Filesystem) : result string :=
  match Journal_Get Hash (store book) (authorID book) with
  | Ok (_, lg) => Ok (Log_Author lg)
  | Err _ | Panic => Panic
  end.

(** [DsrefAliasForLog], for a log that is not nil. [FirstOpAuthorID] is
    the author id of [ops[0]]. *)
Definition DsrefAliasForLog (log : Log) : Ref * result unit :=
  if negb (Log_Model log =? AuthorModel)%N
  then (mkRef "" "" "" "" "", Err (ErrExternal "logbook: log isn't rooted as an author"))
  else
    match Logs log with
    | [child] =>
        ({| InitID := ""; dsref.Username := Log_Name log; ProfileID := Log_Author log;
            dsref.Name := Log_Name child; Path := "" |}, Ok tt)
    | _ => (mkRef "" "" "" "" "", Err (ErrExternal "logbook: ambiguous dataset reference"))
    end.

(** The loop of [ConstructDatasetLog] over the history; the index that
    [appendVersionSave] returns is dropped. *)
Fixpoint appendHistory (book : @Book PrivKey Filesystem) (p : ptr) (blog : Log)
    (history : list dataset.Dataset) : @Book PrivKey Filesystem * result Log :=
  match history with
  | [] => (book, Ok blog)
  | ds :: rest =>
      match appendVersionSave book p blog ds with
      | (book, Ok (blog, _)) => appendHistory book p blog rest
      | (book, Err e) => (book, Err e)
      | (book, Panic) => (book, Panic)
      end
  end.

(** [ConstructDatasetLog]; [now1] and [now2] are the readings of
    [NewTimestamp] in [WriteDatasetInit]. *)
Definition ConstructDatasetLog (book : @Book PrivKey Filesystem) (ref : Ref)
    (history : list dataset.Dataset) (now1 now2 : Z)
  : @Book PrivKey Filesystem * result unit :=
  match RefToInitID book ref with
  | Ok _ => (book, Err ErrLogTooShort)
  | Panic => (book, Panic)
  | Err _ =>
      match WriteDatasetInit book (dsref.Name ref) now1 now2 with
      | (book, (initID, Ok _)) =>
          attempt book (branchLog book initID) (fun '(p, blog) =>
            let '(book, r) := appendHistory book p blog history in
            attempt book r (fun _ => save book))
      | (book, (_, Err e)) => (book, Err e)
      | (book, (_, Panic)) => (book, Panic)
      end
  end.

End LogbookReads.

(** An op that neither the commit list nor the referenced paths look at,
    or a commit op; a Remove op has a size that is not negative. *)
Definition commitsOnly (op : Op) : Prop :=
  ignoredOp op
  \/ (Model op = CommitModel /\ (Type_ op = OpTypeRemove -> 0 <= Size op < 2 ^ 63)).

(** The two slices in step: the paths are the paths of the versions, and
    no version names a run. *)
Definition inStep (refs : slice) (ps : pathSlice) : Prop :=
  pvisible ps = map viPath (visible refs)
  /\ Forall (fun v => RunID v = "") (visible refs).

(** A log with the signature taken off it and off every log below. *)
Fixpoint withoutSignatures (lg : Log) : Log :=
  match lg with
  | mkLog ops logs _ => mkLog ops (map withoutSignatures logs) []
  end.

(** Every op of the log and of the logs below has a model the package
    knows. *)
Fixpoint knownModels (lg : Log) : Prop :=
  match lg with
  | mkLog ops logs _ =>
      Forall (fun op => (Model op <= ACLModel)%N) ops
      /\ (fix all (logs : list Log) : Prop :=
            match logs with
            | [] => True
            | l :: rest => knownModels l /\ all rest
            end) logs
  end.

Section Construction.

Context {PrivKey PubKey Filesystem : Type}.
Context {C : Collaborators PrivKey PubKey Filesystem}.

(** [NewJournalOverwriteWithProfileID]; the key, the filesystem and the
    bus may be nil; [now] is the reading of [NewTimestamp] in
    [initialize]. The result is the pair [(book, err)]. *)
Definition NewJournalOverwriteWithProfileID (pk : option PrivKey) (username : string)
    (bus : option unit) (fs : option Filesystem) (location profileID : string) (now : Z)
  : option (@Book PrivKey Filesystem) * result unit :=
  match pk with
  | None => (None, Err (ErrExternal "logbook: private key is required"))
  | Some pk =>
      match fs with
      | None => (None, Err (ErrExternal "logbook: filesystem is required"))
      | Some fs =>
          if String.eqb location ""
          then (None, Err (ErrExternal "logbook: location is required"))
          else if String.eqb profileID ""
          then (None, Err (ErrExternal "logbook: profileID is required"))
          else
            match bus with
            | None => (None, Err (ErrExternal "logbook: event.Bus is required"))
            | Some _ =>
                let book := mkBook [] pk "" username location fs [] in
                let '(book, err) := initialize profileID now book in
                (Some book, err)
            end
      end
  end.

End Construction.

(** * Facts *)

(** * Facts about lists and slices *)

Lemma length_swapAt i j l : length (swapAt i j l) = length l.
Proof.
  unfold swapAt. destruct (l !! i), (l !! j); rewrite ?length_insert; reflexivity.
Qed.

Lemma lookup_swapAt i j l k :
  (i < length l)%nat -> (j < length l)%nat ->
  swapAt i j l !! k =
  if decide (k = i) then l !! j else if decide (k = j) then l !! i else l !! k.
Proof.
  intros Hi Hj. unfold swapAt.
  destruct (lookup_lt_is_Some_2 l i Hi) as [x Hx].
  destruct (lookup_lt_is_Some_2 l j Hj) as [y Hy].
  rewrite Hx, Hy.
  destruct (decide (k = i)) as [->|Hki].
  - rewrite list_lookup_insert_eq by (rewrite length_insert; lia). reflexivity.
  - rewrite list_lookup_insert_ne by congruence.
    destruct (decide (k = j)) as [->|Hkj].
    + rewrite list_lookup_insert_eq by lia. reflexivity.
    + rewrite list_lookup_insert_ne by congruence. reflexivity.
Qed.

Lemma lookup_reverseLoop n : forall l k,
  (2 * n <= length l)%nat ->
  reverseLoop n l !! k =
  if decide (k < n \/ length l - n <= k < length l)%nat
  then l !! (length l - 1 - k)%nat else l !! k.
Proof.
  induction n as [|n IH]; intros l k Hn; cbn [reverseLoop].
  - destruct (decide _) as [[H|H]|H]; [lia| |reflexivity]. lia.
  - rewrite IH by (rewrite length_swapAt; lia). rewrite length_swapAt.
    rewrite !lookup_swapAt by lia.
    repeat destruct (decide _); try reflexivity; try lia;
      try (f_equal; lia).
    all: try (rewrite lookup_ge_None_2 by lia; symmetry; apply lookup_ge_None_2; lia).
Qed.

Lemma reverseInPlace_reverse l : reverseInPlace l = reverse l.
Proof.
  unfold reverseInPlace. apply list_eq; intros k.
  pose proof (Nat.div_mod_eq (length l) 2) as Hdm.
  pose proof (Nat.mod_upper_bound (length l) 2) as Hm.
  rewrite lookup_reverseLoop by lia.
  destruct (decide (k < length l)%nat) as [Hk|Hk].
  - rewrite reverse_lookup by lia.
    destruct (decide _); [f_equal; lia|]. f_equal. lia.
  - rewrite (lookup_ge_None_2 (reverse l)) by (rewrite length_reverse; lia).
    destruct (decide _) as [[H|H]|H]; apply lookup_ge_None_2; lia.
Qed.

Lemma sliceAlter_ok f s i :
  0 <= i < slen s ->
  sliceAlter f s i = Ok (mkSlice (alter f (Z.to_nat i) (visible s)) (spare s)).
Proof.
  intros [H1 H2]. unfold sliceAlter.
  destruct (Z.leb_spec 0 i); [|lia].
  destruct (Z.ltb_spec i (slen s)); [|lia].
  reflexivity.
Qed.

Lemma sliceAlter_panic f s i :
  ~ (0 <= i < slen s) -> sliceAlter f s i = Panic.
Proof.
  intros H. unfold sliceAlter.
  destruct (Z.leb_spec 0 i), (Z.ltb_spec i (slen s)); simpl; try reflexivity; lia.
Qed.

(** The loop of a push op, entered at [i] and with fuel for the rounds
    left, sets the flag on the entries [len - size .. len - i]. *)
Lemma markPublished_range b size fuel : forall i s,
  1 <= i <= size + 1 -> size <= slen s ->
  (Z.to_nat (size + 1 - i) <= fuel)%nat ->
  markPublished b size fuel i s =
  Ok (mkSlice
        (imap (fun j x =>
                 if (slen s - size <=? Z.of_nat j) && (Z.of_nat j <=? slen s - i)
                 then setPublished b x else x) (visible s))
        (spare s)).
Proof.
  induction fuel as [|fuel IH]; intros i s Hi Hsz Hfuel.
  - assert (i = size + 1) by lia. subst i. simpl.
    destruct (Z.leb_spec (size + 1) size); [lia|].
    f_equal. destruct s as [vis sp]; simpl. f_equal.
    apply list_eq; intros j. rewrite list_lookup_imap.
    destruct (vis !! j); simpl; [|reflexivity].
    destruct (Z.leb_spec (slen (mkSlice vis sp) - size) (Z.of_nat j)),
      (Z.leb_spec (Z.of_nat j) (slen (mkSlice vis sp) - (size + 1))); simpl; try reflexivity; lia.
  - simpl. destruct (Z.leb_spec i size) as [Hle|Hgt].
    + rewrite sliceAlter_ok by lia.
      rewrite IH; [| lia | unfold slen in *; simpl; rewrite length_alter; lia | lia].
      f_equal. destruct s as [vis sp]; unfold slen; simpl. f_equal.
      rewrite length_alter.
      apply list_eq; intros j. rewrite !list_lookup_imap.
      unfold slen in Hsz; simpl in Hsz.
      destruct (decide (j = Z.to_nat (Z.of_nat (length vis) - i))) as [->|Hne].
      * rewrite list_lookup_alter_eq.
        destruct (vis !! Z.to_nat (Z.of_nat (length vis) - i)) eqn:E; simpl; [|reflexivity].
        rewrite Z2Nat.id by lia.
        destruct (Z.leb_spec (Z.of_nat (length vis) - size) (Z.of_nat (length vis) - i)); [|lia].
        destruct (Z.leb_spec (Z.of_nat (length vis) - i) (Z.of_nat (length vis) - (i + 1))); [lia|].
        destruct (Z.leb_spec (Z.of_nat (length vis) - i) (Z.of_nat (length vis) - i)); [|lia].
        simpl. reflexivity.
      * rewrite list_lookup_alter_ne by congruence.
        destruct (vis !! j) eqn:E; simpl; [|reflexivity].
        destruct (Z.leb_spec (Z.of_nat (length vis) - size) (Z.of_nat j)); simpl; [|reflexivity].
        destruct (Z.leb_spec (Z.of_nat j) (Z.of_nat (length vis) - (i + 1))),
          (Z.leb_spec (Z.of_nat j) (Z.of_nat (length vis) - i)); try reflexivity; lia.
    + assert (i = size + 1) by lia. subst i.
      f_equal. destruct s as [vis sp]; simpl. f_equal.
      apply list_eq; intros j. rewrite list_lookup_imap.
      destruct (vis !! j); simpl; [|reflexivity].
      destruct (Z.leb_spec (slen (mkSlice vis sp) - size) (Z.of_nat j)),
        (Z.leb_spec (Z.of_nat j) (slen (mkSlice vis sp) - (size + 1))); simpl; try reflexivity; lia.
Qed.

Lemma markPublished_last b size s :
  0 <= size <= slen s ->
  markPublished b size (S (length (visible s))) 1 s =
  Ok (mkSlice (markLast b size (visible s)) (spare s)).
Proof.
  intros H. rewrite markPublished_range; [| lia | lia | unfold slen in H; lia].
  f_equal. f_equal. unfold markLast. apply list_eq; intros j.
  rewrite !list_lookup_imap. destruct (visible s !! j) eqn:E; simpl; [|reflexivity].
  apply lookup_lt_Some in E. unfold slen.
  destruct (Z.leb_spec (Z.of_nat (length (visible s)) - size) (Z.of_nat j)); simpl; [|reflexivity].
  destruct (Z.leb_spec (Z.of_nat j) (Z.of_nat (length (visible s)) - 1)); [reflexivity|lia].
Qed.

Lemma markPublished_nonpositive b size s :
  size <= 0 -> markPublished b size (S (length (visible s))) 1 s = Ok s.
Proof.
  intros H. simpl. destruct (Z.leb_spec 1 size); [lia|reflexivity].
Qed.

Lemma markPublished_beyond b size fuel : forall i s,
  1 <= i <= slen s + 1 -> slen s < size -> (Z.to_nat (slen s + 2 - i) <= fuel)%nat ->
  markPublished b size fuel i s = Panic.
Proof.
  induction fuel as [|fuel IH]; intros i s Hi Hsz Hfuel.
  - lia.
  - simpl. destruct (Z.leb_spec i size) as [Hle|Hgt]; [|lia].
    destruct (Z.le_gt_cases i (slen s)).
    + rewrite sliceAlter_ok by lia.
      apply IH; unfold slen in *; simpl; rewrite ?length_alter; lia.
    + rewrite sliceAlter_panic by lia. reflexivity.
Qed.

Lemma markLast_app b vis tl :
  markLast b (Z.of_nat (length tl)) (vis ++ tl) = vis ++ map (setPublished b) tl.
Proof.
  unfold markLast. apply list_eq; intros j.
  rewrite list_lookup_imap, length_app.
  destruct (decide (j < length vis)%nat) as [Hlt|Hge].
  - rewrite !lookup_app_l by lia.
    destruct (vis !! j); simpl; [|reflexivity].
    destruct (Z.leb_spec (Z.of_nat (length vis + length tl) - Z.of_nat (length tl)) (Z.of_nat j));
      [lia|reflexivity].
  - rewrite !lookup_app_r by lia. rewrite list_lookup_fmap.
    destruct (tl !! (j - length vis)%nat); simpl; [|reflexivity].
    destruct (Z.leb_spec (Z.of_nat (length vis + length tl) - Z.of_nat (length tl)) (Z.of_nat j));
      [reflexivity|lia].
Qed.

Section DerivationFacts.

Variable growcap : nat -> nat.
Variable ref : Ref.

Lemma visible_sappend s x : visible (sappend growcap s x) = visible s ++ [x].
Proof. unfold sappend. destruct (spare s); reflexivity. Qed.

Lemma loop_app collapse (ops1 : list Op) : forall st (ops2 : list Op),
  branchToVersionInfos_loop growcap ref collapse st (ops1 ++ ops2) =
  match branchToVersionInfos_loop growcap ref collapse st ops1 with
  | Ok st' => branchToVersionInfos_loop growcap ref collapse st' ops2
  | Err e => Err e
  | Panic => Panic
  end.
Proof.
  induction ops1 as [|op ops1 IH]; intros st ops2; simpl; [reflexivity|].
  destruct (branchToVersionInfos_step growcap ref collapse st op); auto.
Qed.

(** A push op marks, an unpublish op unmarks, the last [Size] entries. *)
Lemma step_push collapse refs d op (b : bool) :
  Model op = PushModel ->
  Type_ op = (if b then OpTypeInit else OpTypeRemove) ->
  branchToVersionInfos_step growcap ref collapse (refs, d) op =
  if Size op <=? 0 then Ok (refs, d)
  else if Size op <=? slen refs
       then Ok (mkSlice (markLast b (Size op) (visible refs)) (spare refs), d)
       else Panic.
Proof.
  intros HM HT. unfold branchToVersionInfos_step. rewrite HM.
  change (PushModel =? CommitModel)%N with false.
  change (PushModel =? RunModel)%N with false.
  change (PushModel =? PushModel)%N with true. cbv iota.
  destruct (Z.leb_spec (Size op) 0) as [Hle|Hpos].
  - destruct b; rewrite HT; rewrite markPublished_nonpositive by lia; reflexivity.
  - destruct (Z.leb_spec (Size op) (slen refs)) as [Hin|Hout].
    + destruct b; rewrite HT; rewrite markPublished_last by lia; reflexivity.
    + destruct b; rewrite HT;
        rewrite markPublished_beyond by (unfold slen in *; lia); reflexivity.
Qed.

(** A commit that names no run adds one entry. *)
Lemma step_plain_save collapse refs d op :
  Model op = CommitModel -> Type_ op = OpTypeInit -> commitOpRunID op = "" ->
  branchToVersionInfos_step growcap ref collapse (refs, d) op =
  Ok (sappend growcap refs (versionInfoFromOp ref op), d).
Proof.
  intros HM HT HR. unfold branchToVersionInfos_step. rewrite HM, HT, HR. reflexivity.
Qed.

(** With all deletes collapsed nothing is left pending for the end. *)
Lemma step_collapse_pending refs op refs' d' :
  branchToVersionInfos_step growcap ref true (refs, 0) op = Ok (refs', d') -> d' = 0.
Proof.
  unfold branchToVersionInfos_step.
  repeat match goal with
         | |- context [if ?c then _ else _] => destruct c
         | |- context [match ?x with _ => _ end] => destruct x
         end; intros H; inversion H; reflexivity.
Qed.

Lemma loop_collapse_pending (ops : list Op) : forall refs refs' d',
  branchToVersionInfos_loop growcap ref true (refs, 0) ops = Ok (refs', d') -> d' = 0.
Proof.
  induction ops as [|op ops IH]; intros refs refs' d'; cbn [branchToVersionInfos_loop].
  - intros H; inversion H; reflexivity.
  - destruct (branchToVersionInfos_step growcap ref true (refs, 0) op) as [[r d]| |] eqn:E;
      try discriminate.
    apply step_collapse_pending in E. subst d. apply IH.
Qed.

Lemma finish_all refs :
  branchToVersionInfos_finish (refs, 0) 0 (-1) = Ok (reverse (visible refs)).
Proof.
  unfold branchToVersionInfos_finish. simpl. rewrite reverseInPlace_reverse.
  unfold sliceFrom, slen; simpl.
  destruct (Z.ltb_spec (Z.of_nat (length (reverse (visible refs)))) 0); [lia|].
  simpl. destruct (Z.leb_spec 0 (Z.of_nat (length (reverse (visible refs))))); [|lia].
  simpl. rewrite andb_false_r. reflexivity.
Qed.

End DerivationFacts.

Ltac break_match :=
  match goal with
  | |- context [match ?x with _ => _ end] => destruct x eqn:?
  end.

Ltac break_hyp :=
  match goal with
  | H : context [match ?x with _ => _ end] |- _ => destruct x eqn:?
  end.

(** The derivation never returns an error value: it answers or panics. *)
Section NoErrors.

Variable growcap : nat -> nat.
Variable ref : Ref.

Lemma sliceAlter_no_err f s i e : sliceAlter f s i <> Err e.
Proof. unfold sliceAlter. destruct (_ && _); discriminate. Qed.

Lemma sliceTo_no_err s n e : sliceTo s n <> Err e.
Proof. unfold sliceTo. destruct (_ && _); discriminate. Qed.

Lemma sliceFrom_no_err s n e : sliceFrom s n <> Err e.
Proof. unfold sliceFrom. destruct (_ && _); discriminate. Qed.

Lemma markPublished_no_err (b : bool) size fuel : forall i s e,
  markPublished b size fuel i s <> Err e.
Proof.
  induction fuel as [|fuel IH]; intros i s e; simpl.
  - destruct (i <=? size); discriminate.
  - destruct (i <=? size); [|discriminate].
    destruct (sliceAlter (setPublished b) s (slen s - i)) eqn:E; try discriminate.
    + apply IH.
    + exfalso. exact (sliceAlter_no_err _ _ _ _ E).
Qed.

Ltac no_err :=
  match goal with
  | H : sliceAlter _ _ _ = Err _ |- _ => exact (sliceAlter_no_err _ _ _ _ H)
  | H : sliceTo _ _ = Err _ |- _ => exact (sliceTo_no_err _ _ _ H)
  | H : sliceFrom _ _ = Err _ |- _ => exact (sliceFrom_no_err _ _ _ H)
  | H : markPublished _ _ _ _ _ = Err _ |- _ => exact (markPublished_no_err _ _ _ _ _ _ H)
  end.

Lemma step_no_err (collapse : bool) st op e :
  branchToVersionInfos_step growcap ref collapse st op <> Err e.
Proof.
  destruct st as [refs d]. unfold branchToVersionInfos_step.
  repeat break_match; try discriminate; exfalso; no_err.
Qed.

Lemma loop_no_err (collapse : bool) (ops : list Op) : forall st e,
  branchToVersionInfos_loop growcap ref collapse st ops <> Err e.
Proof.
  induction ops as [|op ops IH]; intros st e; cbn [branchToVersionInfos_loop];
    [discriminate|].
  destruct (branchToVersionInfos_step growcap ref collapse st op) eqn:E; try discriminate.
  - apply IH.
  - exfalso. exact (step_no_err _ _ _ _ E).
Qed.

Lemma finish_no_err st offset limit e :
  branchToVersionInfos_finish st offset limit <> Err e.
Proof.
  destruct st as [refs d]. unfold branchToVersionInfos_finish.
  repeat break_match; try discriminate; exfalso;
    repeat break_hyp; try discriminate; no_err.
Qed.

Lemma branchToVersionInfos_no_err blog offset limit (collapse : bool) e :
  branchToVersionInfos growcap blog ref offset limit collapse <> Err e.
Proof.
  unfold branchToVersionInfos.
  destruct (branchToVersionInfos_loop _ _ _ _ _) eqn:E; try discriminate.
  - apply finish_no_err.
  - exfalso. exact (loop_no_err _ _ _ _ E).
Qed.

End NoErrors.

(** * Facts about the journal *)

(** Induction on logs that reaches into the children. *)
Lemma Log_forall_ind (P : Log -> Prop) :
  (forall ops logs sig, Forall P logs -> P (mkLog ops logs sig)) ->
  forall lg, P lg.
Proof.
  intros H. fix IH 1. intros [ops logs sig]. apply H.
  induction logs as [|l logs IHl]; constructor; [apply IH | exact IHl].
Qed.

Lemma first_some_from_Some {A B} (f : nat -> A -> option B) (l : list A) : forall i b,
  first_some_from f i l = Some b ->
  exists k x, l !! k = Some x /\ f (i + k)%nat x = Some b
              /\ forall k' y, (k' < k)%nat -> l !! k' = Some y -> f (i + k')%nat y = None.
Proof.
  induction l as [|a l IH]; intros i b; simpl; [discriminate|].
  destruct (f i a) eqn:E.
  - intros [= ->]. exists 0%nat, a. rewrite Nat.add_0_r. split; [reflexivity|].
    split; [exact E|]. intros; lia.
  - intros H. apply IH in H as (k & x & Hk & Hf & Hbefore).
    exists (S k), x. split; [exact Hk|]. split.
    + rewrite <- Nat.add_succ_comm. exact Hf.
    + intros [|k'] y Hlt Hy.
      * simpl in Hy. injection Hy as <-. rewrite Nat.add_0_r. exact E.
      * simpl in Hy. rewrite <- Nat.add_succ_comm. apply Hbefore; [lia|exact Hy].
Qed.

Lemma first_some_from_hit {A B} (f : nat -> A -> option B) (l : list A) : forall i k x b,
  l !! k = Some x -> f (i + k)%nat x = Some b ->
  (forall k' y, (k' < k)%nat -> l !! k' = Some y -> f (i + k')%nat y = None) ->
  first_some_from f i l = Some b.
Proof.
  induction l as [|a l IH]; intros i k x b Hk Hf Hbefore; [discriminate|].
  destruct k as [|k]; simpl in *.
  - injection Hk as ->. rewrite Nat.add_0_r in Hf. rewrite Hf. reflexivity.
  - assert (E : f i a = None).
    { specialize (Hbefore 0%nat a). rewrite Nat.add_0_r in Hbefore.
      apply Hbefore; [lia|reflexivity]. }
    rewrite E. apply (IH (S i) k x b Hk).
    + rewrite Nat.add_succ_comm. exact Hf.
    + intros k' y Hlt Hy. rewrite Nat.add_succ_comm.
      apply (Hbefore (S k') y); [lia|exact Hy].
Qed.

Lemma deref_top logs i : deref logs [i] = logs !! i.
Proof. simpl. destruct (logs !! i); reflexivity. Qed.

Lemma deref_below logs i j p :
  deref logs (i :: j :: p) =
  match logs !! i with Some lg => deref (Logs lg) (j :: p) | None => None end.
Proof. reflexivity. Qed.

Lemma deref_via logs i lg p found :
  logs !! i = Some lg ->
  (p = [] /\ found = lg \/ p <> [] /\ deref (Logs lg) p = Some found) ->
  deref logs (i :: p) = Some found.
Proof.
  intros Hi [[-> ->]|[Hp Hd]].
  - rewrite deref_top. exact Hi.
  - destruct p as [|j p]; [congruence|]. rewrite deref_below, Hi. exact Hd.
Qed.

Lemma deref_snoc : forall p logs lg i,
  deref logs p = Some lg -> deref logs (p ++ [i]) = Logs lg !! i.
Proof.
  induction p as [|k p IH]; intros logs lg i H; [discriminate|].
  destruct p as [|j p].
  - rewrite deref_top in H. simpl app. rewrite deref_below, H. apply deref_top.
  - rewrite deref_below in H. change ((k :: j :: p) ++ [i]) with (k :: j :: (p ++ [i])).
    rewrite deref_below. destruct (logs !! k); [|discriminate].
    apply (IH _ _ _ H).
Qed.

Lemma deref_update f : forall p logs lg,
  deref logs p = Some lg -> deref (update f logs p) p = Some (f lg).
Proof.
  induction p as [|k p IH]; intros logs lg H; [discriminate|].
  destruct p as [|j p].
  - rewrite deref_top in *. simpl. rewrite list_lookup_alter_eq, H. reflexivity.
  - rewrite deref_below in *. cbn [update]. rewrite list_lookup_alter_eq.
    destruct (logs !! k) as [l|]; [|discriminate]. simpl fmap. cbv iota.
    unfold setLogs at 1. cbn [Logs]. apply IH. exact H.
Qed.

Section IdentifiedFacts.

Variable Hash : Op -> string.

Lemma Log_find_unfold id lg :
  Log_find Hash id lg =
  if String.eqb (Log_ID Hash lg) id then Some ([], lg)
  else first_some_from
         (fun i child =>
            match Log_find Hash id child with
            | Some (p, found) => Some (i :: p, found)
            | None => None
            end) 0%nat (Logs lg).
Proof. destruct lg; reflexivity. Qed.

(** What [Log_find] returns is where it says, and has the id asked for. *)
Lemma Log_find_sound id : forall lg p found,
  Log_find Hash id lg = Some (p, found) ->
  Log_ID Hash found = id
  /\ (p = [] /\ found = lg \/ p <> [] /\ deref (Logs lg) p = Some found).
Proof.
  induction lg as [ops logs sig IH] using Log_forall_ind. intros p found.
  rewrite Log_find_unfold. destruct (String.eqb_spec (Log_ID Hash (mkLog ops logs sig)) id).
  - intros [= <- <-]. split; [assumption|]. left; split; reflexivity.
  - intros H. apply first_some_from_Some in H as (k & x & Hk & Hf & _).
    cbn [Logs] in *. simpl in Hf.
    destruct (Log_find Hash id x) as [[p' found']|] eqn:E; [|discriminate].
    injection Hf as <- <-.
    rewrite Forall_lookup in IH. destruct (IH _ _ Hk _ _ E) as [Hid Hwhere].
    split; [exact Hid|]. right. split; [discriminate|].
    apply (deref_via _ _ _ _ _ Hk Hwhere).
Qed.

Lemma Journal_Get_sound logs id p found :
  Journal_Get Hash logs id = Ok (p, found) ->
  deref logs p = Some found /\ Log_ID Hash found = id.
Proof.
  unfold Journal_Get.
  destruct (first_some_from _ 0%nat logs) as [[p' found']|] eqn:E; [|discriminate].
  intros [= <- <-]. apply first_some_from_Some in E as (k & x & Hk & Hf & _).
  simpl in Hf. destruct (Log_find Hash id x) as [[q found'']|] eqn:E; [|discriminate].
  injection Hf as <- <-. apply Log_find_sound in E as [Hid Hwhere].
  split; [|exact Hid]. apply (deref_via _ _ _ _ _ Hk Hwhere).
Qed.

End IdentifiedFacts.

(** * Facts about the book *)

Section LogbookFacts.

Context {PrivKey PubKey Filesystem : Type}.
Context {C : Collaborators PrivKey PubKey Filesystem}.

Local Abbreviation Book := (@Book PrivKey Filesystem).

Lemma save_fails (book : Book) e : cipherFails book e -> save book = (book, Err e).
Proof.
  intros H. unfold save. specialize (H (store book)).
  destruct (FlatbufferCipher (store book) (pk book)) as [ct err]. simpl in H. subst err.
  reflexivity.
Qed.

(** [save] leaves the journal, the key and the author alone, and reports
    an error only when it changed nothing at all. *)
Lemma save_cases (book : Book) :
  (exists e, save book = (book, Err e))
  \/ (exists location fs' data puterr,
        save book =
        (mkBook (store book) (pk book) (authorID book) (authorName book) location fs'
           (effects book ++ [EffPut (fsLocation book) data puterr]), Ok tt)).
Proof.
  unfold save. destruct (FlatbufferCipher (store book) (pk book)) as [ct [e|]].
  - left. eauto.
  - right. destruct (fsPut (fs book) (fsLocation book) ct) as [[fs' loc] puterr]. eauto 6.
Qed.

Lemma save_store (book : Book) : store (fst (save book)) = store book.
Proof.
  destruct (save_cases book) as [[e ->]|(l & f & d & pe & ->)]; reflexivity.
Qed.

Lemma branchLog_sound (book : Book) initID p branch :
  branchLog book initID = Ok (p, branch) -> deref (store book) p = Some branch.
Proof.
  unfold branchLog.
  destruct (Journal_Get Hash (store book) initID) as [[q lg]| |] eqn:E; try discriminate.
  apply Journal_Get_sound in E as [Hd _].
  destruct (Logs lg) as [|b [|b' rest]] eqn:EL; try discriminate.
  intros [= <- <-]. rewrite (deref_snoc _ _ _ _ Hd), EL. reflexivity.
Qed.

Lemma targetLog_sound (book : Book) initID w p lg :
  targetLog book initID w = Ok (p, lg) -> deref (store book) p = Some lg.
Proof.
  destruct w; cbn [targetLog]; intros H;
    first [ exact (branchLog_sound _ _ _ _ H)
          | apply Journal_Get_sound in H as [H _]; exact H ].
Qed.

Lemma hasWriteAccess_first (book : Book) lg op rest :
  Ops lg = op :: rest ->
  hasWriteAccess book lg =
  if String.eqb (oplog.AuthorID op) (authorID book) then Ok tt else Err ErrAccessDenied.
Proof.
  intros H. unfold hasWriteAccess. rewrite H.
  destruct (String.eqb (oplog.AuthorID op) (authorID book)); reflexivity.
Qed.

(** An operation whose target is not the book's to write returns without
    having touched the book. *)
Lemma runWrite_denied (book : Book) initID w p lg :
  targetLog book initID w = Ok (p, lg) ->
  hasWriteAccess book lg = Err ErrAccessDenied ->
  runWrite book initID w =
  (book, Err (match argumentError w with Some e => e | None => ErrAccessDenied end)).
Proof.
  intros Ht Ha. destruct w; cbn [targetLog] in Ht; cbn [runWrite argumentError].
  - unfold WriteDatasetRename. destruct (IsValidName newName); cbn [negb]; [|reflexivity].
    unfold datasetLog in Ht |- *. rewrite Ht. cbn [attempt]. rewrite Ha. reflexivity.
  - unfold WriteDatasetDelete. unfold datasetLog in Ht |- *. rewrite Ht. cbn [attempt].
    rewrite Ha. reflexivity.
  - unfold WriteVersionSave. rewrite Ht. cbn [attempt]. rewrite Ha. reflexivity.
  - unfold WriteTransformRun. rewrite Ht. cbn [attempt]. rewrite Ha. reflexivity.
  - unfold WriteVersionAmend. rewrite Ht. cbn [attempt]. rewrite Ha. reflexivity.
  - unfold WriteVersionDelete. rewrite Ht. cbn [attempt]. rewrite Ha. reflexivity.
  - unfold WriteRemotePush, writeRemote. rewrite Ht, Ha. reflexivity.
  - unfold WriteRemoteDelete, writeRemote. rewrite Ht, Ha. reflexivity.
Qed.

End LogbookFacts.

Section WriteFacts.

Context {PrivKey PubKey Filesystem : Type}.
Context {C : Collaborators PrivKey PubKey Filesystem}.

Local Abbreviation Book := (@Book PrivKey Filesystem).

Lemma deref_modifyLog (book : Book) f p lg :
  deref (store book) p = Some lg ->
  deref (store (modifyLog f p book)) p = Some (f lg).
Proof. intros H. cbn [modifyLog withStore store]. apply deref_update. exact H. Qed.

Lemma appendAll_two op1 op2 lg : Append op2 (Append op1 lg) = appendAll [op1; op2] lg.
Proof. unfold Append, appendAll. cbn [Ops Logs Signature]. rewrite <- app_assoc. reflexivity. Qed.

Ltac after_save :=
  match goal with
  | |- context [save ?b] =>
      let e := fresh "e" in let Hs := fresh "Hs" in
      destruct (save_cases b) as [[e Hs]|(? & ? & ? & ? & Hs)]; rewrite Hs
  end.

(** Once past its checks, an operation other than a push leaves its ops
    in the target log, whatever becomes of the write to disk. *)
Lemma runWrite_appends (book : Book) initID w p lg ops :
  targetLog book initID w = Ok (p, lg) ->
  hasWriteAccess book lg = Ok tt ->
  appendedOps w = Some ops ->
  isRemoteOp w = false ->
  deref (store (fst (runWrite book initID w))) p = Some (appendAll ops lg).
Proof.
  intros Ht Ha Hops Hremote.
  pose proof (targetLog_sound book initID w p lg Ht) as Hd.
  destruct w; cbn [targetLog] in Ht; cbn [runWrite]; cbn [appendedOps] in Hops;
    try discriminate Hremote.
  - unfold WriteDatasetRename. destruct (IsValidName newName); [|discriminate].
    injection Hops as <-. cbn [negb]. unfold datasetLog in Ht |- *. rewrite Ht.
    cbn [attempt]. rewrite Ha. cbn [attempt].
    rewrite save_store. apply (deref_modifyLog book _ p lg Hd).
  - unfold WriteDatasetDelete. injection Hops as <-. unfold datasetLog in Ht |- *.
    rewrite Ht. cbn [attempt]. rewrite Ha. cbn [attempt].
    rewrite save_store. apply (deref_modifyLog book _ p lg Hd).
  - unfold WriteVersionSave. rewrite Ht. cbn [attempt]. rewrite Ha. cbn [attempt].
    destruct rs as [st|].
    + destruct (dataset.Commit_ ds) as [commit|] eqn:Ec; [|discriminate].
      destruct (versionSaveOp ds) as [op| |] eqn:Eo; try discriminate.
      destruct (String.eqb (run.ID st) (dataset.RunID commit)); [|discriminate].
      injection Hops as <-. cbn [negb appendTransformRun attempt].
      unfold appendVersionSave. rewrite Eo. cbn [attempt].
      after_save; cbn [attempt fst store Publish modifyLog withStore];
        rewrite <- appendAll_two; apply deref_update, deref_update; exact Hd.
    + destruct (versionSaveOp ds) as [op| |] eqn:Eo; try discriminate.
      injection Hops as <-. cbn [attempt]. unfold appendVersionSave. rewrite Eo.
      cbn [attempt].
      after_save; cbn [attempt fst store Publish modifyLog withStore];
        apply (deref_update (Append op)); exact Hd.
  - unfold WriteTransformRun. rewrite Ht. cbn [attempt]. rewrite Ha. cbn [attempt].
    destruct rs as [st|]; [|discriminate]. injection Hops as <-.
    cbn [appendTransformRun attempt]. rewrite save_store.
    apply (deref_modifyLog book _ p lg Hd).
  - unfold WriteVersionAmend. rewrite Ht. cbn [attempt]. rewrite Ha. cbn [attempt].
    destruct (dataset.Commit_ ds) as [commit|]; [|discriminate]. injection Hops as <-.
    rewrite save_store. apply (deref_modifyLog book _ p lg Hd).
  - unfold WriteVersionDelete. rewrite Ht. cbn [attempt]. rewrite Ha. cbn [attempt].
    injection Hops as <-.
    destruct (branchToVersionInfos growcap _ _ 0 (-1) false) as [items| |];
      cbn [attempt fst]; try apply (deref_modifyLog book _ p lg Hd).
    rewrite save_store. destruct (last items);
      cbn [Publish store]; apply (deref_modifyLog book _ p lg Hd).
Qed.

(** When the journal cannot be encrypted, every operation that got past
    its checks returns that error with its ops still in the target log;
    [WriteVersionDelete] may panic in the derivation it runs before it
    saves. *)
Lemma runWrite_cipherFails (book : Book) initID w p lg ops e :
  targetLog book initID w = Ok (p, lg) ->
  hasWriteAccess book lg = Ok tt ->
  appendedOps w = Some ops ->
  cipherFails book e ->
  deref (store (fst (runWrite book initID w))) p = Some (appendAll ops lg)
  /\ (snd (runWrite book initID w) = Err e
      \/ (exists revisions, w = VersionDelete revisions)
         /\ snd (runWrite book initID w) = Panic).
Proof.
  intros Ht Ha Hops Hfail.
  pose proof (targetLog_sound book initID w p lg Ht) as Hd.
  destruct (isRemoteOp w) eqn:Hremote.
  - destruct w; try discriminate Hremote; cbn [targetLog] in Ht; cbn [runWrite];
      cbn [appendedOps] in Hops; injection Hops as <-.
    + unfold WriteRemotePush, writeRemote. rewrite Ht, Ha.
      rewrite (save_fails _ e) by exact Hfail. cbn [fst snd prErr pushFailed].
      split; [apply (deref_modifyLog book _ p lg Hd) | left; reflexivity].
    + unfold WriteRemoteDelete, writeRemote. rewrite Ht, Ha.
      rewrite (save_fails _ e) by exact Hfail. cbn [fst snd prErr pushFailed].
      split; [apply (deref_modifyLog book _ p lg Hd) | left; reflexivity].
  - split; [apply (runWrite_appends book initID w p lg ops Ht Ha Hops Hremote)|].
    destruct w; try discriminate Hremote; cbn [targetLog] in Ht; cbn [runWrite];
      cbn [appendedOps] in Hops.
    + unfold WriteDatasetRename. destruct (IsValidName newName); [|discriminate].
      cbn [negb]. unfold datasetLog in Ht |- *. rewrite Ht. cbn [attempt]. rewrite Ha.
      cbn [attempt]. rewrite (save_fails _ e) by exact Hfail. left; reflexivity.
    + unfold WriteDatasetDelete. unfold datasetLog in Ht |- *. rewrite Ht.
      cbn [attempt]. rewrite Ha. cbn [attempt].
      rewrite (save_fails _ e) by exact Hfail. left; reflexivity.
    + unfold WriteVersionSave. rewrite Ht. cbn [attempt]. rewrite Ha. cbn [attempt].
      destruct rs as [st|].
      * destruct (dataset.Commit_ ds) as [commit|] eqn:Ec; [|discriminate].
        destruct (versionSaveOp ds) as [op| |] eqn:Eo; try discriminate.
        destruct (String.eqb (run.ID st) (dataset.RunID commit)); [|discriminate].
        cbn [negb appendTransformRun attempt].
        unfold appendVersionSave. rewrite Eo. cbn [attempt].
        rewrite (save_fails _ e) by exact Hfail. left; reflexivity.
      * destruct (versionSaveOp ds) as [op| |] eqn:Eo; try discriminate.
        cbn [attempt]. unfold appendVersionSave. rewrite Eo. cbn [attempt].
        rewrite (save_fails _ e) by exact Hfail. left; reflexivity.
    + unfold WriteTransformRun. rewrite Ht. cbn [attempt]. rewrite Ha. cbn [attempt].
      destruct rs as [st|]; [|discriminate].
      cbn [appendTransformRun attempt]. rewrite (save_fails _ e) by exact Hfail.
      left; reflexivity.
    + unfold WriteVersionAmend. rewrite Ht. cbn [attempt]. rewrite Ha. cbn [attempt].
      destruct (dataset.Commit_ ds) as [commit|]; [|discriminate].
      rewrite (save_fails _ e) by exact Hfail. left; reflexivity.
    + unfold WriteVersionDelete. rewrite Ht. cbn [attempt]. rewrite Ha. cbn [attempt].
      destruct (branchToVersionInfos growcap _ _ 0 (-1) false) as [items|e'|] eqn:Eb;
        cbn [attempt snd].
      * left. destruct (last items); rewrite (save_fails _ e) by exact Hfail; reflexivity.
      * exfalso. exact (branchToVersionInfos_no_err _ _ _ _ _ _ _ Eb).
      * right. split; [eauto | reflexivity].
Qed.

End WriteFacts.

(** * Facts about names and removal *)

Lemma findNamed_Some name logs i lg :
  findNamed name logs = Some (i, lg) ->
  logs !! i = Some lg /\ Log_Name lg = name.
Proof.
  unfold findNamed. intros H. apply first_some_from_Some in H as (k & x & Hk & Hf & _).
  simpl in Hf. destruct (String.eqb_spec (Log_Name x) name); [|discriminate].
  injection Hf as <- <-. split; assumption.
Qed.

(** A path of two names leads to a child of a top-level log. *)
Lemma Journal_HeadRef_two logs user name p dsLog :
  Journal_HeadRef logs [user; name] = Ok (p, dsLog) ->
  exists i j userLog,
    p = [i; j] /\ findNamed user logs = Some (i, userLog)
    /\ findNamed name (Logs userLog) = Some (j, dsLog).
Proof.
  unfold Journal_HeadRef. cbn [Log_HeadRef].
  destruct (findNamed user logs) as [[i userLog]|] eqn:Eu; [|discriminate].
  destruct (findNamed name (Logs userLog)) as [[j found]|] eqn:En; [|discriminate].
  intros [= <- <-]. exists i, j, userLog. repeat split; assumption.
Qed.

Lemma Journal_RemoveLog_two logs user name i j userLog dsLog :
  findNamed user logs = Some (i, userLog) ->
  findNamed name (Logs userLog) = Some (j, dsLog) ->
  Journal_RemoveLog logs [user; name] =
  (alter (setLogs (delete j (Logs userLog))) i logs, None).
Proof.
  intros Hu Hn. unfold Journal_RemoveLog, Journal_HeadRef, removeNamed.
  cbn -[findNamed alter delete]. rewrite Hu. cbn -[findNamed alter delete].
  rewrite Hn. reflexivity.
Qed.

Section LookupAfterChange.

Variable Hash : Op -> string.

(** A top-level log found by its id is still found there after a change
    that keeps its ops. *)
Lemma Journal_Get_alter logs id i lg (g : Log -> Log) :
  Journal_Get Hash logs id = Ok ([i], lg) ->
  Ops (g lg) = Ops lg ->
  Journal_Get Hash (alter g i logs) id = Ok ([i], g lg).
Proof.
  unfold Journal_Get. intros H Hops.
  destruct (first_some_from _ 0%nat logs) as [[p found]|] eqn:E; [|discriminate].
  injection H as -> ->.
  apply first_some_from_Some in E as (k & x & Hk & Hf & Hbefore). simpl in Hf.
  destruct (Log_find Hash id x) as [[q found]|] eqn:Ex; [|discriminate].
  injection Hf as -> -> ->.
  apply Log_find_sound in Ex as [Hid [[_ ->]|[Hq _]]]; [|congruence].
  erewrite first_some_from_hit; [reflexivity| | |].
  - rewrite list_lookup_alter_eq, Hk. reflexivity.
  - simpl. rewrite Log_find_unfold.
    replace (Log_ID Hash (g x)) with id
      by (unfold Log_ID in *; rewrite Hops; symmetry; exact Hid).
    rewrite String.eqb_refl. reflexivity.
  - intros k' y Hlt Hy. rewrite list_lookup_alter_ne in Hy by lia.
    apply (Hbefore k' y Hlt Hy).
Qed.

End LookupAfterChange.

Section InitFacts.

Context {PrivKey PubKey Filesystem : Type}.
Context {C : Collaborators PrivKey PubKey Filesystem}.

Local Abbreviation Book := (@Book PrivKey Filesystem).

Lemma save_works (book : Book) :
  cipherWorks book ->
  exists location fs' data puterr,
    save book =
    (mkBook (store book) (pk book) (authorID book) (authorName book) location fs'
       (effects book ++ [EffPut (fsLocation book) data puterr]), Ok tt).
Proof.
  intros H. unfold save. specialize (H (store book)).
  destruct (FlatbufferCipher (store book) (pk book)) as [ct err]. simpl in H. subst err.
  destruct (fsPut (fs book) (fsLocation book) ct) as [[fs' loc] puterr]. eauto 6.
Qed.

End InitFacts.

Lemma appendAll_changes ops lg : ops <> [] -> appendAll ops lg <> lg.
Proof.
  intros Hne H. apply Hne. destruct lg as [o l s]. unfold appendAll in H.
  cbn [Ops Logs Signature] in H. injection H as H.
  apply (app_inv_head o). rewrite app_nil_r. exact H.
Qed.

Lemma appendedOps_nonempty {PrivKey PubKey Filesystem : Type}
    {C : Collaborators PrivKey PubKey Filesystem} (w : WriteOp) ops :
  appendedOps w = Some ops -> ops <> [].
Proof.
  destruct w; cbn [appendedOps]; repeat break_match; intros [= <-]; discriminate.
Qed.

Section MoreWriteFacts.
Context {PrivKey PubKey Filesystem : Type}.
Context {C : Collaborators PrivKey PubKey Filesystem}.
Local Abbreviation Book := (@Book PrivKey Filesystem).

Ltac save_ok Hw :=
  match goal with
  | |- context [save ?b] =>
      let Hs := fresh "Hs" in
      destruct (save_works b) as (? & ? & ? & ? & Hs); [exact Hw|]; rewrite Hs
  end.

(** When the journal can be encrypted, an operation other than a push that
    got past its checks returns no error, whatever the filesystem made of
    the write; [WriteVersionDelete] may panic in the derivation it runs
    before it saves. *)
Lemma runWrite_cipherWorks (book : Book) initID w p lg ops :
  targetLog book initID w = Ok (p, lg) ->
  hasWriteAccess book lg = Ok tt ->
  appendedOps w = Some ops ->
  isRemoteOp w = false ->
  cipherWorks book ->
  snd (runWrite book initID w) = Ok tt
  \/ (exists revisions, w = VersionDelete revisions)
     /\ snd (runWrite book initID w) = Panic.
Proof.
  intros Ht Ha Hops Hremote Hw.
  destruct w; try discriminate Hremote; cbn [targetLog] in Ht; cbn [runWrite];
    cbn [appendedOps] in Hops.
  - unfold WriteDatasetRename. destruct (IsValidName newName); [|discriminate].
    cbn [negb]. unfold datasetLog in Ht |- *. rewrite Ht. cbn [attempt]. rewrite Ha.
    cbn [attempt]. save_ok Hw. left; reflexivity.
  - unfold WriteDatasetDelete. unfold datasetLog in Ht |- *. rewrite Ht.
    cbn [attempt]. rewrite Ha. cbn [attempt]. save_ok Hw. left; reflexivity.
  - unfold WriteVersionSave. rewrite Ht. cbn [attempt]. rewrite Ha. cbn [attempt].
    destruct rs as [st|].
    + destruct (dataset.Commit_ ds) as [commit|] eqn:Ec; [|discriminate].
      destruct (versionSaveOp ds) as [op| |] eqn:Eo; try discriminate.
      destruct (String.eqb (run.ID st) (dataset.RunID commit)); [|discriminate].
      cbn [negb appendTransformRun attempt].
      unfold appendVersionSave. rewrite Eo. cbn [attempt].
      save_ok Hw. left; reflexivity.
    + destruct (versionSaveOp ds) as [op| |] eqn:Eo; try discriminate.
      cbn [attempt]. unfold appendVersionSave. rewrite Eo. cbn [attempt].
      save_ok Hw. left; reflexivity.
  - unfold WriteTransformRun. rewrite Ht. cbn [attempt]. rewrite Ha. cbn [attempt].
    destruct rs as [st|]; [|discriminate].
    cbn [appendTransformRun attempt]. save_ok Hw. left; reflexivity.
  - unfold WriteVersionAmend. rewrite Ht. cbn [attempt]. rewrite Ha. cbn [attempt].
    destruct (dataset.Commit_ ds) as [commit|]; [|discriminate].
    save_ok Hw. left; reflexivity.
  - unfold WriteVersionDelete. rewrite Ht. cbn [attempt]. rewrite Ha. cbn [attempt].
    destruct (branchToVersionInfos growcap _ _ 0 (-1) false) as [items|e'|] eqn:Eb;
      cbn [attempt snd].
    + left. destruct (last items); save_ok Hw; reflexivity.
    + exfalso. exact (branchToVersionInfos_no_err _ _ _ _ _ _ _ Eb).
    + right. split; [eauto | reflexivity].
Qed.

End MoreWriteFacts.

(** * The claims *)

(** C1. The head path after deletes. On the log [save(p1) save(p2) save(p3)
    delete(1)] the scan of [latestSavePath] meets the Remove op, counts one
    remove, then meets the commit of [p3], takes the counter from one to
    zero and, finding it zero, returns [p3]: the deleted version itself. The
    algorithm as specified skips that commit and returns [p2]. After a
    further [delete(2)] the code returns [p1] where the specified algorithm
    returns the empty string. In general a commit met with one remove
    pending is returned by the code and skipped by the specified algorithm.
    Through the book: after three saves and [WriteVersionDelete(1)],
    [ResolveRef] yields the path of the third, deleted, version, while the
    newest entry of [Items] is the second. *)
Theorem head_path_after_delete :
  forall p1 p2 p3 : string,
    latestSavePath
      (Sample.branchOf [Sample.commitOp p1; Sample.commitOp p2; Sample.commitOp p3;
                        versionDeleteOp 1]) = p3
    /\ headPath_spec
         (Sample.branchOf [Sample.commitOp p1; Sample.commitOp p2; Sample.commitOp p3;
                           versionDeleteOp 1]) = p2
    /\ latestSavePath
         (Sample.branchOf [Sample.commitOp p1; Sample.commitOp p2; Sample.commitOp p3;
                           versionDeleteOp 1; versionDeleteOp 2]) = p1
    /\ headPath_spec
         (Sample.branchOf [Sample.commitOp p1; Sample.commitOp p2; Sample.commitOp p3;
                           versionDeleteOp 1; versionDeleteOp 2]) = ""
    /\ (forall older, latestSavePath_scan 1 (Sample.commitOp p3 :: older) = p3)
    /\ (forall older,
           headPath_spec_scan 1 (Sample.commitOp p3 :: older) = headPath_spec_scan 0 older)
    /\ (let deleted := fst (WriteVersionDelete Sample.savedThrice Sample.moviesID 1) in
        Path (fst (ResolveRef deleted Sample.moviesRef)) = "/ipfs/Qc"
        /\ (fun items => match items with
                         | Ok (newest :: _) => viPath newest
                         | _ => ""
                         end) (Items deleted Sample.moviesRef 0 (-1)) = "/ipfs/Qb").
Proof.
  intros p1 p2 p3. repeat split; try (intros older); vm_compute; reflexivity.
Qed.

(** C2. The commit-list derivation is not total: it panics on logs the
    write operations produce. An Amend with no entry before it indexes
    [refs[-1]]; a Remove, with all deletes collapsed, or a Push of size two
    after one entry slices or indexes below zero; a negative offset slices
    below zero. Through the book: [Items] panics after [WriteVersionAmend]
    on a dataset that has no version. *)
Theorem derivation_panics :
  forall (growcap : nat -> nat) (ref : Ref) (offset limit : Z) (collapse : bool)
         (path remote : string) (now : Z),
    branchToVersionInfos growcap (Sample.branchOf [Sample.amendOp path])
      ref offset limit collapse = Panic
    /\ branchToVersionInfos growcap
         (Sample.branchOf [Sample.commitOp path; versionDeleteOp 2])
         ref offset limit true = Panic
    /\ branchToVersionInfos growcap
         (Sample.branchOf [Sample.commitOp path; remoteOp OpTypeInit 2 remote now])
         ref offset limit collapse = Panic
    /\ branchToVersionInfos growcap (Sample.branchOf [Sample.commitOp path])
         ref (-1) limit collapse = Panic
    /\ Items
         (fst (WriteVersionAmend Sample.moviesBook Sample.moviesID
                 (Sample.version path "" "t1" now)))
         Sample.moviesRef 0 (-1) = Panic.
Proof.
  intros growcap ref offset limit collapse path remote now.
  repeat split; reflexivity.
Qed.

(** What [ResolveRef] does with a reference whose (username, name) pair
    leads to a dataset log: the reference gets that log's id as [InitID];
    [Path], when it was empty, becomes what [latestSavePath] returns for
    the dataset's branch log; [ProfileID], when it was empty, becomes the
    author id of the Init op of the user log the branch names as its
    author; the address is empty and there is no error. The journal is as
    the data model has it: the id of the dataset log leads back to that
    log, the log has its one branch log, and the user log is in the
    journal. A reference that comes with path and profile id needs none of
    this. When the pair leads nowhere the result is [ErrRefNotFound] and
    the reference is as it was. *)
Lemma resolve_ref_fills_reference :
  forall {PrivKey PubKey Filesystem : Type} {C : Collaborators PrivKey PubKey Filesystem}
         (book : @Book PrivKey Filesystem) (ref : Ref),
    (forall pd dsLog branch pu userLog op rest,
        Journal_HeadRef (store book) [dsref.Username ref; dsref.Name ref] = Ok (pd, dsLog) ->
        Journal_Get Hash (store book) (Log_ID Hash dsLog) = Ok (pd, dsLog) ->
        Logs dsLog = [branch] ->
        Journal_Get Hash (store book) (Log_Author branch) = Ok (pu, userLog) ->
        Ops userLog = op :: rest ->
        ResolveRef book ref =
        ({| InitID := Log_ID Hash dsLog;
            dsref.Username := dsref.Username ref;
            ProfileID := if String.eqb (ProfileID ref) "" then oplog.AuthorID op
                         else ProfileID ref;
            dsref.Name := dsref.Name ref;
            Path := if String.eqb (Path ref) "" then latestSavePath branch
                    else Path ref |},
         Ok ""))
    /\ (forall pd dsLog,
           Journal_HeadRef (store book) [dsref.Username ref; dsref.Name ref] = Ok (pd, dsLog) ->
           Path ref <> "" -> ProfileID ref <> "" ->
           ResolveRef book ref =
           ({| InitID := Log_ID Hash dsLog;
               dsref.Username := dsref.Username ref;
               ProfileID := ProfileID ref;
               dsref.Name := dsref.Name ref;
               Path := Path ref |},
            Ok ""))
    /\ (forall e,
           Journal_HeadRef (store book) [dsref.Username ref; dsref.Name ref] = Err e ->
           ResolveRef book ref = (ref, Err ErrRefNotFound)).
Proof.
  intros PrivKey PubKey Filesystem C book ref. split; [|split].
  - intros pd dsLog branch pu userLog op rest Hhead Hid Hone Huser Hops.
    assert (Hbranch : branchLog book (Log_ID Hash dsLog) = Ok (pd ++ [0%nat], branch))
      by (unfold branchLog; rewrite Hid, Hone; reflexivity).
    destruct ref as [iid user pid name path].
    cbn [dsref.Path dsref.ProfileID dsref.Username dsref.Name dsref.InitID] in *.
    unfold ResolveRef, RefToInitID.
    cbn [dsref.Path dsref.ProfileID dsref.Username dsref.Name dsref.InitID].
    rewrite Hhead. unfold setInitID, setPath, setProfileID.
    cbn [dsref.Path dsref.ProfileID dsref.Username dsref.Name dsref.InitID].
    rewrite Hbranch.
    destruct (String.eqb path "") eqn:Epath, (String.eqb pid "") eqn:Epid;
      cbn [attempt dsref.Path dsref.ProfileID dsref.Username dsref.Name dsref.InitID];
      rewrite ?Epid; cbn [attempt]; rewrite ?Huser; cbn [attempt]; rewrite ?Hops;
      reflexivity.
  - intros pd dsLog Hhead Hpath Hpid.
    destruct ref as [iid user pid name path].
    cbn [dsref.Path dsref.ProfileID dsref.Username dsref.Name dsref.InitID] in *.
    unfold ResolveRef, RefToInitID.
    cbn [dsref.Path dsref.ProfileID dsref.Username dsref.Name dsref.InitID].
    rewrite Hhead. unfold setInitID, setPath, setProfileID.
    cbn [dsref.Path dsref.ProfileID dsref.Username dsref.Name dsref.InitID].
    rewrite (proj2 (String.eqb_neq path "") Hpath).
    cbn [attempt dsref.Path dsref.ProfileID dsref.Username dsref.Name dsref.InitID].
    rewrite (proj2 (String.eqb_neq pid "") Hpid). reflexivity.
  - intros e Hhead. unfold ResolveRef, RefToInitID. rewrite Hhead.
    destruct e; reflexivity.
Qed.

Lemma resolve_ref_fills_reference_example :
  Journal_HeadRef (store Sample.savedTwice) ["alice"; "movies"]
  = Ok ([0; 0]%nat, Sample.logAt Sample.savedTwice [0; 0]%nat)
  /\ ResolveRef Sample.savedTwice Sample.moviesRef
     = ({| InitID := Sample.moviesID; dsref.Username := "alice"; ProfileID := "QmAliceKey";
           dsref.Name := "movies"; Path := "/ipfs/Qb" |}, Ok "")
  /\ ResolveRef Sample.savedTwice (mkRef "" "alice" "" "movies" "/ipfs/Qa")
     = ({| InitID := Sample.moviesID; dsref.Username := "alice"; ProfileID := "QmAliceKey";
           dsref.Name := "movies"; Path := "/ipfs/Qa" |}, Ok "")
  /\ ResolveRef Sample.savedTwice (mkRef "" "alice" "QmSomeone" "movies" "/ipfs/Qa")
     = ({| InitID := Sample.moviesID; dsref.Username := "alice"; ProfileID := "QmSomeone";
           dsref.Name := "movies"; Path := "/ipfs/Qa" |}, Ok "")
  /\ ResolveRef Sample.savedTwice (mkRef "" "alice" "" "books" "")
     = (mkRef "" "alice" "" "books" "", Err ErrRefNotFound).
Proof.
  assert (Hhead : forall pid path,
             Journal_HeadRef (store Sample.savedTwice)
               [dsref.Username (mkRef "" "alice" pid "movies" path);
                dsref.Name (mkRef "" "alice" pid "movies" path)]
             = Ok ([0; 0]%nat, Sample.logAt Sample.savedTwice [0; 0]%nat))
    by (intros; vm_compute; reflexivity).
  assert (Hid : Journal_Get Hash (store Sample.savedTwice)
                  (Log_ID Hash (Sample.logAt Sample.savedTwice [0; 0]%nat))
                = Ok ([0; 0]%nat, Sample.logAt Sample.savedTwice [0; 0]%nat))
    by (vm_compute; reflexivity).
  assert (Hone : Logs (Sample.logAt Sample.savedTwice [0; 0]%nat)
                 = [Sample.logAt Sample.savedTwice [0; 0; 0]%nat])
    by (vm_compute; reflexivity).
  assert (Huser : Journal_Get Hash (store Sample.savedTwice)
                    (Log_Author (Sample.logAt Sample.savedTwice [0; 0; 0]%nat))
                  = Ok ([0]%nat, Sample.logAt Sample.savedTwice [0]%nat))
    by (vm_compute; reflexivity).
  assert (Hops : Ops (Sample.logAt Sample.savedTwice [0]%nat)
                 = mkOp OpTypeInit AuthorModel "" "" [] "alice" "QmAliceKey" 1 0 "" :: [])
    by (vm_compute; reflexivity).
  split; [exact (Hhead "" "")|].
  split.
  { rewrite (proj1 (resolve_ref_fills_reference Sample.savedTwice Sample.moviesRef)
               _ _ _ _ _ _ _ (Hhead "" "") Hid Hone Huser Hops).
    vm_compute. reflexivity. }
  split.
  { rewrite (proj1 (resolve_ref_fills_reference Sample.savedTwice
                      (mkRef "" "alice" "" "movies" "/ipfs/Qa"))
               _ _ _ _ _ _ _ (Hhead "" "/ipfs/Qa") Hid Hone Huser Hops).
    vm_compute. reflexivity. }
  split.
  { rewrite (proj1 (proj2 (resolve_ref_fills_reference Sample.savedTwice
                             (mkRef "" "alice" "QmSomeone" "movies" "/ipfs/Qa")))
               _ _ (Hhead "QmSomeone" "/ipfs/Qa"));
      [vm_compute; reflexivity | discriminate | discriminate]. }
  apply (proj2 (proj2 (resolve_ref_fills_reference Sample.savedTwice
                         (mkRef "" "alice" "" "books" ""))) ErrOplogNotFound).
  vm_compute. reflexivity.
Defined.

(** C4. [MergeLog] checks the signature of the incoming log against the
    sender's public key before anything else. When the check fails the book
    comes back as it was - journal, location, files and effects - with the
    error of the check. Only when it passes is the log handed to the
    engine's merge; an error of the merge is returned and nothing is
    written. When the merge works the merged journal is encrypted with the
    book's key and the blob is put at the book's location: the filesystem
    of the book is the one [Put] leaves, the location the path it returned,
    and the write is the one effect added; when the encryption fails its
    error is returned and nothing is written. A change of journal,
    filesystem, location or effects implies that the check passed. *)
Theorem merge_log_verifies_first :
  forall {PrivKey PubKey Filesystem : Type} {C : Collaborators PrivKey PubKey Filesystem}
         (book : @Book PrivKey Filesystem) (sender : Author PubKey) (lg : Log),
    (forall e, Verify lg (AuthorPubKey sender) = Some e ->
               MergeLog book sender lg = (book, Err e))
    /\ (Verify lg (AuthorPubKey sender) = None ->
        let merged := fst (Journal_MergeLog (store book) lg) in
        let ciphertext := fst (FlatbufferCipher merged (pk book)) in
        let put := fsPut (fs book) (fsLocation book) ciphertext in
        MergeLog book sender lg =
        match snd (Journal_MergeLog (store book) lg),
              snd (FlatbufferCipher merged (pk book)) with
        | Some e, _ => (withStore merged book, Err e)
        | None, Some e => (withStore merged book, Err e)
        | None, None =>
            (mkBook merged (pk book) (authorID book) (authorName book)
               (snd (fst put)) (fst (fst put))
               (effects book ++ [EffPut (fsLocation book) ciphertext (snd put)]),
             Ok tt)
        end)
    /\ (store (fst (MergeLog book sender lg)) <> store book
        \/ fs (fst (MergeLog book sender lg)) <> fs book
        \/ fsLocation (fst (MergeLog book sender lg)) <> fsLocation book
        \/ effects (fst (MergeLog book sender lg)) <> effects book ->
        Verify lg (AuthorPubKey sender) = None).
Proof.
  intros PrivKey PubKey Filesystem C book sender lg. unfold MergeLog.
  destruct (Verify lg (AuthorPubKey sender)) as [err|] eqn:Ev.
  - split; [intros e [= ->]; reflexivity|]. split; [discriminate|].
    cbn [fst]. intros [H|[H|[H|H]]]; contradiction.
  - split; [discriminate|]. split; [|reflexivity].
    intros _. destruct (Journal_MergeLog (store book) lg) as [logs [e|]]; cbn [fst snd].
    + reflexivity.
    + unfold save. cbn [withStore store pk fs fsLocation effects authorID authorName].
      destruct (FlatbufferCipher logs (pk book)) as [ct [e|]]; cbn [fst snd];
        [reflexivity|].
      destruct (fsPut (fs book) (fsLocation book) ct) as [[fs' loc] puterr]. reflexivity.
Qed.

Lemma merge_log_verifies_first_witness :
  Verify Sample.bobLogUnsigned (AuthorPubKey Sample.bob)
  = Some (ErrExternal "invalid signature")
  /\ MergeLog Sample.savedTwice Sample.bob Sample.bobLogUnsigned
     = (Sample.savedTwice, Err (ErrExternal "invalid signature"))
  /\ Verify Sample.bobLog (AuthorPubKey Sample.bob) = None
  /\ snd (MergeLog Sample.savedTwice Sample.bob Sample.bobLog) = Ok tt
  /\ store (fst (MergeLog Sample.savedTwice Sample.bob Sample.bobLog))
     = store Sample.savedTwice ++ [Sample.bobLog]
  /\ Sample.files (fs (fst (MergeLog Sample.savedTwice Sample.bob Sample.bobLog)))
     = ("/mem/logbook.qfb",
        fst (Sample.cipher (store Sample.savedTwice ++ [Sample.bobLog]) "alice-private"))
       :: Sample.files (fs Sample.savedTwice)
  /\ effects (fst (MergeLog Sample.savedTwice Sample.bob Sample.bobLog))
     = effects Sample.savedTwice
       ++ [EffPut "/mem/logbook.qfb"
             (fst (Sample.cipher (store Sample.savedTwice ++ [Sample.bobLog])
                     "alice-private")) None].
Proof.
  assert (Hbad : Verify Sample.bobLogUnsigned (AuthorPubKey Sample.bob)
                 = Some (ErrExternal "invalid signature")) by (vm_compute; reflexivity).
  assert (Hgood : Verify Sample.bobLog (AuthorPubKey Sample.bob) = None)
    by (vm_compute; reflexivity).
  split; [exact Hbad|].
  split; [exact (proj1 (merge_log_verifies_first Sample.savedTwice Sample.bob
                          Sample.bobLogUnsigned) _ Hbad)|].
  split; [exact Hgood|].
  rewrite (proj1 (proj2 (merge_log_verifies_first Sample.savedTwice Sample.bob Sample.bobLog))
             Hgood).
  repeat split; vm_compute; reflexivity.
Defined.

(** C5 (amended). For the write operations that address a log by init
    id, and the log such an operation has found as its target: the access
    check lets the operation through exactly when the author id of the
    target's first op is the book's own author id. When they differ the
    operation returns with the book as it was, no op appended, nothing
    published, nothing saved; the error is [ErrAccessDenied], except that
    [WriteDatasetRename] checks the new name before anything else and
    returns the invalid-name error for a name that is not valid. *)
Theorem write_access_gate :
  forall {PrivKey PubKey Filesystem : Type} {C : Collaborators PrivKey PubKey Filesystem}
         (book : @Book PrivKey Filesystem) (initID : string) (w : WriteOp)
         (p : ptr) (lg : Log) (op : Op) (rest : list Op),
    targetLog book initID w = Ok (p, lg) ->
    Ops lg = op :: rest ->
    (hasWriteAccess book lg = Ok tt <-> oplog.AuthorID op = authorID book)
    /\ (oplog.AuthorID op <> authorID book ->
        hasWriteAccess book lg = Err ErrAccessDenied
        /\ runWrite book initID w =
           (book, Err (match argumentError w with
                       | Some e => e
                       | None => ErrAccessDenied
                       end))).
Proof.
  intros PrivKey PubKey Filesystem C book initID w p lg op rest Ht Hops.
  pose proof (hasWriteAccess_first book lg op rest Hops) as Ha.
  destruct (String.eqb_spec (oplog.AuthorID op) (authorID book)) as [Heq|Hne].
  - split; [split; [intros _; exact Heq | intros _; exact Ha]|].
    intros Hne; contradiction.
  - split; [split; [rewrite Ha; discriminate | intros Heq; contradiction]|].
    intros _. split; [exact Ha|]. apply (runWrite_denied book initID w p lg Ht Ha).
Qed.

Lemma write_access_gate_witness :
  targetLog Sample.aliceWithBob Sample.rareID (VersionDelete 1)
  = Ok ([1; 0; 0]%nat, Sample.logAt Sample.aliceWithBob [1; 0; 0]%nat)
  /\ authorID Sample.aliceWithBob = "Qm0-alice-QmAliceKey-1"
  /\ Log_Author (Sample.logAt Sample.aliceWithBob [1; 0; 0]%nat) = "Qm0-bob-QmBobKey-10"
  /\ runWrite Sample.aliceWithBob Sample.rareID (VersionDelete 1)
     = (Sample.aliceWithBob, Err ErrAccessDenied)
  /\ runWrite Sample.aliceWithBob Sample.rareID (DatasetRename "two words" 9)
     = (Sample.aliceWithBob, Err (ErrInvalidName "new dataset name" "two words")).
Proof.
  assert (Ht : targetLog Sample.aliceWithBob Sample.rareID (VersionDelete 1)
               = Ok ([1; 0; 0]%nat, Sample.logAt Sample.aliceWithBob [1; 0; 0]%nat))
    by (vm_compute; reflexivity).
  assert (Ht2 : targetLog Sample.aliceWithBob Sample.rareID (DatasetRename "two words" 9)
                = Ok ([1; 0]%nat, Sample.logAt Sample.aliceWithBob [1; 0]%nat))
    by (vm_compute; reflexivity).
  assert (Hne : "Qm0-bob-QmBobKey-10" <> authorID Sample.aliceWithBob)
    by (vm_compute; discriminate).
  split; [exact Ht|].
  split; [vm_compute; reflexivity|].
  split; [vm_compute; reflexivity|].
  split.
  - apply (proj2 (write_access_gate Sample.aliceWithBob Sample.rareID (VersionDelete 1)
                    [1; 0; 0]%nat (Sample.logAt Sample.aliceWithBob [1; 0; 0]%nat)
                    (mkOp OpTypeInit BranchModel "" "" [] "main" "Qm0-bob-QmBobKey-10" 12 0 "")
                    [] Ht eq_refl) Hne).
  - apply (proj2 (write_access_gate Sample.aliceWithBob Sample.rareID
                    (DatasetRename "two words" 9)
                    [1; 0]%nat (Sample.logAt Sample.aliceWithBob [1; 0]%nat)
                    (mkOp OpTypeInit DatasetModel "" "" [] "rare" "Qm0-bob-QmBobKey-10" 11 0 "")
                    [] Ht2 eq_refl) Hne).
Defined.

(** C5, as stated, fails: asked to rename Bob's dataset to a name that is
    not valid, Alice's book answers with the invalid-name error, which it
    checks first, not with [ErrAccessDenied]. And [WriteAuthorRename] makes
    no access check at all: it appends to the author's user log, whose first
    op carries the profile id, not the author id of the book. *)
Lemma write_access_counterexample :
  (targetLog Sample.aliceWithBob Sample.rareID (DatasetRename "two words" 9)
   = Ok ([1; 0]%nat, Sample.logAt Sample.aliceWithBob [1; 0]%nat)
   /\ Log_Author (Sample.logAt Sample.aliceWithBob [1; 0]%nat)
      <> authorID Sample.aliceWithBob
   /\ WriteDatasetRename Sample.aliceWithBob Sample.rareID "two words" 9
      = (Sample.aliceWithBob, Err (ErrInvalidName "new dataset name" "two words"))
   /\ snd (WriteDatasetRename Sample.aliceWithBob Sample.rareID "two words" 9)
      <> Err ErrAccessDenied)
  /\ (authorLog Sample.aliceBook = Ok ([0]%nat, Sample.logAt Sample.aliceBook [0]%nat)
      /\ Log_Author (Sample.logAt Sample.aliceBook [0]%nat) <> authorID Sample.aliceBook
      /\ snd (WriteAuthorRename Sample.aliceBook "alicia" 9) = Ok tt
      /\ deref (store (fst (WriteAuthorRename Sample.aliceBook "alicia" 9))) [0]%nat
         = Some (Append (authorRenameOp Sample.aliceBook "alicia" 9)
                   (Sample.logAt Sample.aliceBook [0]%nat))).
Proof.
  split.
  - split; [vm_compute; reflexivity|].
    split; [vm_compute; discriminate|].
    split; [vm_compute; reflexivity|].
    vm_compute. discriminate.
  - split; [vm_compute; reflexivity|].
    split; [vm_compute; discriminate|].
    split; vm_compute; reflexivity.
Qed.

(** C6. [WriteDatasetInit] on a name that already leads to a dataset log:
    it fails with "already exists", unless that log is stranded (the
    dataset log and its one branch log hold their Init op only); then the
    stranded log is taken out of its user log and a fresh dataset log, with
    one branch log named "main", is put in, and its non-empty id returned.
    The name is a valid one, the author's log is the user log that holds the
    dataset, and the journal can be encrypted for saving. *)
Theorem dataset_init_on_existing_name :
  forall {PrivKey PubKey Filesystem : Type} {C : Collaborators PrivKey PubKey Filesystem}
         (book : @Book PrivKey Filesystem) (dsName : string) (now1 now2 : Z)
         (i j : nat) (dsLog : Log),
    IsValidName dsName = true ->
    DatasetRef book (mkRef "" (Username book) "" dsName "") = Ok ([i; j], dsLog) ->
    (isStranded dsLog = false ->
     WriteDatasetInit book dsName now1 now2 = (book, ("", Err (ErrAlreadyExists dsName))))
    /\ (isStranded dsLog = true ->
        forall userLog,
          authorLog book = Ok ([i], userLog) ->
          cipherWorks book ->
          (forall op, Hash op <> "") ->
          let fresh := newDatasetLog book dsName now1 now2 in
          exists book',
            WriteDatasetInit book dsName now1 now2 = (book', (Log_ID Hash fresh, Ok tt))
            /\ Log_ID Hash fresh <> ""
            /\ store book' =
               <[i := mkLog (Ops userLog) (delete j (Logs userLog) ++ [fresh])
                        (Signature userLog)]> (store book)
            /\ Ops fresh = [datasetInitOp book dsName now1]
            /\ Logs fresh = [InitLog (branchInitOp book now2)]
            /\ Log_Name (InitLog (branchInitOp book now2)) = "main").
Proof.
  intros PrivKey PubKey Filesystem C book dsName now1 now2 i j dsLog Hvalid Href.
  assert (Hname : String.eqb dsName "" = false /\
                  Journal_HeadRef (store book) [Username book; dsName] = Ok ([i; j], dsLog)).
  { unfold DatasetRef in Href. cbn [dsref.Username dsref.Name] in Href.
    destruct (String.eqb (Username book) ""); [discriminate|].
    destruct (String.eqb dsName ""); [discriminate|]. split; [reflexivity|exact Href]. }
  destruct Hname as [Hne Hhead].
  split.
  - intros Hs. unfold WriteDatasetInit. rewrite Hne, Hvalid. cbn [negb].
    rewrite Href, Hs. reflexivity.
  - intros Hs userLog Hauthor Hcipher Hhash fresh.
    apply Journal_HeadRef_two in Hhead as (i' & j' & ul & [= <- <-] & Hu & Hn).
    unfold authorLog in Hauthor.
    pose proof (Journal_Get_sound _ _ _ _ _ Hauthor) as [Hd _].
    rewrite deref_top in Hd.
    apply findNamed_Some in Hu as Hu'. destruct Hu' as [Hi _].
    assert (ul = userLog) by congruence. subst ul.
    unfold WriteDatasetInit. rewrite Hne, Hvalid. cbn [negb].
    rewrite Href, Hs.
    unfold RemoveLog, dsRefToLogPath. cbn [dsref.Username dsref.Name].
    rewrite (Journal_RemoveLog_two _ _ _ _ _ _ _ Hu Hn).
    destruct (save_works (withStore (alter (setLogs (delete j (Logs userLog))) i (store book)) book))
      as (loc1 & fs1 & data1 & err1 & Hsave1); [exact Hcipher|].
    rewrite Hsave1. cbn [withStore store pk authorID authorName effects fsLocation].
    unfold authorLog. cbn [store authorID].
    rewrite (Journal_Get_alter Hash _ _ _ _ (setLogs (delete j (Logs userLog))) Hauthor)
      by reflexivity.
    match goal with
    | |- context [save ?b] =>
        destruct (save_works b) as (loc2 & fs2 & data2 & err2 & Hsave2); [exact Hcipher|];
        rewrite Hsave2
    end.
    eexists. split; [reflexivity|].
    split; [apply Hhash|].
    split.
    + cbn [store Publish modifyLog withStore update].
      rewrite list_alter_alter_eq, list_insert_alter.
      apply list_alter_ext; [|reflexivity].
      intros x Hx. rewrite Hi in Hx. injection Hx as <-. reflexivity.
    + split; [reflexivity|]. split; [reflexivity|]. reflexivity.
Qed.

Lemma dataset_init_on_existing_name_witness :
  DatasetRef Sample.moviesBook (mkRef "" "alice" "" "movies" "")
  = Ok ([0; 0]%nat, Sample.logAt Sample.moviesBook [0; 0]%nat)
  /\ isStranded (Sample.logAt Sample.moviesBook [0; 0]%nat) = true
  /\ isStranded (Sample.logAt Sample.savedOnce [0; 0]%nat) = false
  /\ WriteDatasetInit Sample.savedOnce "movies" 5 6
     = (Sample.savedOnce, ("", Err (ErrAlreadyExists "movies")))
  /\ exists book',
       WriteDatasetInit Sample.moviesBook "movies" 5 6
       = (book', ("Qm1-movies-Qm0-alice-QmAliceKey-1-5", Ok tt))
       /\ store book' =
          [mkLog (Ops (Sample.logAt Sample.moviesBook [0]%nat))
             [newDatasetLog Sample.moviesBook "movies" 5 6] []].
Proof.
  assert (Hvalid : IsValidName "movies" = true) by (vm_compute; reflexivity).
  assert (Href1 : DatasetRef Sample.moviesBook
                    (mkRef "" (Username Sample.moviesBook) "" "movies" "")
                  = Ok ([0; 0]%nat, Sample.logAt Sample.moviesBook [0; 0]%nat))
    by (vm_compute; reflexivity).
  assert (Href2 : DatasetRef Sample.savedOnce
                    (mkRef "" (Username Sample.savedOnce) "" "movies" "")
                  = Ok ([0; 0]%nat, Sample.logAt Sample.savedOnce [0; 0]%nat))
    by (vm_compute; reflexivity).
  assert (Hs1 : isStranded (Sample.logAt Sample.moviesBook [0; 0]%nat) = true)
    by (vm_compute; reflexivity).
  assert (Hs2 : isStranded (Sample.logAt Sample.savedOnce [0; 0]%nat) = false)
    by (vm_compute; reflexivity).
  assert (Hauthor : authorLog Sample.moviesBook
                    = Ok ([0]%nat, Sample.logAt Sample.moviesBook [0]%nat))
    by (vm_compute; reflexivity).
  assert (Hcipher : cipherWorks Sample.moviesBook) by (intros logs; reflexivity).
  assert (Hhash : forall op, Hash op <> "") by (intros op; discriminate).
  split; [exact Href1|]. split; [exact Hs1|]. split; [exact Hs2|].
  split.
  - exact (proj1 (dataset_init_on_existing_name Sample.savedOnce "movies" 5 6 0%nat 0%nat
                    _ Hvalid Href2) Hs2).
  - destruct (proj2 (dataset_init_on_existing_name Sample.moviesBook "movies" 5 6 0%nat 0%nat
                       _ Hvalid Href1) Hs1 _ Hauthor Hcipher Hhash)
      as (book' & Hrun & _ & Hstore & _).
    exists book'. split; [exact Hrun | exact Hstore].
Defined.

(** C7. In the commit-list derivation a Push Init op sets, and a Push
    Remove op clears, the [Published] flag of the last [Size] entries. So
    on any branch log whose derivation succeeds, two plain saves followed
    by push(2) give two newest entries that are both published, and a
    further delete_push(2) gives them both unpublished again. *)
Theorem publish_toggling :
  forall (growcap : nat -> nat) (ref : Ref),
    (forall collapse refs d op,
        Model op = PushModel -> Type_ op = OpTypeInit -> 0 < Size op <= slen refs ->
        branchToVersionInfos_step growcap ref collapse (refs, d) op =
        Ok (mkSlice (markLast true (Size op) (visible refs)) (spare refs), d))
    /\ (forall collapse refs d op,
        Model op = PushModel -> Type_ op = OpTypeRemove -> 0 < Size op <= slen refs ->
        branchToVersionInfos_step growcap ref collapse (refs, d) op =
        Ok (mkSlice (markLast false (Size op) (visible refs)) (spare refs), d))
    /\ (forall prefix refs d save1 save2 push unpush logs sig,
        branchToVersionInfos_loop growcap ref true (emptySlice, 0) prefix = Ok (refs, d) ->
        isPlainSave save1 -> isPlainSave save2 ->
        isPush OpTypeInit 2 push -> isPush OpTypeRemove 2 unpush ->
        (exists entry2 entry1 older,
            branchToVersionInfos growcap
              (mkLog (prefix ++ [save1; save2; push]) logs sig) ref 0 (-1) true =
            Ok (entry2 :: entry1 :: older)
            /\ viPath entry2 = oplog.Ref save2 /\ viPath entry1 = oplog.Ref save1
            /\ Published entry2 = true /\ Published entry1 = true)
        /\ (exists entry2 entry1 older,
               branchToVersionInfos growcap
                 (mkLog (prefix ++ [save1; save2; push; unpush]) logs sig) ref 0 (-1) true =
               Ok (entry2 :: entry1 :: older)
               /\ viPath entry2 = oplog.Ref save2 /\ viPath entry1 = oplog.Ref save1
               /\ Published entry2 = false /\ Published entry1 = false)).
Proof.
  intros growcap ref. split; [|split].
  - intros collapse refs d op HM HT HS.
    rewrite (step_push growcap ref collapse refs d op true HM HT).
    destruct (Z.leb_spec (Size op) 0); [lia|].
    destruct (Z.leb_spec (Size op) (slen refs)); [reflexivity|lia].
  - intros collapse refs d op HM HT HS.
    rewrite (step_push growcap ref collapse refs d op false HM HT).
    destruct (Z.leb_spec (Size op) 0); [lia|].
    destruct (Z.leb_spec (Size op) (slen refs)); [reflexivity|lia].
  - intros prefix refs d save1 save2 push unpush logs sig Hpre
      (HM1 & HT1 & HR1) (HM2 & HT2 & HR2) (HMp & HTp & HSp) (HMu & HTu & HSu).
    pose proof (loop_collapse_pending growcap ref prefix _ _ _ Hpre) as ->.
    set (s2 := sappend growcap (sappend growcap refs (versionInfoFromOp ref save1))
                 (versionInfoFromOp ref save2)).
    assert (Hvis : visible s2 =
                   visible refs ++ [versionInfoFromOp ref save1; versionInfoFromOp ref save2]).
    { unfold s2. rewrite !visible_sappend, <- app_assoc. reflexivity. }
    assert (Hlen : slen s2 = slen refs + 2).
    { unfold slen. rewrite Hvis, length_app. simpl. lia. }
    assert (Hnn : 0 <= slen refs) by (unfold slen; lia).
    assert (Hsaves : branchToVersionInfos_loop growcap ref true (emptySlice, 0)
                       (prefix ++ [save1; save2]) = Ok (s2, 0)).
    { rewrite loop_app, Hpre. cbn [branchToVersionInfos_loop].
      rewrite (step_plain_save growcap ref true refs 0 save1 HM1 HT1 HR1).
      rewrite (step_plain_save growcap ref true _ 0 save2 HM2 HT2 HR2). reflexivity. }
    assert (Hpush : branchToVersionInfos_step growcap ref true (s2, 0) push =
                    Ok (mkSlice (visible refs ++
                                   map (setPublished true)
                                     [versionInfoFromOp ref save1; versionInfoFromOp ref save2])
                          (spare s2), 0)).
    { rewrite (step_push growcap ref true s2 0 push true HMp HTp), HSp.
      destruct (Z.leb_spec 2 0); [lia|].
      destruct (Z.leb_spec 2 (slen s2)); [|lia].
      rewrite Hvis. rewrite (markLast_app true (visible refs) [_; _]). reflexivity. }
    split.
    + exists (setPublished true (versionInfoFromOp ref save2)),
        (setPublished true (versionInfoFromOp ref save1)), (reverse (visible refs)).
      split; [|repeat split; reflexivity].
      unfold branchToVersionInfos. cbn [Ops].
      change (prefix ++ [save1; save2; push]) with (prefix ++ [save1; save2] ++ [push]).
      rewrite app_assoc, loop_app, Hsaves. cbn [branchToVersionInfos_loop].
      rewrite Hpush, finish_all. cbn [visible map].
      rewrite reverse_app. reflexivity.
    + exists (versionInfoFromOp ref save2), (versionInfoFromOp ref save1),
        (reverse (visible refs)).
      split; [|repeat split; reflexivity].
      unfold branchToVersionInfos. cbn [Ops].
      change (prefix ++ [save1; save2; push; unpush])
        with (prefix ++ [save1; save2] ++ [push; unpush]).
      rewrite app_assoc, loop_app, Hsaves. cbn [branchToVersionInfos_loop].
      rewrite Hpush.
      rewrite (step_push growcap ref true _ 0 unpush false HMu HTu), HSu.
      destruct (Z.leb_spec 2 0); [lia|].
      unfold slen at 1. cbn [visible]. rewrite length_app. cbn [length map].
      destruct (Z.leb_spec 2 (Z.of_nat (length (visible refs) + 2))); [|lia].
      rewrite finish_all. cbn [visible].
      rewrite (markLast_app false (visible refs) [_; _]). cbn [map].
      rewrite reverse_app. reflexivity.
Qed.

Lemma publish_toggling_witness :
  branchToVersionInfos_loop (fun n => (2 * n + 1)%nat) Sample.moviesRef true (emptySlice, 0)
    [branchInitOp Sample.aliceBook 3] = Ok (emptySlice, 0)
  /\ isPlainSave (Sample.commitOp "/ipfs/Qa")
  /\ isPush OpTypeInit 2 (remoteOp OpTypeInit 2 "r1" 50)
  /\ isPush OpTypeRemove 2 (remoteOp OpTypeRemove 2 "r1" 51)
  /\ exists entry2 entry1 older,
       branchToVersionInfos (fun n => (2 * n + 1)%nat)
         (Sample.branchOf [Sample.commitOp "/ipfs/Qa"; Sample.commitOp "/ipfs/Qb";
                           remoteOp OpTypeInit 2 "r1" 50; remoteOp OpTypeRemove 2 "r1" 51])
         Sample.moviesRef 0 (-1) true = Ok (entry2 :: entry1 :: older)
       /\ viPath entry2 = "/ipfs/Qb" /\ viPath entry1 = "/ipfs/Qa"
       /\ Published entry2 = false /\ Published entry1 = false.
Proof.
  split; [reflexivity|].
  split; [repeat split; reflexivity|].
  split; [repeat split; reflexivity|].
  split; [repeat split; reflexivity|].
  apply (proj2 (proj2 (proj2 (publish_toggling (fun n => (2 * n + 1)%nat) Sample.moviesRef))
                  [branchInitOp Sample.aliceBook 3] emptySlice 0
                  (Sample.commitOp "/ipfs/Qa") (Sample.commitOp "/ipfs/Qb")
                  (remoteOp OpTypeInit 2 "r1" 50) (remoteOp OpTypeRemove 2 "r1" 51) [] []
                  eq_refl
                  (conj eq_refl (conj eq_refl eq_refl))
                  (conj eq_refl (conj eq_refl eq_refl))
                  (conj eq_refl (conj eq_refl eq_refl))
                  (conj eq_refl (conj eq_refl eq_refl)))).
Defined.

(** C8. No write operation rolls its append back when persisting fails.
    Once an operation is past its checks, the ops it appends stay in the
    target log: when the journal cannot be encrypted the operation returns
    that error (or, for [WriteVersionDelete], panics in the derivation it
    runs first) and the journal differs from the one before the call; for
    every operation but the two remote ones the ops stay whatever the
    filesystem does; and when the journal can be encrypted such an
    operation returns no error at all, so that a write the filesystem
    refused is not even reported. *)
Theorem persist_failure_keeps_append :
  forall {PrivKey PubKey Filesystem : Type} {C : Collaborators PrivKey PubKey Filesystem}
         (book : @Book PrivKey Filesystem) (initID : string) (w : WriteOp)
         (p : ptr) (lg : Log) (ops : list Op),
    targetLog book initID w = Ok (p, lg) ->
    hasWriteAccess book lg = Ok tt ->
    appendedOps w = Some ops ->
    (forall e,
        cipherFails book e ->
        deref (store (fst (runWrite book initID w))) p = Some (appendAll ops lg)
        /\ store (fst (runWrite book initID w)) <> store book
        /\ (snd (runWrite book initID w) = Err e
            \/ (exists revisions, w = VersionDelete revisions)
               /\ snd (runWrite book initID w) = Panic))
    /\ (isRemoteOp w = false ->
        deref (store (fst (runWrite book initID w))) p = Some (appendAll ops lg)
        /\ store (fst (runWrite book initID w)) <> store book)
    /\ (isRemoteOp w = false ->
        cipherWorks book ->
        snd (runWrite book initID w) = Ok tt
        \/ (exists revisions, w = VersionDelete revisions)
           /\ snd (runWrite book initID w) = Panic).
Proof.
  intros PrivKey PubKey Filesystem C book initID w p lg ops Ht Ha Hops.
  pose proof (targetLog_sound book initID w p lg Ht) as Hd.
  pose proof (appendAll_changes ops lg (appendedOps_nonempty w ops Hops)) as Hch.
  assert (Hdiff : forall logs, deref logs p = Some (appendAll ops lg) -> logs <> store book).
  { intros logs Hl ->. rewrite Hd in Hl. injection Hl as Hl. apply Hch. symmetry. exact Hl. }
  split; [|split].
  - intros e Hfail.
    destruct (runWrite_cipherFails book initID w p lg ops e Ht Ha Hops Hfail) as [Hkept Hres].
    split; [exact Hkept|]. split; [apply Hdiff; exact Hkept | exact Hres].
  - intros Hremote.
    pose proof (runWrite_appends book initID w p lg ops Ht Ha Hops Hremote) as Hkept.
    split; [exact Hkept | apply Hdiff; exact Hkept].
  - intros Hremote Hw.
    exact (runWrite_cipherWorks book initID w p lg ops Ht Ha Hops Hremote Hw).
Qed.

Lemma persist_failure_keeps_append_witness :
  (targetLog (Sample.withoutKey Sample.moviesBook) Sample.moviesID (DatasetRename "films" 9)
   = Ok ([0; 0]%nat, Sample.logAt Sample.moviesBook [0; 0]%nat)
   /\ cipherFails (Sample.withoutKey Sample.moviesBook) (ErrExternal "private key is required")
   /\ snd (runWrite (Sample.withoutKey Sample.moviesBook) Sample.moviesID
             (DatasetRename "films" 9)) = Err (ErrExternal "private key is required")
   /\ store (fst (runWrite (Sample.withoutKey Sample.moviesBook) Sample.moviesID
                    (DatasetRename "films" 9)))
      <> store (Sample.withoutKey Sample.moviesBook))
  /\ (last (effects (fst (runWrite (Sample.readOnly Sample.moviesBook) Sample.moviesID
                            (DatasetRename "films" 9))))
      = Some (EffPut "/mem/logbook.qfb"
                (fst (Sample.cipher
                        (store (fst (runWrite (Sample.readOnly Sample.moviesBook)
                                       Sample.moviesID (DatasetRename "films" 9))))
                        "alice-private"))
                (Some (ErrExternal "read-only filesystem")))
      /\ snd (runWrite (Sample.readOnly Sample.moviesBook) Sample.moviesID
                (DatasetRename "films" 9)) = Ok tt
      /\ deref (store (fst (runWrite (Sample.readOnly Sample.moviesBook) Sample.moviesID
                              (DatasetRename "films" 9)))) [0; 0]%nat
         = Some (Append (datasetRenameOp "films" 9)
                   (Sample.logAt Sample.moviesBook [0; 0]%nat))
      /\ store (fst (runWrite (Sample.readOnly Sample.moviesBook) Sample.moviesID
                       (DatasetRename "films" 9)))
         <> store (Sample.readOnly Sample.moviesBook)).
Proof.
  assert (Hops : appendedOps (DatasetRename "films" 9) = Some [datasetRenameOp "films" 9])
    by (vm_compute; reflexivity).
  split.
  - assert (Hfail : cipherFails (Sample.withoutKey Sample.moviesBook)
                      (ErrExternal "private key is required")) by (intros logs; reflexivity).
    assert (Ht : targetLog (Sample.withoutKey Sample.moviesBook) Sample.moviesID
                   (DatasetRename "films" 9)
                 = Ok ([0; 0]%nat, Sample.logAt Sample.moviesBook [0; 0]%nat))
      by (vm_compute; reflexivity).
    assert (Ha : hasWriteAccess (Sample.withoutKey Sample.moviesBook)
                   (Sample.logAt Sample.moviesBook [0; 0]%nat) = Ok tt)
      by (vm_compute; reflexivity).
    split; [exact Ht|]. split; [exact Hfail|].
    destruct (proj1 (persist_failure_keeps_append
                       (Sample.withoutKey Sample.moviesBook) Sample.moviesID
                       (DatasetRename "films" 9) [0; 0]%nat
                       (Sample.logAt Sample.moviesBook [0; 0]%nat)
                       [datasetRenameOp "films" 9] Ht Ha Hops)
                _ Hfail) as (_ & Hdiff & [Herr|[[n Hn] _]]).
    + split; [exact Herr | exact Hdiff].
    + discriminate Hn.
  - assert (Hworks : cipherWorks (Sample.readOnly Sample.moviesBook))
      by (intros logs; vm_compute; reflexivity).
    assert (Ht : targetLog (Sample.readOnly Sample.moviesBook) Sample.moviesID
                   (DatasetRename "films" 9)
                 = Ok ([0; 0]%nat, Sample.logAt Sample.moviesBook [0; 0]%nat))
      by (vm_compute; reflexivity).
    assert (Ha : hasWriteAccess (Sample.readOnly Sample.moviesBook)
                   (Sample.logAt Sample.moviesBook [0; 0]%nat) = Ok tt)
      by (vm_compute; reflexivity).
    destruct (persist_failure_keeps_append
                (Sample.readOnly Sample.moviesBook) Sample.moviesID
                (DatasetRename "films" 9) [0; 0]%nat
                (Sample.logAt Sample.moviesBook [0; 0]%nat)
                [datasetRenameOp "films" 9] Ht Ha Hops) as (_ & Hkept & Hres).
    destruct (Hkept eq_refl) as [Hd Hdiff].
    split; [vm_compute; reflexivity|].
    split; [destruct (Hres eq_refl Hworks) as [Hok|[[n Hn] _]];
            [exact Hok | discriminate Hn]|].
    split; [exact Hd | exact Hdiff].
Defined.

(** On the sample book: on a filesystem that refuses the write, and with
    a key that cannot encrypt, [WriteDatasetRename] leaves the Amend op in
    the journal. In the first case it even returns no error. *)
Lemma rollback_absent_counterexample :
  (let before := Sample.readOnly Sample.moviesBook in
   let after := WriteDatasetRename before Sample.moviesID "films" 9 in
   (exists data,
       last (effects (fst after)) =
       Some (EffPut "/mem/logbook.qfb" data (Some (ErrExternal "read-only filesystem"))))
   /\ snd after = Ok tt
   /\ store (fst after) <> store before)
  /\ (let before := Sample.withoutKey Sample.moviesBook in
      let after := WriteDatasetRename before Sample.moviesID "films" 9 in
      snd after = Err (ErrExternal "private key is required")
      /\ store (fst after) <> store before).
Proof.
  split; cbv zeta.
  - split; [eexists; vm_compute; reflexivity|].
    split; [vm_compute; reflexivity|].
    intros H. vm_compute in H. discriminate H.
  - split; [vm_compute; reflexivity|].
    intros H. vm_compute in H. discriminate H.
Qed.

(** C9. The order [WriteDatasetInit], [WriteDatasetRename] and
    [WriteDatasetDelete] follow: each hands its event to the publisher
    first and saves afterwards, so the event is out before the book is
    persisted, and also when saving fails. [WriteVersionSave] is the one
    that saves first and publishes only when [save] returned no error;
    since [save] returns none when the filesystem write fails, its event
    too can follow a write that failed. *)
Theorem events_published_before_persist :
  forall {PrivKey PubKey Filesystem : Type} {C : Collaborators PrivKey PubKey Filesystem}
         (book : @Book PrivKey Filesystem),
    (forall dsName now1 now2 p userLog,
        match DatasetRef book (mkRef "" (Username book) "" dsName "") with
        | Ok _ => False
        | _ => True
        end ->
        dsName <> "" -> IsValidName dsName = true ->
        authorLog book = Ok (p, userLog) ->
        exists added,
          effects (fst (WriteDatasetInit book dsName now1 now2)) = effects book ++ added
          /\ publishedThenPut event.ETDatasetNameInit added
          /\ forall e, cipherFails book e ->
               added = [EffPublish event.ETDatasetNameInit
                          {| event.InitID := Log_ID Hash (newDatasetLog book dsName now1 now2);
                             event.TopIndex := 0;
                             event.ProfileID := Log_Author userLog;
                             event.Username := Username book;
                             event.PrettyName := dsName;
                             event.HeadRef := "";
                             event.Info := None |}]
               /\ snd (snd (WriteDatasetInit book dsName now1 now2)) = Err e)
    /\ (forall initID newName now p dsLog,
        IsValidName newName = true ->
        datasetLog book initID = Ok (p, dsLog) ->
        hasWriteAccess book dsLog = Ok tt ->
        exists added,
          effects (fst (WriteDatasetRename book initID newName now)) = effects book ++ added
          /\ publishedThenPut event.ETDatasetRename added
          /\ forall e, cipherFails book e ->
               length added = 1%nat
               /\ snd (WriteDatasetRename book initID newName now) = Err e)
    /\ (forall initID now p dsLog,
        datasetLog book initID = Ok (p, dsLog) ->
        hasWriteAccess book dsLog = Ok tt ->
        exists added,
          effects (fst (WriteDatasetDelete book initID now)) = effects book ++ added
          /\ publishedThenPut event.ETDatasetDeleteAll added
          /\ forall e, cipherFails book e ->
               length added = 1%nat
               /\ snd (WriteDatasetDelete book initID now) = Err e)
    /\ (forall initID ds p branch op,
        branchLog book initID = Ok (p, branch) ->
        hasWriteAccess book branch = Ok tt ->
        versionSaveOp ds = Ok op ->
        exists added,
          effects (fst (WriteVersionSave book initID ds None)) = effects book ++ added
          /\ ((added = [] /\ exists e, snd (WriteVersionSave book initID ds None) = Err e)
              \/ (exists location data puterr payload,
                     added = [EffPut location data puterr;
                              EffPublish event.ETDatasetCommitChange payload]
                     /\ snd (WriteVersionSave book initID ds None) = Ok tt))).
Proof.
  intros PrivKey PubKey Filesystem C book. split; [|split; [|split]].
  - intros dsName now1 now2 p userLog Hfresh Hne Hvalid Hauthor.
    unfold WriteDatasetInit.
    destruct (String.eqb_spec dsName ""); [contradiction|].
    rewrite Hvalid. cbn [negb].
    destruct (DatasetRef book (mkRef "" (Username book) "" dsName "")) as [[q l]|e0|];
      [contradiction| |].
    all: rewrite Hauthor.
    all: match goal with
         | |- context [save ?b] =>
             destruct (save_cases b) as [[e Hs]|(loc & fs' & data & puterr & Hs)]
         end.
    all: rewrite Hs; cbn [fst snd effects Publish modifyLog withStore].
    all: eexists; split; [try rewrite <- app_assoc; reflexivity|].
    all: split; [eexists; first [left; reflexivity | right; eauto]|].
    all: intros e' Hfail;
      match type of Hs with
      | save ?b = _ => rewrite (save_fails b e') in Hs by exact Hfail
      end.
    all: try discriminate Hs.
    all: inversion Hs; subst; split; reflexivity.
  - intros initID newName now p dsLog Hvalid Ht Ha.
    unfold WriteDatasetRename. rewrite Hvalid, Ht. cbn [negb attempt]. rewrite Ha.
    cbn [attempt].
    match goal with
    | |- context [save ?b] =>
        destruct (save_cases b) as [[e Hs]|(loc & fs' & data & puterr & Hs)]
    end.
    all: rewrite Hs; cbn [fst snd effects Publish modifyLog withStore].
    all: eexists; split; [try rewrite <- app_assoc; reflexivity|].
    all: split; [eexists; first [left; reflexivity | right; eauto]|].
    all: intros e' Hfail;
      match type of Hs with
      | save ?b = _ => rewrite (save_fails b e') in Hs by exact Hfail
      end.
    all: try discriminate Hs.
    all: inversion Hs; subst; split; reflexivity.
  - intros initID now p dsLog Ht Ha.
    unfold WriteDatasetDelete. rewrite Ht. cbn [attempt]. rewrite Ha. cbn [attempt].
    match goal with
    | |- context [save ?b] =>
        destruct (save_cases b) as [[e Hs]|(loc & fs' & data & puterr & Hs)]
    end.
    all: rewrite Hs; cbn [fst snd effects Publish modifyLog withStore].
    all: eexists; split; [try rewrite <- app_assoc; reflexivity|].
    all: split; [eexists; first [left; reflexivity | right; eauto]|].
    all: intros e' Hfail;
      match type of Hs with
      | save ?b = _ => rewrite (save_fails b e') in Hs by exact Hfail
      end.
    all: try discriminate Hs.
    all: inversion Hs; subst; split; reflexivity.
  - intros initID ds p branch op Hb Ha Hop.
    unfold WriteVersionSave. rewrite Hb. cbn [attempt]. rewrite Ha. cbn [attempt].
    unfold appendVersionSave. rewrite Hop. cbn [attempt].
    match goal with
    | |- context [save ?b] =>
        destruct (save_cases b) as [[e Hs]|(loc & fs' & data & puterr & Hs)]
    end.
    all: rewrite Hs; cbn [attempt fst snd effects Publish modifyLog withStore].
    + exists []. split; [rewrite app_nil_r; reflexivity|]. left. eauto.
    + eexists. split; [rewrite <- app_assoc; reflexivity|]. right. eauto 8.
Qed.

Lemma events_published_before_persist_witness :
  snd (snd (WriteDatasetInit (Sample.withoutKey Sample.aliceBook) "movies" 2 3))
  = Err (ErrExternal "private key is required")
  /\ effects (fst (WriteDatasetInit (Sample.withoutKey Sample.aliceBook) "movies" 2 3))
     = effects Sample.aliceBook
       ++ [EffPublish event.ETDatasetNameInit
             {| event.InitID := "Qm1-movies-Qm0-alice-QmAliceKey-1-2";
                event.TopIndex := 0;
                event.ProfileID := "QmAliceKey";
                event.Username := "alice";
                event.PrettyName := "movies";
                event.HeadRef := "";
                event.Info := None |}]
  /\ (exists added,
         effects (fst (WriteDatasetRename Sample.moviesBook Sample.moviesID "films" 9))
         = effects Sample.moviesBook ++ added
         /\ publishedThenPut event.ETDatasetRename added)
  /\ exists added,
       effects (fst (WriteVersionSave (Sample.readOnly Sample.moviesBook) Sample.moviesID
                       (Sample.version "/ipfs/Qa" "" "t1" 1000) None))
       = effects Sample.moviesBook ++ added
       /\ map (fun eff => match eff with
                          | EffPut _ _ err => err
                          | EffPublish _ _ => None
                          end) added
          = [Some (ErrExternal "read-only filesystem"); None].
Proof.
  assert (Hfail : cipherFails (Sample.withoutKey Sample.aliceBook)
                    (ErrExternal "private key is required")) by (intros logs; reflexivity).
  assert (Hauthor : authorLog (Sample.withoutKey Sample.aliceBook)
                    = Ok ([0]%nat, Sample.logAt Sample.aliceBook [0]%nat))
    by (vm_compute; reflexivity).
  assert (Hne : "movies" <> "") by discriminate.
  assert (Hvalid : IsValidName "movies" = true) by (vm_compute; reflexivity).
  destruct (proj1 (events_published_before_persist (Sample.withoutKey Sample.aliceBook))
              "movies" 2 3 [0]%nat (Sample.logAt Sample.aliceBook [0]%nat)
              I Hne Hvalid Hauthor) as (added & Heff & _ & Hfailing).
  destruct (Hfailing _ Hfail) as [Hadded Herr].
  split; [exact Herr|].
  split; [rewrite Heff, Hadded; vm_compute; reflexivity|].
  assert (Ht : datasetLog Sample.moviesBook Sample.moviesID
               = Ok ([0; 0]%nat, Sample.logAt Sample.moviesBook [0; 0]%nat))
    by (vm_compute; reflexivity).
  assert (Ha : hasWriteAccess Sample.moviesBook (Sample.logAt Sample.moviesBook [0; 0]%nat)
               = Ok tt) by (vm_compute; reflexivity).
  assert (Hvalid2 : IsValidName "films" = true) by (vm_compute; reflexivity).
  destruct (proj1 (proj2 (events_published_before_persist Sample.moviesBook))
              Sample.moviesID "films" 9 [0; 0]%nat _ Hvalid2 Ht Ha)
    as (added' & Heff' & Hshape & _).
  split; [exists added'; split; [exact Heff' | exact Hshape]|].
  assert (Hb : branchLog (Sample.readOnly Sample.moviesBook) Sample.moviesID
               = Ok ([0; 0; 0]%nat, Sample.logAt Sample.moviesBook [0; 0; 0]%nat))
    by (vm_compute; reflexivity).
  assert (Ha' : hasWriteAccess (Sample.readOnly Sample.moviesBook)
                  (Sample.logAt Sample.moviesBook [0; 0; 0]%nat) = Ok tt)
    by (vm_compute; reflexivity).
  destruct (proj2 (proj2 (proj2 (events_published_before_persist
                                   (Sample.readOnly Sample.moviesBook))))
              Sample.moviesID (Sample.version "/ipfs/Qa" "" "t1" 1000) [0; 0; 0]%nat
              _ _ Hb Ha' eq_refl) as (added'' & Heff'' & _).
  exists added''. split; [exact Heff''|].
  apply (app_inv_head (effects Sample.moviesBook)) in Heff'' as <-.
  vm_compute. reflexivity.
Defined.

(** C10 (amended). [WriteVersionSave] with a run state: when the id of the
    run differs from [ds.Commit.RunID] the call returns without having
    touched the book, with the mismatch error once the branch log is found
    and writable; when they agree the branch log gains two ops, the run op
    and then the commit Init op, whose relations are the one string "runID:"
    followed by the run id when that id is not empty, and no string at all
    when it is empty. *)
Theorem version_save_with_run :
  forall {PrivKey PubKey Filesystem : Type} {C : Collaborators PrivKey PubKey Filesystem}
         (book : @Book PrivKey Filesystem) (initID : string) (ds : dataset.Dataset)
         (st : run.State) (commit : dataset.Commit),
    dataset.Commit_ ds = Some commit ->
    (run.ID st <> dataset.RunID commit ->
     (exists r, WriteVersionSave book initID ds (Some st) = (book, r) /\ r <> Ok tt)
     /\ forall p branch,
          branchLog book initID = Ok (p, branch) ->
          hasWriteAccess book branch = Ok tt ->
          WriteVersionSave book initID ds (Some st) = (book, Err ErrRunIDMismatch))
    /\ (run.ID st = dataset.RunID commit ->
        forall p branch,
          branchLog book initID = Ok (p, branch) ->
          hasWriteAccess book branch = Ok tt ->
          exists commitOp,
            deref (store (fst (WriteVersionSave book initID ds (Some st)))) p =
            Some (appendAll [transformRunOp st; commitOp] branch)
            /\ Model (transformRunOp st) = RunModel
            /\ oplog.Ref (transformRunOp st) = run.ID st
            /\ Model commitOp = CommitModel
            /\ Type_ commitOp = OpTypeInit
            /\ oplog.Ref commitOp = dataset.Path ds
            /\ Relations commitOp =
               if String.eqb (run.ID st) ""
               then []
               else [String.append runIDRelPrefix (run.ID st)]).
Proof.
  intros PrivKey PubKey Filesystem C book initID ds st commit Hc. split.
  - intros Hne.
    assert (Hmis : String.eqb (run.ID st) (dataset.RunID commit) = false)
      by (apply String.eqb_neq; exact Hne).
    split.
    + unfold WriteVersionSave.
      destruct (branchLog book initID) as [[p branch]|e|]; cbn [attempt];
        [| eexists; split; [reflexivity|discriminate] .. ].
      destruct (hasWriteAccess book branch) as [[]|e|]; cbn [attempt];
        [| eexists; split; [reflexivity|discriminate] .. ].
      rewrite Hc, Hmis. cbn [negb attempt].
      eexists; split; [reflexivity|discriminate].
    + intros p branch Hb Ha. unfold WriteVersionSave. rewrite Hb. cbn [attempt].
      rewrite Ha. cbn [attempt]. rewrite Hc, Hmis. reflexivity.
  - intros Heq p branch Hb Ha.
    assert (Hops : appendedOps (VersionSave ds (Some st)) =
                   Some [transformRunOp st;
                         {| Type_ := OpTypeInit; Model := CommitModel;
                            oplog.Ref := dataset.Path ds; Prev := dataset.PreviousPath ds;
                            Relations :=
                              if negb (String.eqb (dataset.RunID commit) "")
                              then [String.append runIDRelPrefix (dataset.RunID commit)]
                              else [];
                            oplog.Name := ""; oplog.AuthorID := "";
                            Timestamp := dataset.Timestamp commit;
                            Size := match dataset.Structure_ ds with
                                    | Some structure => dataset.Length structure
                                    | None => 0
                                    end;
                            Note := dataset.Title commit |}]).
    { cbn [appendedOps]. unfold versionSaveOp. rewrite Hc.
      rewrite (proj2 (String.eqb_eq _ _) Heq). reflexivity. }
    eexists. split.
    + apply (runWrite_appends book initID (VersionSave ds (Some st)) p branch _ Hb Ha Hops).
      reflexivity.
    + cbn [Model Type_ oplog.Ref Relations transformRunOp]. rewrite <- Heq.
      destruct (String.eqb (run.ID st) ""); repeat split; reflexivity.
Qed.

Lemma version_save_with_run_witness :
  branchLog Sample.moviesBook Sample.moviesID
  = Ok ([0; 0; 0]%nat, Sample.logAt Sample.moviesBook [0; 0; 0]%nat)
  /\ WriteVersionSave Sample.moviesBook Sample.moviesID
       (Sample.versionOfRun "/ipfs/Qa" "" "t1" "r1" 1000) (Some (Sample.runState "r2"))
     = (Sample.moviesBook, Err ErrRunIDMismatch)
  /\ exists commitOp,
       deref (store (fst (WriteVersionSave Sample.moviesBook Sample.moviesID
                            (Sample.versionOfRun "/ipfs/Qa" "" "t1" "r1" 1000)
                            (Some (Sample.runState "r1"))))) [0; 0; 0]%nat
       = Some (appendAll [transformRunOp (Sample.runState "r1"); commitOp]
                 (Sample.logAt Sample.moviesBook [0; 0; 0]%nat))
       /\ Relations commitOp = ["runID:r1"].
Proof.
  assert (Hb : branchLog Sample.moviesBook Sample.moviesID
               = Ok ([0; 0; 0]%nat, Sample.logAt Sample.moviesBook [0; 0; 0]%nat))
    by (vm_compute; reflexivity).
  assert (Ha : hasWriteAccess Sample.moviesBook (Sample.logAt Sample.moviesBook [0; 0; 0]%nat)
               = Ok tt) by (vm_compute; reflexivity).
  assert (Hne : run.ID (Sample.runState "r2") <> "r1") by (vm_compute; discriminate).
  split; [exact Hb|].
  split.
  - exact (proj2 (proj1 (version_save_with_run Sample.moviesBook Sample.moviesID
                           (Sample.versionOfRun "/ipfs/Qa" "" "t1" "r1" 1000)
                           (Sample.runState "r2") (dataset.mkCommit 1000 "t1" "r1") eq_refl)
                    Hne) _ _ Hb Ha).
  - destruct (proj2 (version_save_with_run Sample.moviesBook Sample.moviesID
                       (Sample.versionOfRun "/ipfs/Qa" "" "t1" "r1" 1000)
                       (Sample.runState "r1") (dataset.mkCommit 1000 "t1" "r1") eq_refl)
                eq_refl _ _ Hb Ha) as (commitOp & Hd & _ & _ & _ & _ & _ & Hrel).
    exists commitOp. split; [exact Hd | exact Hrel].
Defined.

(** C10, as stated, fails for the empty run id: the ids agree and two ops
    are appended, but the commit op carries no relation at all, so "runID:"
    followed by the run id is not among its relations. *)
Lemma version_save_empty_run_id_counterexample :
  let st := Sample.runState "" in
  let ds := Sample.versionOfRun "/ipfs/Qa" "" "t1" "" 1000 in
  let after := WriteVersionSave Sample.moviesBook Sample.moviesID ds (Some st) in
  option_map dataset.RunID (dataset.Commit_ ds) = Some (run.ID st)
  /\ snd after = Ok tt
  /\ exists runOp commitOp,
       option_map Ops (deref (store (fst after)) [0; 0; 0]%nat)
       = Some (Ops (Sample.logAt Sample.moviesBook [0; 0; 0]%nat) ++ [runOp; commitOp])
       /\ Model runOp = RunModel
       /\ Model commitOp = CommitModel /\ Type_ commitOp = OpTypeInit
       /\ Relations commitOp = []
       /\ ~ In (String.append runIDRelPrefix (run.ID st)) (Relations commitOp).
Proof.
  cbv zeta. split; [vm_compute; reflexivity|]. split; [vm_compute; reflexivity|].
  eexists _, _. split; [vm_compute; reflexivity|].
  repeat split; try reflexivity. intros H. exact H.
Qed.

(** * Further facts about the book *)

Lemma setLogs_same lg : setLogs (Logs lg) lg = lg.
Proof. destruct lg; reflexivity. Qed.

Lemma update_cons f logs i p :
  update f logs (i :: p) =
  alter (fun lg => match p with [] => f lg | _ :: _ => setLogs (update f (Logs lg) p) lg end) i logs.
Proof. reflexivity. Qed.

(** The pointer part of a search through a list is the same after a change
    of one element that keeps the pointer part of its own result. *)
Lemma first_some_from_alter_fst {A P B} (F : nat -> A -> option (P * B)) (g : A -> A) (i : nat) :
  forall (l : list A) n,
    (forall x, l !! i = Some x -> fst <$> F (n + i)%nat (g x) = fst <$> F (n + i)%nat x) ->
    fst <$> first_some_from F n (alter g i l) = fst <$> first_some_from F n l.
Proof.
  induction i as [|i IH]; intros [|a l] n H; try reflexivity.
  - cbn [alter list_alter first_some_from].
    specialize (H a eq_refl). rewrite Nat.add_0_r in H.
    destruct (F n (g a)) as [[q b]|], (F n a) as [[q' b']|]; simpl in *; congruence.
  - change (alter g (S i) (a :: l)) with (a :: alter g i l).
    cbn [first_some_from]. destruct (F n a); [reflexivity|].
    apply IH. intros x Hx. rewrite Nat.add_succ_comm. apply H. exact Hx.
Qed.

Section Stability.

Variable Hash : Op -> string.

Lemma Log_ID_setLogs logs lg : Log_ID Hash (setLogs logs lg) = Log_ID Hash lg.
Proof. reflexivity. Qed.

Lemma Log_find_keeps id f x :
  Log_ID Hash (f x) = Log_ID Hash x -> Logs (f x) = Logs x ->
  fst <$> Log_find Hash id (f x) = fst <$> Log_find Hash id x.
Proof.
  intros Hid Hl. rewrite !Log_find_unfold, Hid, Hl.
  destruct (String.eqb (Log_ID Hash x) id); reflexivity.
Qed.

Lemma Log_find_update id f x : forall p lg,
  deref (Logs lg) p = Some x ->
  Log_ID Hash (f x) = Log_ID Hash x -> Logs (f x) = Logs x ->
  fst <$> Log_find Hash id (setLogs (update f (Logs lg) p) lg) = fst <$> Log_find Hash id lg.
Proof.
  induction p as [|i p IH]; intros lg Hd Hid Hl; [discriminate|].
  rewrite !Log_find_unfold, Log_ID_setLogs.
  destruct (String.eqb (Log_ID Hash lg) id); [reflexivity|].
  unfold setLogs at 1. cbn [Logs]. rewrite update_cons.
  apply first_some_from_alter_fst. intros y Hy. cbn [Nat.add].
  assert (E : fst <$> Log_find Hash id
                (match p with [] => f y | _ :: _ => setLogs (update f (Logs y) p) y end)
              = fst <$> Log_find Hash id y).
  { destruct p as [|j p].
    - rewrite deref_top, Hy in Hd. injection Hd as ->. apply Log_find_keeps; assumption.
    - rewrite deref_below, Hy in Hd. apply IH; assumption. }
  destruct (Log_find Hash id _) as [[q b]|], (Log_find Hash id y) as [[q' b']|];
    simpl in *; congruence.
Qed.

(** Lookup by id after a change of one log that keeps the id and the
    children of that log: the same place is found. *)
Lemma Journal_Get_update logs id f p x q found :
  deref logs p = Some x ->
  Log_ID Hash (f x) = Log_ID Hash x -> Logs (f x) = Logs x ->
  Journal_Get Hash logs id = Ok (q, found) ->
  exists found', Journal_Get Hash (update f logs p) id = Ok (q, found')
                 /\ deref (update f logs p) q = Some found'.
Proof.
  intros Hd Hid Hl Hg.
  assert (E : fst <$> first_some_from
                (fun i lg => match Log_find Hash id lg with
                             | Some (p, found) => Some (i :: p, found)
                             | None => None end) 0%nat (update f logs p)
              = Some q).
  { destruct p as [|i p]; [discriminate|]. rewrite update_cons.
    rewrite first_some_from_alter_fst.
    - unfold Journal_Get in Hg. destruct (first_some_from _ 0%nat logs) as [[q' b]|];
        [|discriminate]. injection Hg as -> ->. reflexivity.
    - intros y Hy. cbn [Nat.add].
      assert (E : fst <$> Log_find Hash id
                    (match p with [] => f y | _ :: _ => setLogs (update f (Logs y) p) y end)
                  = fst <$> Log_find Hash id y).
      { destruct p as [|j p].
        - rewrite deref_top, Hy in Hd. injection Hd as ->. apply Log_find_keeps; assumption.
        - rewrite deref_below, Hy in Hd. apply (Log_find_update id f x); assumption. }
      destruct (Log_find Hash id _) as [[q1 b]|], (Log_find Hash id y) as [[q' b']|];
        simpl in *; congruence. }
  destruct (first_some_from _ 0%nat (update f logs p)) as [[q' found']|] eqn:E'; [|discriminate].
  simpl in E. injection E as ->. exists found'.
  assert (G : Journal_Get Hash (update f logs p) id = Ok (q, found'))
    by (unfold Journal_Get; rewrite E'; reflexivity).
  split; [exact G|]. apply (Journal_Get_sound _ _ _ _ _ G).
Qed.

End Stability.

Lemma deref_update_prefix f i : forall q logs lg,
  deref logs q = Some lg ->
  deref (update f logs (q ++ [i])) q = Some (setLogs (alter f i (Logs lg)) lg).
Proof.
  induction q as [|k q IH]; intros logs lg H; [discriminate|].
  destruct q as [|j q].
  - rewrite deref_top in H. cbn [app]. rewrite update_cons, deref_top.
    rewrite list_lookup_alter_eq, H. reflexivity.
  - rewrite deref_below in H. change ((k :: j :: q) ++ [i]) with (k :: j :: (q ++ [i])).
    rewrite update_cons, deref_below, list_lookup_alter_eq.
    destruct (logs !! k) as [l|]; [|discriminate]. cbn [fmap option_fmap option_map].
    unfold setLogs at 1. cbn [Logs]. 
    change (j :: q ++ [i]) with ((j :: q) ++ [i]). apply IH. exact H.
Qed.

Section MoreDerivation.
Variable growcap : nat -> nat.
Variable ref : Ref.

Lemma step_ignored collapse st op :
  ignoredOp op -> branchToVersionInfos_step growcap ref collapse st op = Ok st.
Proof.
  intros (H1 & H2 & H3). destruct st as [refs d]. unfold branchToVersionInfos_step.
  destruct (N.eqb_spec (Model op) CommitModel); [contradiction|].
  destruct (N.eqb_spec (Model op) RunModel); [contradiction|].
  destruct (N.eqb_spec (Model op) PushModel); [contradiction|]. reflexivity.
Qed.

Lemma loop_plain_saves collapse (ops : list Op) : forall refs d,
  Forall (fun op => ignoredOp op \/ isPlainSave op) ops ->
  exists refs',
    branchToVersionInfos_loop growcap ref collapse (refs, d) ops = Ok (refs', d)
    /\ visible refs' = visible refs ++ map (versionInfoFromOp ref) (filter (fun op => isCommitOp op = true) ops).
Proof.
  induction ops as [|op ops IH]; intros refs d H.
  - exists refs. simpl. rewrite app_nil_r. split; reflexivity.
  - inversion H as [|? ? Hop Hrest]; subst. cbn [branchToVersionInfos_loop].
    destruct Hop as [Hi|Hs].
    + rewrite step_ignored by exact Hi. destruct (IH refs d Hrest) as (refs' & -> & Hv).
      exists refs'. split; [reflexivity|]. rewrite Hv. f_equal.
      rewrite filter_cons. destruct (decide _) as [E|E]; [|reflexivity].
      destruct Hi as [Hi _]. unfold isCommitOp in E. apply N.eqb_eq in E. contradiction.
    + destruct Hs as (HM & HT & HR). rewrite step_plain_save by assumption.
      destruct (IH (sappend growcap refs (versionInfoFromOp ref op)) d Hrest) as (refs' & -> & Hv).
      exists refs'. split; [reflexivity|]. rewrite Hv, visible_sappend, <- app_assoc. f_equal.
      rewrite filter_cons. destruct (decide _) as [E|E]; [reflexivity|].
      exfalso. apply E. unfold isCommitOp. rewrite HM. reflexivity.
Qed.

Lemma finish_window st offset limit all :
  branchToVersionInfos_finish st 0 (-1) = Ok all ->
  (0 <= offset -> limit = -1 \/ 0 <= limit ->
   branchToVersionInfos_finish st offset limit =
   Ok (if limit =? -1 then drop (Z.to_nat offset) all
       else take (Z.to_nat limit) (drop (Z.to_nat offset) all)))
  /\ (offset < 0 -> branchToVersionInfos_finish st offset limit = Panic)
  /\ (0 <= offset -> limit < -1 -> branchToVersionInfos_finish st offset limit = Panic).
Proof.
  destruct st as [refs d]. unfold branchToVersionInfos_finish.
  destruct (if 0 <? d then if d <? slen refs then sliceTo refs (slen refs - d) else Ok emptySlice else Ok refs)
    as [r| |]; try discriminate.
  set (rv := reverseInPlace (visible r)).
  unfold sliceFrom, slen. cbn [visible spare].
  destruct (Z.ltb_spec (Z.of_nat (length rv)) 0) as [?|_]; [lia|].
  destruct (Z.leb_spec 0 0) as [_|?]; [|lia].
  destruct (Z.leb_spec 0 (Z.of_nat (length rv))) as [_|?]; [|lia].
  cbn [andb visible]. rewrite andb_false_r. change (Z.to_nat 0) with 0%nat.
  rewrite drop_0. intros [= <-].
  split; [|split].
  - intros Hoff Hlim.
    assert (Hdrop : drop (Z.to_nat (if Z.of_nat (length rv) <? offset then Z.of_nat (length rv) else offset)) rv
                    = drop (Z.to_nat offset) rv).
    { destruct (Z.ltb_spec (Z.of_nat (length rv)) offset); [|reflexivity].
      rewrite Nat2Z.id, drop_all. symmetry. apply drop_ge. lia. }
    assert (Hin : ((0 <=? (if Z.of_nat (length rv) <? offset then Z.of_nat (length rv) else offset))
                   && ((if Z.of_nat (length rv) <? offset then Z.of_nat (length rv) else offset)
                         <=? Z.of_nat (length rv))) = true).
    { destruct (Z.ltb_spec (Z.of_nat (length rv)) offset); apply andb_true_iff; split;
        apply Z.leb_le; lia. }
    rewrite Hin, Hdrop. cbn [visible spare].
    destruct Hlim as [->|Hlim].
    + rewrite andb_false_r. reflexivity.
    + destruct (Z.eqb_spec limit (-1)); [lia|]. rewrite andb_true_r.
      destruct (Z.ltb_spec limit (Z.of_nat (length (drop (Z.to_nat offset) rv)))) as [Hlt|Hge].
      * unfold sliceTo, scap. cbn [visible spare].
        destruct (Z.leb_spec 0 limit); [|lia].
        destruct (Z.leb_spec limit (Z.of_nat (length (drop (Z.to_nat offset) rv) + length (spare r))));
          [|lia].
        cbn [andb visible]. rewrite take_app_le by lia. reflexivity.
      * rewrite take_ge by lia. reflexivity.
  - intros Hneg.
    destruct (Z.ltb_spec (Z.of_nat (length rv)) offset); [lia|].
    destruct (Z.leb_spec 0 offset); [lia|]. reflexivity.
  - intros Hoff Hlim.
    destruct (Z.ltb_spec (Z.of_nat (length rv)) offset) as [Hbig|Hsmall].
    + destruct (Z.leb_spec 0 (Z.of_nat (length rv))); [|lia].
      destruct (Z.leb_spec (Z.of_nat (length rv)) (Z.of_nat (length rv))); [|lia].
      cbn [andb visible spare].
      destruct (Z.ltb_spec limit (Z.of_nat (length (drop (Z.to_nat (Z.of_nat (length rv))) rv)))); [|lia].
      destruct (Z.eqb_spec limit (-1)); [lia|]. cbn [andb negb].
      unfold sliceTo. destruct (Z.leb_spec 0 limit); [lia|]. reflexivity.
    + destruct (Z.leb_spec 0 offset); [|lia].
      destruct (Z.leb_spec offset (Z.of_nat (length rv))); [|lia].
      cbn [andb visible spare].
      destruct (Z.ltb_spec limit (Z.of_nat (length (drop (Z.to_nat offset) rv)))); [|lia].
      destruct (Z.eqb_spec limit (-1)); [lia|]. cbn [andb negb].
      unfold sliceTo. destruct (Z.leb_spec 0 limit); [lia|]. reflexivity.
Qed.

End MoreDerivation.

(** ** Changes at a pointer *)
Lemma update_update g f : forall p logs,
  update g (update f logs p) p = update (fun lg => g (f lg)) logs p.
Proof.
  induction p as [|i p IH]; intros logs; [reflexivity|].
  rewrite !update_cons. rewrite list_alter_alter_eq.
  apply list_alter_ext; [|reflexivity]. intros x _. 
  destruct p as [|j p]; [reflexivity|].
  cbn [compose]. unfold setLogs. cbn [Ops Logs Signature]. f_equal. apply IH.
Qed.

Lemma update_same h : forall p logs lg,
  deref logs p = Some lg -> h lg = lg -> update h logs p = logs.
Proof.
  induction p as [|i p IH]; intros logs lg Hd Hh; [reflexivity|].
  rewrite update_cons. apply list_eq. intros k.
  destruct (decide (k = i)) as [->|Hne].
  - rewrite list_lookup_alter_eq.
    destruct p as [|j p].
    + rewrite deref_top in Hd. rewrite Hd. simpl. congruence.
    + rewrite deref_below in Hd. destruct (logs !! i) as [x|]; [|discriminate].
      cbn [fmap option_fmap option_map]. f_equal. rewrite (IH _ _ Hd Hh). apply setLogs_same.
  - rewrite list_lookup_alter_ne by congruence. reflexivity.
Qed.

Lemma update_ext_at f g : forall p logs lg,
  deref logs p = Some lg -> f lg = g lg -> update f logs p = update g logs p.
Proof.
  induction p as [|i p IH]; intros logs lg Hd Hh; [reflexivity|].
  rewrite !update_cons. apply list_eq. intros k.
  destruct (decide (k = i)) as [->|Hne].
  - rewrite !list_lookup_alter_eq.
    destruct p as [|j p].
    + rewrite deref_top in Hd. rewrite Hd. simpl. congruence.
    + rewrite deref_below in Hd. destruct (logs !! i) as [x|]; [|discriminate].
      cbn [fmap option_fmap option_map]. f_equal. rewrite (IH _ _ Hd Hh). reflexivity.
  - rewrite !list_lookup_alter_ne by congruence. reflexivity.
Qed.

Lemma update_ext f g : forall p logs,
  (forall x, f x = g x) -> update f logs p = update g logs p.
Proof.
  induction p as [|i p IH]; intros logs H; [reflexivity|].
  rewrite !update_cons. apply list_alter_ext; [|reflexivity]. intros x _.
  destruct p as [|j p]; [apply H|]. rewrite (IH _ H). reflexivity.
Qed.

(** ** Names after a change below *)
Lemma Log_Name_setLogs logs lg : Log_Name (setLogs logs lg) = Log_Name lg.
Proof. reflexivity. Qed.

Lemma findNamed_alter g i name logs k lg :
  (forall x, Log_Name (g x) = Log_Name x) ->
  findNamed name logs = Some (k, lg) ->
  findNamed name (alter g i logs) = Some (k, if decide (k = i) then g lg else lg).
Proof.
  intros Hg H. unfold findNamed in *.
  apply first_some_from_Some in H as (k' & x & Hk & Hf & Hbefore). simpl in Hf.
  destruct (String.eqb_spec (Log_Name x) name) as [Hn|]; [|discriminate].
  injection Hf as <- <-.
  apply (first_some_from_hit _ _ 0%nat k' (if decide (k' = i) then g x else x)).
  - destruct (decide (k' = i)) as [->|Hne].
    + rewrite list_lookup_alter_eq, Hk. reflexivity.
    + rewrite list_lookup_alter_ne by congruence. exact Hk.
  - simpl. destruct (decide (k' = i)); rewrite ?Hg, Hn, String.eqb_refl; reflexivity.
  - intros k'' y Hlt Hy. simpl.
    destruct (decide (k'' = i)) as [->|Hne].
    + rewrite list_lookup_alter_eq in Hy.
      destruct (logs !! i) as [y0|] eqn:E; [|discriminate]. injection Hy as <-.
      specialize (Hbefore i y0 Hlt E). simpl in Hbefore. rewrite Hg.
      destruct (String.eqb (Log_Name y0) name); [discriminate|reflexivity].
    + rewrite list_lookup_alter_ne in Hy by congruence.
      specialize (Hbefore k'' y Hlt Hy). simpl in Hbefore.
      destruct (String.eqb (Log_Name y) name); [discriminate|reflexivity].
Qed.

(** A name path of two segments leads to the same place after a change of
    a log one level further down. *)
Lemma Journal_HeadRef_update_branch logs u n i j dsLog f k :
  Journal_HeadRef logs [u; n] = Ok ([i; j], dsLog) ->
  Journal_HeadRef (update f logs [i; j; k]) [u; n]
  = Ok ([i; j], setLogs (alter f k (Logs dsLog)) dsLog).
Proof.
  intros H. apply Journal_HeadRef_two in H as (i' & j' & userLog & Hp & Hu & Hn).
  injection Hp as <- <-.
  unfold Journal_HeadRef. cbn [Log_HeadRef]. rewrite !update_cons.
  rewrite (findNamed_alter _ i u logs i userLog) by (intros; reflexivity || exact Hu).
  rewrite decide_True by reflexivity. unfold setLogs at 1. cbn [Logs].
  rewrite update_cons.
  rewrite (findNamed_alter _ j n (Logs userLog) j dsLog) by (intros; reflexivity || exact Hn).
  rewrite decide_True by reflexivity. reflexivity.
Qed.

Section RefersFacts.
Context {PrivKey PubKey Filesystem : Type}.
Context {C : Collaborators PrivKey PubKey Filesystem}.
Local Abbreviation Book := (@Book PrivKey Filesystem).

Lemma Log_ID_appendAll ops lg : Ops lg <> [] -> Log_ID Hash (appendAll ops lg) = Log_ID Hash lg.
Proof.
  intros H. destruct lg as [[|o os] l s]; [exfalso; apply H; reflexivity | reflexivity].
Qed.

Lemma hasWriteAccess_Ops (book : Book) lg : hasWriteAccess book lg = Ok tt -> Ops lg <> [].
Proof. unfold hasWriteAccess. destruct (Ops lg); [discriminate|discriminate]. Qed.

Lemma refersTo_RefToInitID (book : Book) ref initID p blog ref' :
  refersTo book ref initID p blog ->
  dsref.Username ref' = dsref.Username ref -> dsref.Name ref' = dsref.Name ref ->
  RefToInitID book ref' = Ok initID.
Proof.
  intros (i & j & dsLog & Hh & Hid & _) Hu Hn. unfold RefToInitID. rewrite Hu, Hn, Hh, Hid.
  reflexivity.
Qed.

Lemma refersTo_branchLog (book : Book) ref initID p blog :
  refersTo book ref initID p blog -> branchLog book initID = Ok (p, blog).
Proof.
  intros (i & j & dsLog & _ & _ & Hg & Hl & ->). unfold branchLog. rewrite Hg, Hl. reflexivity.
Qed.

Lemma refersTo_Items (book : Book) ref initID p blog offset limit :
  refersTo book ref initID p blog ->
  Items book ref offset limit = branchToVersionInfos growcap blog ref offset limit true.
Proof.
  intros H. unfold Items.
  rewrite (refersTo_RefToInitID book ref initID p blog
             (mkRef "" (dsref.Username ref) "" (dsref.Name ref) "") H eq_refl eq_refl).
  rewrite (refersTo_branchLog _ _ _ _ _ H). reflexivity.
Qed.

(** A change of the branch log that keeps its first op and its children
    leaves the reference pointing at the changed branch log. *)
Lemma refersTo_update (book book' : Book) ref initID p blog f :
  refersTo book ref initID p blog ->
  Log_ID Hash (f blog) = Log_ID Hash blog -> Logs (f blog) = Logs blog ->
  store book' = update f (store book) p ->
  refersTo book' ref initID p (f blog).
Proof.
  intros (i & j & dsLog & Hh & Hid & Hg & Hl & ->) Hfid Hfl Hs.
  exists i, j, (setLogs (alter f 0%nat (Logs dsLog)) dsLog). rewrite Hs.
  destruct (Journal_Get_sound _ _ _ _ _ Hg) as [Hd _].
  assert (Hb : deref (store book) [i; j; 0%nat] = Some blog).
  { change [i; j; 0%nat] with ([i; j] ++ [0%nat]).
    rewrite (deref_snoc _ _ _ _ Hd), Hl. reflexivity. }
  split; [apply Journal_HeadRef_update_branch; exact Hh|].
  split; [exact Hid|].
  split.
  - destruct (Journal_Get_update Hash _ _ f _ _ _ _ Hb Hfid Hfl Hg) as (found' & Hg' & Hd').
    rewrite Hg'. do 2 f_equal.
    change [i; j; 0%nat] with ([i; j] ++ [0%nat]) in Hd'.
    rewrite (deref_update_prefix f 0%nat _ _ _ Hd) in Hd'. congruence.
  - split; [|reflexivity]. unfold setLogs. cbn [Logs]. rewrite Hl. reflexivity.
Qed.

Lemma refersTo_append (book book' : Book) ref initID p blog ops :
  refersTo book ref initID p blog -> Ops blog <> [] ->
  store book' = update (appendAll ops) (store book) p ->
  refersTo book' ref initID p (appendAll ops blog).
Proof.
  intros H Hne Hs. apply (refersTo_update book book' ref initID p blog _ H); auto.
  apply Log_ID_appendAll. exact Hne.
Qed.

Lemma update_Append_appendAll op logs p :
  update (Append op) logs p = update (appendAll [op]) logs p.
Proof. reflexivity. Qed.

(** Once past its checks, an operation other than a push changes the
    journal by its append and by nothing else. *)
Lemma runWrite_store (book : Book) initID w p lg ops :
  targetLog book initID w = Ok (p, lg) ->
  hasWriteAccess book lg = Ok tt ->
  appendedOps w = Some ops ->
  isRemoteOp w = false ->
  store (fst (runWrite book initID w)) = update (appendAll ops) (store book) p.
Proof.
  intros Ht Ha Hops Hremote.
  destruct w; cbn [targetLog] in Ht; cbn [runWrite]; cbn [appendedOps] in Hops;
    try discriminate Hremote.
  - unfold WriteDatasetRename. destruct (IsValidName newName); [|discriminate].
    injection Hops as <-. cbn [negb]. unfold datasetLog in Ht |- *. rewrite Ht.
    cbn [attempt]. rewrite Ha. cbn [attempt]. rewrite save_store. reflexivity.
  - unfold WriteDatasetDelete. injection Hops as <-. unfold datasetLog in Ht |- *.
    rewrite Ht. cbn [attempt]. rewrite Ha. cbn [attempt]. rewrite save_store. reflexivity.
  - unfold WriteVersionSave. rewrite Ht. cbn [attempt]. rewrite Ha. cbn [attempt].
    destruct rs as [st|].
    + destruct (dataset.Commit_ ds) as [commit|] eqn:Ec; [|discriminate].
      destruct (versionSaveOp ds) as [op| |] eqn:Eo; try discriminate.
      destruct (String.eqb (run.ID st) (dataset.RunID commit)); [|discriminate].
      injection Hops as <-. cbn [negb appendTransformRun attempt].
      unfold appendVersionSave. rewrite Eo. cbn [attempt].
      destruct (save_cases (modifyLog (Append op) p (modifyLog (Append (transformRunOp st)) p book)))
        as [[e Hs]|(? & ? & ? & ? & Hs)]; rewrite Hs;
        cbn [attempt fst store Publish modifyLog withStore];
        rewrite update_update; apply update_ext; intros; apply appendAll_two.
    + destruct (versionSaveOp ds) as [op| |] eqn:Eo; try discriminate.
      injection Hops as <-. cbn [attempt]. unfold appendVersionSave. rewrite Eo.
      cbn [attempt].
      destruct (save_cases (modifyLog (Append op) p book))
        as [[e Hs]|(? & ? & ? & ? & Hs)]; rewrite Hs;
        cbn [attempt fst store Publish modifyLog withStore]; reflexivity.
  - unfold WriteTransformRun. rewrite Ht. cbn [attempt]. rewrite Ha. cbn [attempt].
    destruct rs as [st|]; [|discriminate]. injection Hops as <-.
    cbn [appendTransformRun attempt]. rewrite save_store. reflexivity.
  - unfold WriteVersionAmend. rewrite Ht. cbn [attempt]. rewrite Ha. cbn [attempt].
    destruct (dataset.Commit_ ds) as [commit|]; [|discriminate]. injection Hops as <-.
    rewrite save_store. reflexivity.
  - unfold WriteVersionDelete. rewrite Ht. cbn [attempt]. rewrite Ha. cbn [attempt].
    injection Hops as <-.
    destruct (branchToVersionInfos growcap _ _ 0 (-1) false) as [items| |];
      cbn [attempt fst]; try reflexivity.
    rewrite save_store. destruct (last items); reflexivity.
Qed.

End RefersFacts.

Lemma wrap64_small z : - 2 ^ 63 <= z < 2 ^ 63 -> wrap64 z = z.
Proof.
  intros H. unfold wrap64. rewrite Z.mod_small by lia. lia.
Qed.

Lemma reverse_markLast b n vis :
  0 <= n <= Z.of_nat (length vis) ->
  reverse (markLast b n vis)
  = map (setPublished b) (take (Z.to_nat n) (reverse vis)) ++ drop (Z.to_nat n) (reverse vis).
Proof.
  intros H.
  rewrite <- (take_drop (length vis - Z.to_nat n) vis) at 1.
  replace n with (Z.of_nat (length (drop (length vis - Z.to_nat n) vis))) at 1
    by (rewrite length_drop; lia).
  rewrite markLast_app, reverse_app. f_equal.
  - rewrite take_reverse. change map with (@fmap list _). rewrite fmap_reverse. reflexivity.
  - rewrite drop_reverse. reflexivity.
Qed.

Section Collapsed.
Variable growcap : nat -> nat.
Variable ref : Ref.

Lemma derive_all_inv blog l :
  branchToVersionInfos growcap blog ref 0 (-1) true = Ok l ->
  exists refs,
    branchToVersionInfos_loop growcap ref true (emptySlice, 0) (Ops blog) = Ok (refs, 0)
    /\ l = reverse (visible refs).
Proof.
  unfold branchToVersionInfos.
  destruct (branchToVersionInfos_loop growcap ref true (emptySlice, 0) (Ops blog))
    as [[refs d]| |] eqn:E; try discriminate.
  pose proof (loop_collapse_pending _ _ _ _ _ _ E) as ->.
  rewrite finish_all. intros [= <-]. exists refs. split; reflexivity.
Qed.

Lemma derive_all_append blog ops refs :
  branchToVersionInfos_loop growcap ref true (emptySlice, 0) (Ops blog) = Ok (refs, 0) ->
  branchToVersionInfos growcap (appendAll ops blog) ref 0 (-1) true
  = match branchToVersionInfos_loop growcap ref true (refs, 0) ops with
    | Ok (refs', _) => Ok (reverse (visible refs'))
    | Err e => Err e
    | Panic => Panic
    end.
Proof.
  intros H. unfold branchToVersionInfos, appendAll. cbn [Ops].
  rewrite loop_app, H.
  destruct (branchToVersionInfos_loop growcap ref true (refs, 0) ops) as [[refs' d]| |] eqn:E;
    try reflexivity.
  pose proof (loop_collapse_pending _ _ _ _ _ _ E) as ->. apply finish_all.
Qed.

Lemma step_run collapse refs d op :
  Model op = RunModel ->
  branchToVersionInfos_step growcap ref collapse (refs, d) op
  = Ok (sappend growcap refs (runItemFromOp ref op), d).
Proof. intros HM. unfold branchToVersionInfos_step. rewrite HM. reflexivity. Qed.

Lemma step_commit_of_run collapse refs d op vis li :
  Model op = CommitModel -> Type_ op = OpTypeInit -> commitOpRunID op <> "" ->
  visible refs = vis ++ [li] -> RunID li = commitOpRunID op ->
  branchToVersionInfos_step growcap ref collapse (refs, d) op
  = Ok (mkSlice (vis ++ [addCommitDetailsToRunItem li op]) (spare refs), d).
Proof.
  intros HM HT HR Hv Hli. unfold branchToVersionInfos_step. rewrite HM, HT.
  change (CommitModel =? CommitModel)%N with true. cbv iota.
  destruct (String.eqb_spec (commitOpRunID op) "") as [|_]; [contradiction|].
  assert (Hlen : slen refs = Z.of_nat (length vis) + 1).
  { unfold slen. rewrite Hv, length_app. simpl. lia. }
  destruct (Z.ltb_spec 0 (slen refs)); [|lia]. cbn [negb andb].
  unfold sliceIndex.
  destruct (Z.leb_spec 0 (slen refs - 1)); [|lia].
  destruct (Z.ltb_spec (slen refs - 1) (slen refs)); [|lia]. cbn [andb].
  replace (Z.to_nat (slen refs - 1)) with (length vis) by lia.
  rewrite Hv, lookup_app_r by lia. rewrite Nat.sub_diag. cbn [lookup list_lookup].
  rewrite Hli, String.eqb_refl.
  rewrite sliceAlter_ok by lia.
  replace (Z.to_nat (slen refs - 1)) with (length vis + 0)%nat by lia.
  rewrite Hv, alter_app_r. reflexivity.
Qed.

Lemma step_amend collapse refs d op :
  Model op = CommitModel -> Type_ op = OpTypeAmend ->
  branchToVersionInfos_step growcap ref collapse (refs, d) op
  = match reverse (visible refs) with
    | [] => Panic
    | _ :: older =>
        Ok (mkSlice (reverse (versionInfoFromOp ref op :: older)) (spare refs), 0)
    end.
Proof.
  intros HM HT. unfold branchToVersionInfos_step. rewrite HM, HT.
  change (CommitModel =? CommitModel)%N with true. cbv iota.
  destruct (visible refs) as [|x vis] eqn:Hv using rev_ind.
  - rewrite sliceAlter_panic by (unfold slen; rewrite Hv; simpl; lia). reflexivity.
  - clear IHvis. rewrite reverse_snoc.
    assert (Hlen : slen refs = Z.of_nat (length vis) + 1).
    { unfold slen. rewrite Hv, length_app. simpl. lia. }
    rewrite sliceAlter_ok by lia.
    replace (Z.to_nat (slen refs - 1)) with (length vis + 0)%nat by lia.
    rewrite Hv, alter_app_r. cbn [alter list_alter].
    rewrite reverse_cons, reverse_involutive. reflexivity.
Qed.

Lemma step_remove_collapsed refs d op :
  Model op = CommitModel -> Type_ op = OpTypeRemove ->
  0 <= Size op < 2 ^ 63 -> slen refs < 2 ^ 63 ->
  branchToVersionInfos_step growcap ref true (refs, d) op
  = if Size op <=? slen refs
    then Ok (mkSlice (take (Z.to_nat (slen refs - Size op)) (visible refs))
               (drop (Z.to_nat (slen refs - Size op)) (visible refs) ++ spare refs), d)
    else Panic.
Proof.
  intros HM HT Hn Hlen. unfold branchToVersionInfos_step. rewrite HM, HT.
  change (CommitModel =? CommitModel)%N with true. cbv iota.
  assert (0 <= slen refs) by (unfold slen; lia).
  rewrite wrap64_small by lia. unfold sliceTo.
  destruct (Z.leb_spec (Size op) (slen refs)).
  - destruct (Z.leb_spec 0 (slen refs - Size op)); [|lia].
    destruct (Z.leb_spec (slen refs - Size op) (scap refs)); [|unfold scap, slen in *; lia].
    cbn [andb]. rewrite take_app_le, drop_app_le by (unfold slen in *; lia). reflexivity.
  - destruct (Z.leb_spec 0 (slen refs - Size op)); [lia|]. reflexivity.
Qed.

End Collapsed.

Lemma latestSavePath_last_commit lg pre op :
  Model op = CommitModel -> Type_ op <> OpTypeRemove ->
  latestSavePath (appendAll (pre ++ [op]) lg) = oplog.Ref op.
Proof.
  intros HM HT. unfold latestSavePath, appendAll. cbn [Ops].
  rewrite app_assoc, reverse_snoc. cbn [latestSavePath_scan]. rewrite HM.
  change (CommitModel =? CommitModel)%N with true. cbv iota.
  destruct (Type_ op); try reflexivity. contradiction.
Qed.

Section ItemsAfterWrites.
Context {PrivKey PubKey Filesystem : Type}.
Context {C : Collaborators PrivKey PubKey Filesystem}.
Local Abbreviation Book := (@Book PrivKey Filesystem).

(** What [Items] returns once an operation on the branch log has made its
    append, from the state the derivation had reached before. *)
Lemma Items_after_runWrite (book : Book) ref initID p blog w ops older :
  refersTo book ref initID p blog ->
  hasWriteAccess book blog = Ok tt ->
  targetLog book initID w = branchLog book initID ->
  appendedOps w = Some ops ->
  isRemoteOp w = false ->
  Items book ref 0 (-1) = Ok older ->
  exists refs,
    older = reverse (visible refs)
    /\ refersTo (fst (runWrite book initID w)) ref initID p (appendAll ops blog)
    /\ Items (fst (runWrite book initID w)) ref 0 (-1)
       = match branchToVersionInfos_loop growcap ref true (refs, 0) ops with
         | Ok (refs', _) => Ok (reverse (visible refs'))
         | Err e => Err e
         | Panic => Panic
         end.
Proof.
  intros Hr Ha Ht Hops Hremote Hitems.
  pose proof (refersTo_branchLog _ _ _ _ _ Hr) as Hb.
  rewrite <- Ht in Hb.
  pose proof (runWrite_store book initID w p blog ops Hb Ha Hops Hremote) as Hs.
  pose proof (refersTo_append book _ ref initID p blog ops Hr (hasWriteAccess_Ops _ _ Ha) Hs)
    as Hr'.
  rewrite (refersTo_Items _ _ _ _ _ _ _ Hr) in Hitems.
  apply derive_all_inv in Hitems as (refs & Hloop & ->).
  exists refs. split; [reflexivity|]. split; [exact Hr'|].
  rewrite (refersTo_Items _ _ _ _ _ _ _ Hr').
  apply derive_all_append. exact Hloop.
Qed.

End ItemsAfterWrites.

Section SaveFacts.
Context {PrivKey PubKey Filesystem : Type}.
Context {C : Collaborators PrivKey PubKey Filesystem}.
Local Abbreviation Book := (@Book PrivKey Filesystem).

(** X6. After [WriteVersionSave] of a version that names no run, on a dataset
    the author may write, [Items] lists the saved version first - its path,
    commit time and title, the length of its structure as body size, not
    published - followed by the items listed before. *)
Theorem save_puts_version_first (book : Book) ref initID p blog ds commit older :
  refersTo book ref initID p blog ->
  hasWriteAccess book blog = Ok tt ->
  dataset.Commit_ ds = Some commit ->
  dataset.RunID commit = "" ->
  Items book ref 0 (-1) = Ok older ->
  Items (fst (WriteVersionSave book initID ds None)) ref 0 (-1)
  = Ok ({| viUsername := dsref.Username ref;
           viProfileID := dsref.ProfileID ref;
           viName := dsref.Name ref;
           viPath := dataset.Path ds;
           Published := false;
           CommitTime := dataset.Timestamp commit;
           BodySize := match dataset.Structure_ ds with
                       | Some structure => dataset.Length structure
                       | None => 0
                       end;
           CommitTitle := dataset.Title commit;
           RunID := ""; RunStatus := ""; RunDuration := 0 |} :: older).
Proof.
  intros Hr Ha Hc Hrun Hitems.
  assert (Hop : versionSaveOp ds
                = Ok {| Type_ := OpTypeInit; Model := CommitModel;
                        oplog.Ref := dataset.Path ds; Prev := dataset.PreviousPath ds;
                        Relations := []; oplog.Name := ""; oplog.AuthorID := "";
                        Timestamp := dataset.Timestamp commit;
                        Size := match dataset.Structure_ ds with
                                | Some structure => dataset.Length structure
                                | None => 0
                                end;
                        Note := dataset.Title commit |})
    by (unfold versionSaveOp; rewrite Hc, Hrun; reflexivity).
  destruct (Items_after_runWrite book ref initID p blog (VersionSave ds None) _ older
              Hr Ha eq_refl ltac:(cbn [appendedOps]; rewrite Hop; reflexivity) eq_refl Hitems)
    as (refs & -> & _ & Hi).
  cbn [runWrite] in Hi. rewrite Hi. cbn [branchToVersionInfos_loop].
  rewrite step_plain_save by reflexivity.
  rewrite visible_sappend, reverse_snoc. reflexivity.
Qed.

End SaveFacts.

Lemma prefix_append pre s : String.prefix pre (String.append pre s) = true.
Proof.
  induction pre as [|a pre IH]; [destruct s; reflexivity|]. simpl.
  destruct (Ascii.ascii_dec a a); [exact IH|congruence].
Qed.

Lemma substring_all s : String.substring 0 (String.length s) s = s.
Proof. induction s as [|a s IH]; [reflexivity|]. simpl. rewrite IH. reflexivity. Qed.

Lemma substring_append pre s n :
  String.substring (String.length pre) n (String.append pre s) = String.substring 0 n s.
Proof. induction pre as [|a pre IH]; [reflexivity|]. simpl. exact IH. Qed.

Lemma length_append s1 s2 :
  String.length (String.append s1 s2) = (String.length s1 + String.length s2)%nat.
Proof. induction s1 as [|a s1 IH]; [reflexivity|]. simpl. rewrite IH. reflexivity. Qed.

Lemma TrimPrefix_append pre s : TrimPrefix (String.append pre s) pre = s.
Proof.
  unfold TrimPrefix, HasPrefix. rewrite prefix_append, substring_append, length_append.
  replace (String.length pre + String.length s - String.length pre)%nat
    with (String.length s) by lia.
  apply substring_all.
Qed.

(** The run id a commit op carries is the one [appendVersionSave] wrote. *)
Lemma commitOpRunID_versionSaveOp ds commit op :
  dataset.Commit_ ds = Some commit -> versionSaveOp ds = Ok op ->
  commitOpRunID op = dataset.RunID commit.
Proof.
  intros Hc. unfold versionSaveOp. rewrite Hc. intros [= <-].
  unfold commitOpRunID. cbn [Relations].
  destruct (String.eqb_spec (dataset.RunID commit) "") as [->|Hne]; [reflexivity|].
  cbn [negb commitOpRunID_loop]. unfold HasPrefix. rewrite prefix_append.
  apply TrimPrefix_append.
Qed.

Section VersionWriteFacts.
Context {PrivKey PubKey Filesystem : Type}.
Context {C : Collaborators PrivKey PubKey Filesystem}.
Local Abbreviation Book := (@Book PrivKey Filesystem).

(** X10. After [WriteVersionDelete] of [revisions] versions, [Items] lists what
    it listed before without the first [revisions] items; when fewer items
    were listed, [Items] panics from then on. *)
Theorem delete_drops_newest_items (book : Book) ref initID p blog revisions older :
  refersTo book ref initID p blog ->
  hasWriteAccess book blog = Ok tt ->
  Items book ref 0 (-1) = Ok older ->
  0 <= revisions < 2 ^ 63 ->
  Z.of_nat (length older) < 2 ^ 63 ->
  Items (fst (WriteVersionDelete book initID revisions)) ref 0 (-1)
  = if revisions <=? Z.of_nat (length older)
    then Ok (drop (Z.to_nat revisions) older)
    else Panic.
Proof.
  intros Hr Ha Hitems Hn Hlen.
  destruct (Items_after_runWrite book ref initID p blog (VersionDelete revisions) _ older
              Hr Ha eq_refl eq_refl eq_refl Hitems) as (refs & -> & _ & Hi).
  cbn [runWrite] in Hi. rewrite Hi. cbn [branchToVersionInfos_loop].
  rewrite length_reverse in *.
  rewrite step_remove_collapsed by (try reflexivity; unfold slen; cbn [versionDeleteOp Size]; lia).
  cbn [versionDeleteOp Size]. unfold slen.
  destruct (Z.leb_spec revisions (Z.of_nat (length (visible refs)))); [|reflexivity].
  cbn [visible]. rewrite drop_reverse. do 3 f_equal. lia.
Qed.

(** X9. After [WriteVersionAmend], [Items] lists the amended version in the
    place of the newest item, with body size 0, no run and not published,
    and the other items as before; when no item was listed before, [Items]
    panics from then on. *)
Theorem amend_replaces_newest_item (book : Book) ref initID p blog ds commit older :
  refersTo book ref initID p blog ->
  hasWriteAccess book blog = Ok tt ->
  dataset.Commit_ ds = Some commit ->
  Items book ref 0 (-1) = Ok older ->
  Items (fst (WriteVersionAmend book initID ds)) ref 0 (-1)
  = match older with
    | [] => Panic
    | _ :: others =>
        Ok ({| viUsername := dsref.Username ref;
               viProfileID := dsref.ProfileID ref;
               viName := dsref.Name ref;
               viPath := dataset.Path ds;
               Published := false;
               CommitTime := dataset.Timestamp commit;
               BodySize := 0;
               CommitTitle := dataset.Title commit;
               RunID := ""; RunStatus := ""; RunDuration := 0 |} :: others)
    end.
Proof.
  intros Hr Ha Hc Hitems.
  destruct (Items_after_runWrite book ref initID p blog (VersionAmend ds) _ older
              Hr Ha eq_refl ltac:(cbn [appendedOps]; rewrite Hc; reflexivity) eq_refl Hitems)
    as (refs & -> & _ & Hi).
  cbn [runWrite] in Hi. rewrite Hi. cbn [branchToVersionInfos_loop].
  rewrite step_amend by reflexivity.
  destruct (reverse (visible refs)); [reflexivity|].
  cbn [visible]. rewrite reverse_involutive. reflexivity.
Qed.

(** X7. [WriteVersionSave] with a run state whose id is the commit's run id,
    and not empty, adds one item, not two: the first item of [Items] carries
    the commit's path, time, title and body size together with the run's
    id, status and duration. *)
Theorem run_and_commit_are_one_item (book : Book) ref initID p blog ds commit st older :
  refersTo book ref initID p blog ->
  hasWriteAccess book blog = Ok tt ->
  dataset.Commit_ ds = Some commit ->
  run.ID st = dataset.RunID commit ->
  run.ID st <> "" ->
  Items book ref 0 (-1) = Ok older ->
  Items (fst (WriteVersionSave book initID ds (Some st))) ref 0 (-1)
  = Ok ({| viUsername := dsref.Username ref;
           viProfileID := dsref.ProfileID ref;
           viName := dsref.Name ref;
           viPath := dataset.Path ds;
           Published := false;
           CommitTime := dataset.Timestamp commit;
           BodySize := match dataset.Structure_ ds with
                       | Some structure => dataset.Length structure
                       | None => 0
                       end;
           CommitTitle := dataset.Title commit;
           RunID := run.ID st;
           RunStatus := run.Status st;
           RunDuration := run.Duration st |} :: older).
Proof.
  intros Hr Ha Hc Hid Hne Hitems.
  destruct (versionSaveOp ds) as [op| |] eqn:Hop;
    try (unfold versionSaveOp in Hop; rewrite Hc in Hop; discriminate).
  pose proof (commitOpRunID_versionSaveOp ds commit op Hc Hop) as Hrun.
  destruct (Items_after_runWrite book ref initID p blog (VersionSave ds (Some st))
              [transformRunOp st; op] older Hr Ha eq_refl
              ltac:(cbn [appendedOps]; rewrite Hc, Hop, Hid, String.eqb_refl; reflexivity)
              eq_refl Hitems)
    as (refs & -> & _ & Hi).
  cbn [runWrite] in Hi. rewrite Hi. cbn [branchToVersionInfos_loop].
  rewrite step_run by reflexivity.
  unfold versionSaveOp in Hop. rewrite Hc in Hop. injection Hop as <-.
  rewrite (step_commit_of_run growcap ref true _ 0 _ (visible refs)
             (runItemFromOp ref (transformRunOp st)));
    [ | reflexivity | reflexivity | rewrite Hrun; congruence | apply visible_sappend
      | rewrite Hrun; exact Hid ].
  cbn [visible]. rewrite reverse_snoc. reflexivity.
Qed.

End VersionWriteFacts.

Section RemoteFacts.
Context {PrivKey PubKey Filesystem : Type}.
Context {C : Collaborators PrivKey PubKey Filesystem}.
Local Abbreviation Book := (@Book PrivKey Filesystem).

Lemma branchLog_store (b1 b2 : Book) initID :
  store b1 = store b2 -> branchLog b1 initID = branchLog b2 initID.
Proof. intros H. unfold branchLog. rewrite H. reflexivity. Qed.

(** A change of the branch log that keeps its first op and its children
    leaves the dataset id pointing at the changed branch log. *)
Lemma branchLog_update (book book' : Book) initID p blog f :
  branchLog book initID = Ok (p, blog) ->
  Log_ID Hash (f blog) = Log_ID Hash blog -> Logs (f blog) = Logs blog ->
  store book' = update f (store book) p ->
  branchLog book' initID = Ok (p, f blog).
Proof.
  intros Hb Hfid Hfl Hs.
  pose proof (branchLog_sound _ _ _ _ Hb) as Hd.
  unfold branchLog in *. rewrite Hs.
  destruct (Journal_Get Hash (store book) initID) as [[q dsLog]| |] eqn:Hg; try discriminate.
  destruct (Logs dsLog) as [|b [|b' rest]] eqn:Hl; try discriminate.
  injection Hb as <- <-.
  destruct (Journal_Get_sound _ _ _ _ _ Hg) as [Hq _].
  destruct (Journal_Get_update Hash _ _ f _ _ _ _ Hd Hfid Hfl Hg) as (found' & Hg' & Hd').
  rewrite Hg'. rewrite (deref_update_prefix f 0%nat _ _ _ Hq) in Hd'.
  injection Hd' as <-. unfold setLogs. cbn [Logs]. rewrite Hl. reflexivity.
Qed.

Lemma dropLastOp_Append op lg : dropLastOp (Append op lg) = lg.
Proof.
  destruct lg as [ops logs sig]. unfold dropLastOp, Append. cbn [Ops Logs Signature].
  rewrite length_app. cbn [length]. rewrite take_app_le by lia.
  rewrite take_ge by lia. reflexivity.
Qed.

(** The successful run of a push or unpublish: the book it leaves and the
    rollback it hands out. *)
Lemma writeRemote_ok (book : Book) t initID revisions remoteAddr now book1 res :
  writeRemote t book initID revisions remoteAddr now = (book1, res) ->
  prErr res = Ok tt ->
  exists p blog,
    branchLog book initID = Ok (p, blog)
    /\ hasWriteAccess book blog = Ok tt
    /\ store book1 = update (Append (remoteOp t revisions remoteAddr now)) (store book) p
    /\ pk book1 = pk book
    /\ prRollback res = Some (mkRollback initID false None)
    /\ exists sparseLog, prLog res = Some sparseLog
                         /\ UserDatasetBranchesLog book1 initID = Ok sparseLog.
Proof.
  unfold writeRemote.
  destruct (branchLog book initID) as [[p blog]|e|] eqn:Hb;
    [|intros [= <- <-]; discriminate..].
  destruct (hasWriteAccess book blog) as [[]|e|] eqn:Ha;
    [|intros [= <- <-]; discriminate..].
  destruct (save_cases (modifyLog (Append (remoteOp t revisions remoteAddr now)) p book))
    as [[e Hs]|(loc & fs' & data & pe & Hs)]; rewrite Hs;
    [intros [= <- <-]; discriminate|].
  match goal with |- context [UserDatasetBranchesLog ?b initID] =>
    destruct (UserDatasetBranchesLog b initID) as [sparse|e|] eqn:Hu end.
  - intros [= <- <-] _. exists p, blog. do 5 (split; [first [assumption | reflexivity]|]).
    exists sparse. split; [reflexivity|exact Hu].
  - destruct (callRollback _ _) as [[b2 rb2] r2]. intros [= <- <-]. discriminate.
  - intros [= <- <-]. discriminate.
Qed.

End RemoteFacts.

Section RollbackFacts.
Context {PrivKey PubKey Filesystem : Type}.
Context {C : Collaborators PrivKey PubKey Filesystem}.
Local Abbreviation Book := (@Book PrivKey Filesystem).

Lemma dropLastOp_snoc lg ops op :
  Ops lg = ops ++ [op] -> dropLastOp lg = mkLog ops (Logs lg) (Signature lg).
Proof.
  intros H. unfold dropLastOp. rewrite H, length_app. cbn [length].
  replace (length ops + 1 - 1)%nat with (length ops) by lia.
  rewrite take_app_length. reflexivity.
Qed.

(** The first call of a rollback function that has not fired: it drops
    the last op of the branch log the book has at that time. *)
Lemma callRollback_first (later : Book) initID q lg ops op :
  branchLog later initID = Ok (q, lg) ->
  Ops lg = ops ++ [op] ->
  exists book2 rb2 r,
    callRollback later (mkRollback initID false None) = (book2, rb2, r)
    /\ store book2 = update dropLastOp (store later) q
    /\ deref (store book2) q = Some (mkLog ops (Logs lg) (Signature lg))
    /\ rbFired rb2 = true
    /\ r <> Panic
    /\ (cipherWorks later -> r = Ok tt)
    /\ callRollback book2 rb2 = (book2, rb2, r).
Proof.
  intros Hb Hops.
  pose proof (branchLog_sound _ _ _ _ Hb) as Hd.
  set (dropped := modifyLog dropLastOp q later).
  assert (Hcall : callRollback later (mkRollback initID false None)
                  = match save dropped with
                    | (b, Ok _) => (b, mkRollback initID true None, Ok tt)
                    | (b, Err e) => (b, mkRollback initID true (Some e), Err e)
                    | (b, Panic) => (b, mkRollback initID false None, Panic)
                    end).
  { unfold callRollback. cbn [rbFired rbInitID]. rewrite Hb, Hops.
    destruct (ops ++ [op]) eqn:E; [destruct ops; discriminate|]. reflexivity. }
  assert (Hderef : deref (store dropped) q = Some (mkLog ops (Logs lg) (Signature lg))).
  { rewrite <- (dropLastOp_snoc lg ops op Hops). apply deref_modifyLog. exact Hd. }
  rewrite Hcall.
  destruct (save_cases dropped) as [[e Hs]|(loc & fs' & data & pe & Hs)]; rewrite Hs.
  - eexists _, _, _. split; [reflexivity|].
    split; [reflexivity|]. split; [exact Hderef|]. split; [reflexivity|].
    split; [discriminate|]. split; [|reflexivity].
    intros Hw. destruct (save_works dropped Hw) as (? & ? & ? & ? & Hs').
    rewrite Hs' in Hs. discriminate Hs.
  - eexists _, _, _. split; [reflexivity|].
    split; [reflexivity|]. split; [exact Hderef|]. split; [reflexivity|].
    split; [discriminate|]. split; [reflexivity|reflexivity].
Qed.

(** X13. The rollback function a successful [WriteRemotePush] or
    [WriteRemoteDelete] returns does not remember the push op: its first
    call drops the last op the branch log has at that time. Called on the
    book as the write left it, it takes the push op off again and the
    journal is the one before the write. Called after something else was
    appended to the branch log, it takes that op off and leaves the push
    op in the log. Either way the call does not panic, returns no error
    when the encryption of the journal works, and a second call changes
    nothing and returns what the first returned. *)
Theorem rollback_drops_last_op (book : Book) t initID revisions remoteAddr now book1 res :
  writeRemote t book initID revisions remoteAddr now = (book1, res) ->
  prErr res = Ok tt ->
  exists p blog rb,
    branchLog book initID = Ok (p, blog)
    /\ branchLog book1 initID = Ok (p, Append (remoteOp t revisions remoteAddr now) blog)
    /\ prRollback res = Some rb
    /\ (exists book2 rb2 r,
           callRollback book1 rb = (book2, rb2, r)
           /\ store book2 = store book
           /\ r <> Panic
           /\ (cipherWorks book -> r = Ok tt)
           /\ callRollback book2 rb2 = (book2, rb2, r))
    /\ (forall (later : Book) q lg ops op,
           branchLog later initID = Ok (q, lg) ->
           Ops lg = ops ++ [op] ->
           exists book2 rb2 r,
             callRollback later rb = (book2, rb2, r)
             /\ deref (store book2) q = Some (mkLog ops (Logs lg) (Signature lg))
             /\ store book2 = update dropLastOp (store later) q
             /\ r <> Panic
             /\ (cipherWorks later -> r = Ok tt)
             /\ callRollback book2 rb2 = (book2, rb2, r)).
Proof.
  intros H Hok.
  destruct (writeRemote_ok _ _ _ _ _ _ _ _ H Hok)
    as (p & blog & Hb & Ha & Hs & Hpk & Hrb & _).
  pose proof (hasWriteAccess_Ops _ _ Ha) as Hne.
  assert (Hb1 : branchLog book1 initID
                = Ok (p, Append (remoteOp t revisions remoteAddr now) blog)).
  { apply (branchLog_update book book1 initID p blog _ Hb); [|reflexivity|exact Hs].
    apply (Log_ID_appendAll [remoteOp t revisions remoteAddr now] blog Hne). }
  pose proof (branchLog_sound _ _ _ _ Hb) as Hd.
  exists p, blog, (mkRollback initID false None).
  split; [exact Hb|]. split; [exact Hb1|]. split; [exact Hrb|]. split.
  - destruct (callRollback_first book1 initID p _ (Ops blog)
                (remoteOp t revisions remoteAddr now) Hb1 eq_refl)
      as (book2 & rb2 & r & Hcall & Hst & _ & _ & Hnp & Hw & Hagain).
    exists book2, rb2, r. split; [exact Hcall|].
    split.
    { rewrite Hst, Hs, update_update.
      apply (update_same _ _ _ _ Hd). apply dropLastOp_Append. }
    split; [exact Hnp|]. split; [|exact Hagain].
    intros Hworks. apply Hw. intros logs. rewrite Hpk. apply Hworks.
  - intros later q lg ops op Hbl Hops.
    destruct (callRollback_first later initID q lg ops op Hbl Hops)
      as (book2 & rb2 & r & Hcall & Hst & Hderef & _ & Hnp & Hw & Hagain).
    exists book2, rb2, r. repeat split; assumption.
Qed.

End RollbackFacts.

Lemma events_app e1 e2 : events (e1 ++ e2) = events e1 ++ events e2.
Proof. unfold events. apply omap_app. Qed.

Lemma finish_from_start refs :
  (let refs := mkSlice (reverseInPlace (visible refs)) (spare refs) in
   let offset := if slen refs <? 0 then slen refs else 0 in
   match sliceFrom refs offset with
   | Ok refs =>
       if (-1 <? slen refs) && negb (-1 =? -1) then
         match sliceTo refs (-1) with
         | Ok refs => Ok (visible refs)
         | Err e => Err e
         | Panic => Panic
         end
       else Ok (visible refs)
   | Err e => Err e
   | Panic => Panic
   end) = Ok (reverse (visible refs)).
Proof.
  cbv zeta. change (negb (-1 =? -1)) with false.
  rewrite reverseInPlace_reverse. unfold sliceFrom, slen. cbn [visible spare].
  destruct (Z.ltb_spec (Z.of_nat (length (reverse (visible refs)))) 0); [lia|].
  destruct (Z.leb_spec 0 (Z.of_nat (length (reverse (visible refs))))); [|lia].
  change (0 <=? 0) with true. cbn [andb visible]. rewrite andb_false_r.
  change (Z.to_nat 0) with 0%nat. rewrite drop_0. reflexivity.
Qed.

(** What the derivation returns for the whole list when [deleteAtEnd]
    deletes are pending at the end of the loop. *)
Lemma finish_all_pending refs d :
  branchToVersionInfos_finish (refs, d) 0 (-1)
  = Ok (reverse (if 0 <? d then take (Z.to_nat (slen refs - d)) (visible refs)
                 else visible refs)).
Proof.
  unfold branchToVersionInfos_finish.
  destruct (Z.ltb_spec 0 d) as [Hpos|Hzero].
  - destruct (Z.ltb_spec d (slen refs)) as [Hlt|Hge].
    + unfold sliceTo. destruct (Z.leb_spec 0 (slen refs - d)); [|lia].
      destruct (Z.leb_spec (slen refs - d) (scap refs)); [|unfold scap, slen in *; lia].
      cbn [andb]. rewrite finish_from_start. cbn [visible].
      rewrite take_app_le by (unfold slen in *; lia). reflexivity.
    + rewrite finish_from_start. cbn [emptySlice visible].
      replace (Z.to_nat (slen refs - d)) with 0%nat by lia. reflexivity.
  - apply finish_from_start.
Qed.

Section TailDelete.
Variable growcap : nat -> nat.
Variable ref : Ref.

(** On a log of plain saves, a delete op cuts the newest versions off the
    list; with all deletes collapsed it panics when it cuts more than
    there are. *)
Lemma derive_delete_plain blog n :
  Forall (fun op => ignoredOp op \/ isPlainSave op) (Ops blog) ->
  0 <= n < 2 ^ 63 ->
  Z.of_nat (length (Ops blog)) < 2 ^ 63 ->
  let versions := map (versionInfoFromOp ref) (filter (fun op => isCommitOp op = true) (Ops blog)) in
  branchToVersionInfos growcap (Append (versionDeleteOp n) blog) ref 0 (-1) false
  = Ok (reverse (take (length versions - Z.to_nat n) versions))
  /\ branchToVersionInfos growcap (Append (versionDeleteOp n) blog) ref 0 (-1) true
     = if n <=? Z.of_nat (length versions)
       then Ok (reverse (take (length versions - Z.to_nat n) versions))
       else Panic.
Proof.
  intros Hops Hn Hlen versions.
  assert (Hvl : (length versions <= length (Ops blog))%nat).
  { unfold versions. rewrite length_map. apply length_filter. }
  split.
  - destruct (loop_plain_saves growcap ref false (Ops blog) emptySlice 0 Hops)
      as (refs & Hloop & Hv).
    cbn [visible emptySlice app] in Hv. fold versions in Hv.
    unfold branchToVersionInfos, Append. cbn [Ops]. rewrite loop_app, Hloop.
    cbn [branchToVersionInfos_loop branchToVersionInfos_step versionDeleteOp Model Type_ Size].
    change (CommitModel =? CommitModel)%N with true. cbv iota.
    rewrite wrap64_small by lia. rewrite Z.add_0_l, finish_all_pending.
    unfold slen. rewrite Hv.
    destruct (Z.ltb_spec 0 n); do 2 f_equal; [f_equal; lia|].
    rewrite take_ge by lia. reflexivity.
  - destruct (loop_plain_saves growcap ref true (Ops blog) emptySlice 0 Hops)
      as (refs & Hloop & Hv).
    cbn [visible emptySlice app] in Hv. fold versions in Hv.
    assert (Hsl : slen refs = Z.of_nat (length versions)) by (unfold slen; rewrite Hv; reflexivity).
    change (Append (versionDeleteOp n) blog) with (appendAll [versionDeleteOp n] blog).
    rewrite (derive_all_append growcap ref blog _ refs Hloop).
    cbn [branchToVersionInfos_loop].
    rewrite step_remove_collapsed by (try reflexivity; cbn [versionDeleteOp Size]; lia).
    cbn [versionDeleteOp Size]. rewrite Hsl.
    destruct (Z.leb_spec n (Z.of_nat (length versions))); [|reflexivity].
    cbn [visible]. rewrite Hv. do 3 f_equal. lia.
Qed.

End TailDelete.

Section EventFacts.
Context {PrivKey PubKey Filesystem : Type}.
Context {C : Collaborators PrivKey PubKey Filesystem}.
Local Abbreviation Book := (@Book PrivKey Filesystem).

Lemma events_save (book : Book) : events (effects (fst (save book))) = events (effects book).
Proof.
  destruct (save_cases book) as [[e ->]|(l & f & d & pe & ->)]; [reflexivity|].
  cbn [fst effects]. rewrite events_app. cbn. apply app_nil_r.
Qed.

End EventFacts.

Section DeleteEventFacts.
Context {PrivKey PubKey Filesystem : Type}.
Context {C : Collaborators PrivKey PubKey Filesystem}.
Local Abbreviation Book := (@Book PrivKey Filesystem).

(** X11. On a branch log of plain saves, [WriteVersionDelete] publishes nothing
    when no version remains, and otherwise one commit-change event whose
    top index is the number of versions that remain and whose head ref and
    info are those of the last item of the newest-first list: the oldest
    version that remains. *)
Theorem version_delete_event (book : Book) initID p blog revisions :
  branchLog book initID = Ok (p, blog) ->
  hasWriteAccess book blog = Ok tt ->
  Forall (fun op => ignoredOp op \/ isPlainSave op) (Ops blog) ->
  0 <= revisions < 2 ^ 63 ->
  Z.of_nat (length (Ops blog)) < 2 ^ 63 ->
  let versions :=
    map (versionInfoFromOp (mkRef "" "" "" "" ""))
      (filter (fun op => isCommitOp op = true) (Ops blog)) in
  let remaining := take (length versions - Z.to_nat revisions) versions in
  events (effects (fst (WriteVersionDelete book initID revisions)))
  = events (effects book)
    ++ match remaining with
       | [] => []
       | oldest :: _ =>
           [(event.ETDatasetCommitChange,
             {| event.InitID := initID;
                event.TopIndex := Z.of_nat (length remaining);
                event.ProfileID := ""; event.Username := ""; event.PrettyName := "";
                event.HeadRef := viPath oldest;
                event.Info := Some oldest |})]
       end.
Proof.
  intros Hb Ha Hops Hn Hlen versions remaining.
  unfold WriteVersionDelete. rewrite Hb. cbn [attempt]. rewrite Ha. cbn [attempt].
  destruct (derive_delete_plain growcap (mkRef "" "" "" "" "") blog revisions Hops Hn Hlen)
    as [Hd _].
  cbv zeta in Hd. fold versions in Hd. fold remaining in Hd. rewrite Hd. cbn [attempt].
  rewrite events_save, last_reverse, length_reverse.
  destruct remaining as [|oldest rest]; cbn [head].
  - rewrite app_nil_r. reflexivity.
  - cbn [Publish effects]. rewrite events_app. reflexivity.
Qed.

(** X14. When [UserDatasetBranchesLog] fails after the push op has been appended
    and saved, the write has rolled itself back: it returns that error and
    no log, the journal is the one before the write, and the rollback
    function it returns has fired already, so calling it changes nothing and
    returns no error. *)
Theorem failed_sparse_lookup_undoes_push (book : Book) t initID revisions remoteAddr now
    p blog e :
  branchLog book initID = Ok (p, blog) ->
  hasWriteAccess book blog = Ok tt ->
  cipherWorks book ->
  UserDatasetBranchesLog
    (modifyLog (Append (remoteOp t revisions remoteAddr now)) p book) initID = Err e ->
  exists book' rb,
    writeRemote t book initID revisions remoteAddr now
    = (book', mkPushResult None (Some rb) (Err e))
    /\ store book' = store book
    /\ rbFired rb = true
    /\ callRollback book' rb = (book', rb, Ok tt).
Proof.
  intros Hb Ha Hw Hu.
  pose proof (hasWriteAccess_Ops _ _ Ha) as Hne.
  pose proof (branchLog_sound _ _ _ _ Hb) as Hd.
  set (op := remoteOp t revisions remoteAddr now) in *.
  set (book1 := modifyLog (Append op) p book) in *.
  destruct (save_works book1) as (loc & fs' & data & pe & Hs).
  { intros logs. apply Hw. }
  remember (mkBook (store book1) (pk book1) (authorID book1) (authorName book1) loc fs'
              (effects book1 ++ [EffPut (fsLocation book1) data pe])) as book2 eqn:Hbook2.
  assert (Hs2 : store book2 = update (Append op) (store book) p) by (subst book2; reflexivity).
  assert (Hpk2 : pk book2 = pk book) by (subst book2; reflexivity).
  assert (Hb2 : branchLog book2 initID = Ok (p, Append op blog)).
  { apply (branchLog_update book book2 initID p blog _ Hb); [|reflexivity|exact Hs2].
    apply (Log_ID_appendAll [op] blog Hne). }
  assert (Hu' : UserDatasetBranchesLog book2 initID = Err e).
  { unfold UserDatasetBranchesLog in *. rewrite Hs2. exact Hu. }
  clear Hbook2.
  set (book3 := modifyLog dropLastOp p book2).
  assert (Hs3 : store book3 = store book).
  { unfold book3. cbn [modifyLog withStore store]. rewrite Hs2, update_update.
    apply (update_same _ _ _ _ Hd). apply dropLastOp_Append. }
  destruct (save_works book3) as (loc' & fs'' & data' & pe' & Hs').
  { intros logs. unfold book3. cbn [modifyLog withStore pk]. rewrite Hpk2. apply Hw. }
  exists (fst (save book3)), (mkRollback initID true None).
  split.
  - unfold writeRemote. rewrite Hb, Ha. fold op. fold book1. rewrite Hs, Hu'.
    unfold callRollback. cbn [rbFired rbInitID]. rewrite Hb2.
    unfold Append at 1. cbn [Ops].
    destruct (Ops blog ++ [op]) eqn:E; [destruct (Ops blog); discriminate|].
    fold dropLastOp. fold book3. rewrite Hs'. reflexivity.
  - split; [rewrite save_store; exact Hs3|]. split; reflexivity.
Qed.

End DeleteEventFacts.

Section PushAndHeadFacts.
Context {PrivKey PubKey Filesystem : Type}.
Context {C : Collaborators PrivKey PubKey Filesystem}.
Local Abbreviation Book := (@Book PrivKey Filesystem).

(** X12. After a [WriteRemotePush] ([WriteRemoteDelete]) of [revisions] that
    returned no error, [Items] lists the same items, the first [revisions]
    of them marked published (not published); nothing changes when
    [revisions] is not positive, and [Items] panics from then on when
    [revisions] is more than the number of items. *)
Theorem push_marks_newest_published (book : Book) (published : bool) ref initID p blog
    revisions remoteAddr now older book1 res :
  refersTo book ref initID p blog ->
  writeRemote (if published then OpTypeInit else OpTypeRemove) book initID revisions
    remoteAddr now = (book1, res) ->
  prErr res = Ok tt ->
  Items book ref 0 (-1) = Ok older ->
  Items book1 ref 0 (-1)
  = if revisions <=? 0 then Ok older
    else if revisions <=? Z.of_nat (length older)
         then Ok (map (setPublished published) (take (Z.to_nat revisions) older)
                  ++ drop (Z.to_nat revisions) older)
         else Panic.
Proof.
  intros Hr H Hok Hitems.
  destruct (writeRemote_ok _ _ _ _ _ _ _ _ H Hok)
    as (p' & blog' & Hb & Ha & Hs & _).
  rewrite (refersTo_branchLog _ _ _ _ _ Hr) in Hb. injection Hb as <- <-.
  pose proof (refersTo_append book book1 ref initID p blog _ Hr (hasWriteAccess_Ops _ _ Ha) Hs)
    as Hr1.
  rewrite (refersTo_Items _ _ _ _ _ _ _ Hr) in Hitems.
  apply derive_all_inv in Hitems as (refs & Hloop & ->).
  rewrite (refersTo_Items _ _ _ _ _ _ _ Hr1).
  rewrite (derive_all_append growcap ref blog _ refs Hloop).
  cbn [branchToVersionInfos_loop].
  rewrite (step_push growcap ref true refs 0 _ published)
    by (destruct published; reflexivity).
  cbn [remoteOp Size]. rewrite length_reverse. unfold slen.
  destruct (Z.leb_spec revisions 0); [reflexivity|].
  destruct (Z.leb_spec revisions (Z.of_nat (length (visible refs)))); [|reflexivity].
  cbn [visible]. rewrite reverse_markLast by lia. reflexivity.
Qed.

(** X8. After [WriteTransformRun] the run is the first item of [Items]: no
    path, no title, the start time of the run as commit time (0 without
    one), and the run's id, status and duration; the items listed before
    follow. *)
Theorem run_is_listed_first (book : Book) ref initID p blog st older :
  refersTo book ref initID p blog ->
  hasWriteAccess book blog = Ok tt ->
  Items book ref 0 (-1) = Ok older ->
  Items (fst (WriteTransformRun book initID (Some st))) ref 0 (-1)
  = Ok ({| viUsername := dsref.Username ref;
           viProfileID := dsref.ProfileID ref;
           viName := dsref.Name ref;
           viPath := "";
           Published := false;
           CommitTime := match run.StartTime st with Some t => t | None => 0 end;
           BodySize := 0;
           CommitTitle := "";
           RunID := run.ID st;
           RunStatus := run.Status st;
           RunDuration := run.Duration st |} :: older).
Proof.
  intros Hr Ha Hitems.
  destruct (Items_after_runWrite book ref initID p blog (TransformRun (Some st)) _ older
              Hr Ha eq_refl eq_refl eq_refl Hitems) as (refs & -> & _ & Hi).
  cbn [runWrite] in Hi. rewrite Hi. cbn [branchToVersionInfos_loop].
  rewrite step_run by reflexivity.
  rewrite visible_sappend, reverse_snoc. reflexivity.
Qed.

(** X15. After [WriteVersionSave], with or without the run of the commit,
    [ResolveRef] of a reference without path fills in the init id of the
    dataset and the path of the version just saved. *)
Theorem save_moves_head (book : Book) ref initID p blog ds commit rs :
  refersTo book ref initID p blog ->
  hasWriteAccess book blog = Ok tt ->
  dataset.Commit_ ds = Some commit ->
  (forall st, rs = Some st -> run.ID st = dataset.RunID commit) ->
  dsref.Path ref = "" ->
  let resolved := fst (ResolveRef (fst (WriteVersionSave book initID ds rs)) ref) in
  dsref.InitID resolved = initID /\ dsref.Path resolved = dataset.Path ds.
Proof.
  intros Hr Ha Hc Hrs Hpath resolved.
  destruct (versionSaveOp ds) as [op| |] eqn:Hop;
    try (unfold versionSaveOp in Hop; rewrite Hc in Hop; discriminate).
  assert (Hw : exists pre, appendedOps (VersionSave ds rs) = Some (pre ++ [op])).
  { destruct rs as [st|]; cbn [appendedOps]; rewrite ?Hc, Hop.
    - rewrite (Hrs st eq_refl), String.eqb_refl. exists [transformRunOp st]. reflexivity.
    - exists []. reflexivity. }
  destruct Hw as (pre & Hw).
  pose proof (refersTo_branchLog _ _ _ _ _ Hr) as Hb.
  pose proof (runWrite_store book initID (VersionSave ds rs) p blog _ Hb Ha Hw eq_refl) as Hs.
  cbn [runWrite] in Hs.
  pose proof (refersTo_append book _ ref initID p blog _ Hr (hasWriteAccess_Ops _ _ Ha) Hs)
    as Hr'.
  assert (Hhead : latestSavePath (appendAll (pre ++ [op]) blog) = dataset.Path ds).
  { rewrite latestSavePath_last_commit.
    - unfold versionSaveOp in Hop. rewrite Hc in Hop. injection Hop as <-. reflexivity.
    - unfold versionSaveOp in Hop. rewrite Hc in Hop. injection Hop as <-. reflexivity.
    - unfold versionSaveOp in Hop. rewrite Hc in Hop. injection Hop as <-. discriminate. }
  unfold resolved, ResolveRef.
  rewrite (refersTo_RefToInitID _ ref initID p _ ref Hr' eq_refl eq_refl).
  rewrite (refersTo_branchLog _ _ _ _ _ Hr').
  destruct ref as [iid user pid name path].
  cbn [dsref.Path] in Hpath. subst path.
  unfold setInitID, setPath, setProfileID.
  cbn [dsref.Path dsref.ProfileID dsref.Username dsref.Name dsref.InitID String.eqb attempt].
  rewrite Hhead.
  destruct (String.eqb pid ""); [|split; reflexivity].
  cbn [attempt].
  destruct (Journal_Get Hash _ _) as [[q authorLg]| |]; cbn [attempt fst];
    [|split; reflexivity..].
  destruct (Ops authorLg); split; reflexivity.
Qed.

(** X16. [WriteAuthorRename] with a valid name appends the rename op to the
    author's log, which the book still finds by its id and whose name is
    the new name from then on. The book's username follows when the
    encryption in [save] works; when it fails its error is returned and the
    username stays behind the name of the log. *)
Theorem author_rename_renames_log_before_username (book : Book) newName now p userLog :
  IsValidName newName = true ->
  authorLog book = Ok (p, userLog) ->
  Log_Model userLog = AuthorModel ->
  Ops userLog <> [] ->
  let book' := fst (WriteAuthorRename book newName now) in
  let result := snd (WriteAuthorRename book newName now) in
  exists userLog',
    authorLog book' = Ok (p, userLog')
    /\ Ops userLog' = Ops userLog ++ [authorRenameOp book newName now]
    /\ Log_Name userLog' = newName
    /\ (cipherWorks book -> result = Ok tt /\ Username book' = newName)
    /\ (forall e, cipherFails book e -> result = Err e /\ Username book' = Username book).
Proof.
  intros Hv Hal Hm Hne book' result.
  pose proof Hal as Hg. unfold authorLog in Hg.
  destruct (Journal_Get_sound _ _ _ _ _ Hg) as [Hd _].
  set (op := authorRenameOp book newName now) in *.
  set (book1 := modifyLog (Append op) p book).
  assert (Hwr : WriteAuthorRename book newName now
                = match save book1 with
                  | (b, Ok _) => (withAuthorName newName b, Ok tt)
                  | (b, Err e) => (b, Err e)
                  | (b, Panic) => (b, Panic)
                  end).
  { unfold WriteAuthorRename. rewrite Hv, Hal. reflexivity. }
  assert (Hst : store book' = update (Append op) (store book) p
                /\ authorID book' = authorID book).
  { unfold book'. rewrite Hwr.
    destruct (save_cases book1) as [[e ->]|(l & f & d & pe & ->)]; split; reflexivity. }
  destruct Hst as [Hst Hid].
  exists (Append op userLog).
  split.
  { unfold authorLog. rewrite Hst, Hid.
    destruct (Journal_Get_update Hash _ _ (Append op) _ _ _ _ Hd
                (Log_ID_appendAll [op] userLog Hne) eq_refl Hg) as (found' & Hg' & Hd').
    rewrite Hg'. rewrite (deref_update _ _ _ _ Hd) in Hd'. congruence. }
  split; [reflexivity|].
  split.
  { unfold Log_Name, Append. cbn [Ops].
    rewrite fold_left_app. cbn [fold_left].
    replace (Log_Model (mkLog (Ops userLog ++ [op]) (Logs userLog) (Signature userLog)))
      with AuthorModel
      by (unfold Log_Model in *; cbn [Ops]; destruct (Ops userLog); [congruence|exact (eq_sym Hm)]).
    reflexivity. }
  split.
  - intros Hw. unfold result, book'. rewrite Hwr.
    destruct (save_works book1) as (l & f & d & pe & ->); [intros logs; apply Hw|].
    split; reflexivity.
  - intros e He. unfold result, book'. rewrite Hwr.
    rewrite (save_fails book1 e) by (intros logs; apply He). split; reflexivity.
Qed.

End PushAndHeadFacts.

Lemma latestSavePath_scan_no_removes (ops : list Op) :
  Forall (fun op => ~ (Model op = CommitModel /\ Type_ op = OpTypeRemove)) ops ->
  latestSavePath_scan 0 ops
  = match head (filter (fun op => isCommitOp op = true) ops) with
    | Some op => oplog.Ref op
    | None => ""
    end.
Proof.
  induction ops as [|op ops IH]; intros H; [reflexivity|].
  inversion H as [|? ? Hop Hrest]; subst.
  cbn [latestSavePath_scan]. rewrite filter_cons.
  change (Model op =? CommitModel)%N with (isCommitOp op).
  destruct (isCommitOp op) eqn:HC.
  - rewrite decide_True by reflexivity. cbn [head].
    destruct (Type_ op) eqn:HT; try reflexivity. exfalso. apply Hop.
    split; [apply N.eqb_eq; exact HC | reflexivity].
  - rewrite decide_False by discriminate. apply IH. exact Hrest.
Qed.

(** X1. In a branch log whose ops are each of a model the derivation skips, or a
    commit Init op that names no run, the version list taken from the start
    without limit has one item per commit op, as [versionInfoFromOp] builds
    it, the newest first, whatever [collapseAllDeletes] is. *)
Theorem saves_are_listed_newest_first (growcap : nat -> nat) (ref : Ref) (blog : Log)
    (collapseAllDeletes : bool) :
  Forall (fun op => ignoredOp op \/ isPlainSave op) (Ops blog) ->
  branchToVersionInfos growcap blog ref 0 (-1) collapseAllDeletes
  = Ok (reverse (map (versionInfoFromOp ref)
                   (filter (fun op => isCommitOp op = true) (Ops blog)))).
Proof.
  intros H. unfold branchToVersionInfos.
  destruct (loop_plain_saves growcap ref collapseAllDeletes (Ops blog) emptySlice 0 H)
    as (refs & -> & Hv).
  rewrite finish_all, Hv. reflexivity.
Qed.

(** X2. Offset and limit cut a window out of the full list: with an offset
    that is not negative and a limit that is -1 or not negative, the result
    is the full list without its first [offset] items, cut down to [limit]
    items unless the limit is -1 (an offset or limit beyond the end is
    clamped). A negative offset panics, and so does a limit below -1. *)
Theorem offset_and_limit_select_a_window (growcap : nat -> nat) (blog : Log) (ref : Ref)
    (collapseAllDeletes : bool) (offset limit : Z) (all : list VersionInfo) :
  branchToVersionInfos growcap blog ref 0 (-1) collapseAllDeletes = Ok all ->
  (0 <= offset -> limit = -1 \/ 0 <= limit ->
   branchToVersionInfos growcap blog ref offset limit collapseAllDeletes
   = Ok (if limit =? -1 then drop (Z.to_nat offset) all
         else take (Z.to_nat limit) (drop (Z.to_nat offset) all)))
  /\ (offset < 0 ->
      branchToVersionInfos growcap blog ref offset limit collapseAllDeletes = Panic)
  /\ (0 <= offset -> limit < -1 ->
      branchToVersionInfos growcap blog ref offset limit collapseAllDeletes = Panic).
Proof.
  unfold branchToVersionInfos.
  destruct (branchToVersionInfos_loop growcap ref collapseAllDeletes (emptySlice, 0) (Ops blog))
    as [st| |]; try discriminate.
  apply finish_window.
Qed.

(** X3. A Remove op of [revisions] appended to a branch log of plain saves takes
    the newest [revisions] versions off the list. When it asks for more than
    there are, the list is empty if deletes are collapsed at the end only,
    and the derivation panics if all deletes are collapsed. *)
Theorem delete_op_cuts_newest_versions (growcap : nat -> nat) (ref : Ref) (blog : Log)
    (revisions : Z) :
  Forall (fun op => ignoredOp op \/ isPlainSave op) (Ops blog) ->
  0 <= revisions < 2 ^ 63 ->
  Z.of_nat (length (Ops blog)) < 2 ^ 63 ->
  let versions :=
    map (versionInfoFromOp ref) (filter (fun op => isCommitOp op = true) (Ops blog)) in
  branchToVersionInfos growcap (Append (versionDeleteOp revisions) blog) ref 0 (-1) false
  = Ok (reverse (take (length versions - Z.to_nat revisions) versions))
  /\ branchToVersionInfos growcap (Append (versionDeleteOp revisions) blog) ref 0 (-1) true
     = if revisions <=? Z.of_nat (length versions)
       then Ok (reverse (take (length versions - Z.to_nat revisions) versions))
       else Panic.
Proof. apply derive_delete_plain. Qed.

(** X4. In a branch log without commit Remove ops the head path is the ref of
    the last commit op (the empty string when there is none); when the log
    holds plain saves only, that is the path of the first item of the
    version list. *)
Theorem head_is_latest_commit_without_deletes (growcap : nat -> nat) (ref : Ref)
    (branchLog : Log) :
  Forall (fun op => ~ (Model op = CommitModel /\ Type_ op = OpTypeRemove)) (Ops branchLog) ->
  latestSavePath branchLog
  = match last (filter (fun op => isCommitOp op = true) (Ops branchLog)) with
    | Some op => oplog.Ref op
    | None => ""
    end
  /\ (Forall (fun op => ignoredOp op \/ isPlainSave op) (Ops branchLog) ->
      forall collapseAllDeletes,
        Ok (latestSavePath branchLog)
        = match branchToVersionInfos growcap branchLog ref 0 (-1) collapseAllDeletes with
          | Ok (newest :: _) => Ok (viPath newest)
          | Ok [] => Ok ""
          | Err e => Err e
          | Panic => Panic
          end).
Proof.
  intros H.
  assert (E : latestSavePath branchLog
              = match last (filter (fun op => isCommitOp op = true) (Ops branchLog)) with
                | Some op => oplog.Ref op
                | None => ""
                end).
  { unfold latestSavePath. rewrite latestSavePath_scan_no_removes.
    - rewrite filter_reverse, head_reverse. reflexivity.
    - apply Forall_reverse. exact H. }
  split; [exact E|].
  intros Hp collapse. unfold branchToVersionInfos.
  destruct (loop_plain_saves growcap ref collapse (Ops branchLog) emptySlice 0 Hp)
    as (refs & -> & Hv).
  rewrite finish_all, Hv, E. cbn [emptySlice visible app].
  change map with (@fmap list _). rewrite <- fmap_reverse.
  rewrite <- head_reverse.
  destruct (reverse (filter (fun op => isCommitOp op = true) (Ops branchLog)));
    reflexivity.
Qed.

Lemma first_some_from_None {A B} (f : nat -> A -> option B) (l : list A) : forall i,
  first_some_from f i l = None <-> forall k x, l !! k = Some x -> f (i + k)%nat x = None.
Proof.
  induction l as [|a l IH]; intros i; cbn [first_some_from].
  - split; [intros _ k x H; discriminate | reflexivity].
  - split.
    + intros H. destruct (f i a) eqn:E; [discriminate|].
      intros [|k] x Hk; cbn in Hk.
      * injection Hk as <-. rewrite Nat.add_0_r. exact E.
      * rewrite <- Nat.add_succ_comm. apply (proj1 (IH (S i)) H k x Hk).
    + intros H. rewrite (H 0%nat a eq_refl ltac:(idtac)) || idtac.
      pose proof (H 0%nat a eq_refl) as E. rewrite Nat.add_0_r in E. rewrite E.
      apply IH. intros k x Hk. rewrite Nat.add_succ_comm. apply (H (S k) x Hk).
Qed.

Lemma first_some_from_app_None {A B} (f : nat -> A -> option B) (l1 l2 : list A) : forall i,
  first_some_from f i l1 = None ->
  first_some_from f i (l1 ++ l2) = first_some_from f (i + length l1)%nat l2.
Proof.
  induction l1 as [|a l1 IH]; intros i H; cbn [app first_some_from length] in *.
  - rewrite Nat.add_0_r. reflexivity.
  - destruct (f i a); [discriminate|]. rewrite IH by exact H. f_equal. lia.
Qed.

Lemma Log_Name_newDatasetLog {PrivKey PubKey Filesystem : Type}
    {C : Collaborators PrivKey PubKey Filesystem} (book : @Book PrivKey Filesystem)
    dsName now1 now2 :
  Log_Name (newDatasetLog book dsName now1 now2) = dsName.
Proof. reflexivity. Qed.

Section InitRoundTrip.
Context {PrivKey PubKey Filesystem : Type}.
Context {C : Collaborators PrivKey PubKey Filesystem}.
Local Abbreviation Book := (@Book PrivKey Filesystem).

(** What [WriteDatasetInit] does for a name the author has not used: the
    dataset log becomes the last child of the author's log. *)
Lemma WriteDatasetInit_fresh (book : Book) dsName now1 now2 i userLog :
  dsName <> "" -> IsValidName dsName = true ->
  findNamed (Username book) (store book) = Some (i, userLog) ->
  authorLog book = Ok ([i], userLog) ->
  findNamed dsName (Logs userLog) = None ->
  let dsLog := newDatasetLog book dsName now1 now2 in
  let book1 :=
    Publish event.ETDatasetNameInit
      {| event.InitID := Log_ID Hash dsLog; event.TopIndex := 0;
         event.ProfileID := Log_Author userLog; event.Username := Username book;
         event.PrettyName := dsName; event.HeadRef := ""; event.Info := None |}
      (modifyLog (AddChild dsLog) [i] book) in
  WriteDatasetInit book dsName now1 now2
  = (fst (save book1), (Log_ID Hash dsLog, snd (save book1))).
Proof.
  intros Hne Hv Hu Hal Hfresh dsLog book1.
  unfold WriteDatasetInit.
  rewrite (proj2 (String.eqb_neq dsName "") Hne), Hv. cbn [negb].
  unfold DatasetRef. cbn [dsref.Username dsref.Name].
  assert (Hhead : Journal_HeadRef (store book) [Username book; dsName] = Err ErrOplogNotFound).
  { unfold Journal_HeadRef. cbn [Log_HeadRef]. rewrite Hu, Hfresh. reflexivity. }
  rewrite Hhead.
  destruct (String.eqb (Username book) ""); rewrite ?(proj2 (String.eqb_neq dsName "") Hne);
    rewrite Hal;
    match goal with
    | |- (let '(b, err) := save ?x in _) = _ => change x with book1
    end;
    destruct (save book1); reflexivity.
Qed.

(** After [WriteDatasetInit] of a fresh name the reference made of the
    author's name and the dataset's name leads to the new dataset. *)
Lemma WriteDatasetInit_fresh_refers (book : Book) dsName now1 now2 i userLog :
  dsName <> "" -> IsValidName dsName = true ->
  findNamed (Username book) (store book) = Some (i, userLog) ->
  authorLog book = Ok ([i], userLog) ->
  findNamed dsName (Logs userLog) = None ->
  Journal_Get Hash (store book) (Hash (datasetInitOp book dsName now1)) = Err ErrOplogNotFound ->
  let book' := fst (WriteDatasetInit book dsName now1 now2) in
  let initID := fst (snd (WriteDatasetInit book dsName now1 now2)) in
  initID = Hash (datasetInitOp book dsName now1)
  /\ (forall ref, dsref.Username ref = Username book -> dsref.Name ref = dsName ->
        refersTo book' ref initID [i; length (Logs userLog); 0%nat]
          (InitLog (branchInitOp book now2))).
Proof.
  intros Hne Hv Hu Hal Hfresh Hid book' initID.
  pose proof (WriteDatasetInit_fresh book dsName now1 now2 i userLog Hne Hv Hu Hal Hfresh) as Hw.
  cbv zeta in Hw. unfold book', initID. rewrite Hw. cbn [fst snd].
  split; [reflexivity|].
  intros ref Hru Hrn.
  set (dsLog := newDatasetLog book dsName now1 now2) in *.
  assert (Hstore : store (fst (save (Publish event.ETDatasetNameInit
              {| event.InitID := Log_ID Hash dsLog; event.TopIndex := 0;
                 event.ProfileID := Log_Author userLog; event.Username := Username book;
                 event.PrettyName := dsName; event.HeadRef := ""; event.Info := None |}
              (modifyLog (AddChild dsLog) [i] book))))
            = alter (AddChild dsLog) i (store book)).
  { rewrite save_store. reflexivity. }
  assert (Hr : refersTo (fst (save (Publish event.ETDatasetNameInit
              {| event.InitID := Log_ID Hash dsLog; event.TopIndex := 0;
                 event.ProfileID := Log_Author userLog; event.Username := Username book;
                 event.PrettyName := dsName; event.HeadRef := ""; event.Info := None |}
              (modifyLog (AddChild dsLog) [i] book)))) ref (Log_ID Hash dsLog)
              [i; length (Logs userLog); 0%nat] (InitLog (branchInitOp book now2))).
  { exists i, (length (Logs userLog)), dsLog. rewrite Hstore, Hru, Hrn.
    split.
    { unfold Journal_HeadRef. cbn [Log_HeadRef].
      rewrite (findNamed_alter _ i _ _ i userLog) by (intros; reflexivity || exact Hu).
      rewrite decide_True by reflexivity. unfold AddChild at 1. cbn [Logs].
      unfold findNamed at 1.
      rewrite first_some_from_app_None by exact Hfresh.
      cbn [first_some_from]. change (Log_Name dsLog) with dsName.
      rewrite String.eqb_refl. rewrite Nat.add_0_l.
      reflexivity. }
    split; [reflexivity|].
    split; [|split; reflexivity].
    unfold authorLog in Hal.
    unfold Journal_Get in Hid |- *.
    destruct (first_some_from _ 0%nat (store book)) as [|] eqn:E; [discriminate|].
    pose proof (proj1 (first_some_from_None _ _ _) E) as Hnone.
    destruct (Journal_Get_sound _ _ _ _ _ Hal) as [Hd _]. rewrite deref_top in Hd.
    erewrite first_some_from_hit; [reflexivity| | |].
    - rewrite list_lookup_alter_eq, Hd. reflexivity.
    - cbn [Nat.add]. rewrite Log_find_unfold.
      specialize (Hnone i userLog Hd). cbn [Nat.add] in Hnone.
      rewrite Log_find_unfold in Hnone.
      change (Hash (datasetInitOp book dsName now1)) with (Log_ID Hash dsLog) in *.
      change (Log_ID Hash (AddChild dsLog userLog)) with (Log_ID Hash userLog).
      change (Logs (AddChild dsLog userLog)) with (Logs userLog ++ [dsLog]).
      destruct (String.eqb (Log_ID Hash userLog) (Log_ID Hash dsLog)); [discriminate|].
      destruct (first_some_from _ 0%nat (Logs userLog)) as [[q f]|] eqn:E2; [discriminate|].
      rewrite first_some_from_app_None by exact E2.
      cbn [first_some_from Nat.add]. rewrite Log_find_unfold.
      rewrite String.eqb_refl. reflexivity.
    - intros k' y Hlt Hy. rewrite list_lookup_alter_ne in Hy by lia.
      apply (Hnone k' y Hy). }
  exact Hr.
Qed.

(** X17. A dataset initialized under a name the author has not used yet is
    found afterwards both ways: [RefToInitID] of the author's name and the
    dataset name gives the init id returned, [datasetLog] and [branchLog]
    of that id give the new dataset log and its branch log, and [Items]
    lists no version. *)
Theorem fresh_dataset_is_found_by_name_and_id (book : Book) dsName now1 now2 i userLog :
  dsName <> "" -> IsValidName dsName = true ->
  findNamed (Username book) (store book) = Some (i, userLog) ->
  authorLog book = Ok ([i], userLog) ->
  findNamed dsName (Logs userLog) = None ->
  Journal_Get Hash (store book) (Hash (datasetInitOp book dsName now1)) = Err ErrOplogNotFound ->
  let book' := fst (WriteDatasetInit book dsName now1 now2) in
  let initID := fst (snd (WriteDatasetInit book dsName now1 now2)) in
  forall ref, dsref.Username ref = Username book -> dsref.Name ref = dsName ->
    RefToInitID book' ref = Ok initID
    /\ datasetLog book' initID
       = Ok ([i; length (Logs userLog)], newDatasetLog book dsName now1 now2)
    /\ branchLog book' initID
       = Ok ([i; length (Logs userLog); 0%nat], InitLog (branchInitOp book now2))
    /\ Items book' ref 0 (-1) = Ok [].
Proof.
  intros Hne Hv Hu Hal Hfresh Hid book' initID ref Hru Hrn.
  destruct (WriteDatasetInit_fresh_refers book dsName now1 now2 i userLog
              Hne Hv Hu Hal Hfresh Hid) as [HinitID Hrefers].
  specialize (Hrefers ref Hru Hrn). fold book' initID in Hrefers, HinitID.
  split; [apply (refersTo_RefToInitID _ _ _ _ _ _ Hrefers eq_refl eq_refl)|].
  split.
  - destruct Hrefers as (i' & j' & dsLog & Hh & Hlid & Hg & Hl & Hp).
    injection Hp as <- <-. unfold datasetLog. rewrite Hg. do 3 f_equal.
    apply Journal_HeadRef_two in Hh as (i2 & j2 & ul & Hp2 & Hu2 & Hn2).
    injection Hp2 as <- <-.
    pose proof (WriteDatasetInit_fresh book dsName now1 now2 i userLog Hne Hv Hu Hal Hfresh)
      as Hw.
    cbv zeta in Hw. unfold book' in Hu2. rewrite Hw in Hu2. cbn [fst] in Hu2.
    rewrite save_store in Hu2. cbn [Publish modifyLog withStore store update] in Hu2.
    rewrite Hru in Hu2.
    rewrite (findNamed_alter _ i _ _ i userLog) in Hu2 by (intros; reflexivity || exact Hu).
    rewrite decide_True in Hu2 by reflexivity. injection Hu2 as <-.
    apply findNamed_Some in Hn2 as [Hn2 _].
    unfold AddChild in Hn2. cbn [Logs] in Hn2.
    rewrite lookup_app_r, Nat.sub_diag in Hn2 by lia. cbn in Hn2. congruence.
  - split; [apply (refersTo_branchLog _ _ _ _ _ Hrefers)|].
    rewrite (refersTo_Items _ _ _ _ _ _ _ Hrefers). reflexivity.
Qed.

End InitRoundTrip.

Section ResolveFacts.
Context {PrivKey PubKey Filesystem : Type}.
Context {C : Collaborators PrivKey PubKey Filesystem}.
Local Abbreviation Book := (@Book PrivKey Filesystem).

Lemma ResolveRef_refersTo (book : Book) ref initID p blog pu userLog op rest :
  refersTo book ref initID p blog ->
  Journal_Get Hash (store book) (Log_Author blog) = Ok (pu, userLog) ->
  Ops userLog = op :: rest ->
  ResolveRef book ref
  = ({| InitID := initID;
        dsref.Username := dsref.Username ref;
        ProfileID := if String.eqb (ProfileID ref) "" then oplog.AuthorID op
                     else ProfileID ref;
        dsref.Name := dsref.Name ref;
        Path := if String.eqb (Path ref) "" then latestSavePath blog else Path ref |},
     Ok "").
Proof.
  intros Hr Hu Hops. unfold ResolveRef.
  rewrite (refersTo_RefToInitID _ ref initID p _ ref Hr eq_refl eq_refl).
  rewrite (refersTo_branchLog _ _ _ _ _ Hr).
  destruct ref as [iid user pid name path].
  unfold setInitID, setPath, setProfileID.
  cbn [dsref.Path dsref.ProfileID dsref.Username dsref.Name dsref.InitID].
  destruct (String.eqb path "") eqn:Epath, (String.eqb pid "") eqn:Epid;
    cbn [attempt dsref.Path dsref.ProfileID dsref.Username dsref.Name dsref.InitID];
    rewrite ?Epid; cbn [attempt]; rewrite ?Hu; cbn [attempt]; rewrite ?Hops;
    reflexivity.
Qed.

Lemma lookup_update_below f logs i j p lg :
  logs !! i = Some lg ->
  update f logs (i :: j :: p) !! i = Some (setLogs (update f (Logs lg) (j :: p)) lg).
Proof. intros H. rewrite update_cons, list_lookup_alter_eq, H. reflexivity. Qed.

End ResolveFacts.

Section ResolverExample.
Context {PrivKey PubKey Filesystem : Type}.
Context {C : Collaborators PrivKey PubKey Filesystem}.
Local Abbreviation Book := (@Book PrivKey Filesystem).

(** X18. The dataset history of [GenerateExampleOplog] - a dataset initialized
    and one version saved - resolves as the resolver spec expects: both
    writes return no error, [ActivePeerID] is the profile id of the author's
    log, and [ResolveRef] of username and name fills in the init id, that
    profile id and the head path, and keeps a path the caller gave. *)
Theorem example_oplog_resolves (book : Book) dsName ds commit now1 now2 i userLog op0 rest :
  dsName <> "" -> IsValidName dsName = true ->
  findNamed (Username book) (store book) = Some (i, userLog) ->
  authorLog book = Ok ([i], userLog) ->
  Ops userLog = op0 :: rest ->
  findNamed dsName (Logs userLog) = None ->
  Journal_Get Hash (store book) (Hash (datasetInitOp book dsName now1)) = Err ErrOplogNotFound ->
  cipherWorks book ->
  dataset.Commit_ ds = Some commit ->
  let initID := fst (snd (WriteDatasetInit book dsName now1 now2)) in
  let book1 := fst (WriteDatasetInit book dsName now1 now2) in
  let book2 := fst (WriteVersionSave book1 initID ds None) in
  snd (snd (WriteDatasetInit book dsName now1 now2)) = Ok tt
  /\ snd (WriteVersionSave book1 initID ds None) = Ok tt
  /\ ActivePeerID book2 = Ok (oplog.AuthorID op0)
  /\ forall path,
       ResolveRef book2 (mkRef "" (Username book) "" dsName path)
       = ({| InitID := initID;
             dsref.Username := Username book;
             ProfileID := oplog.AuthorID op0;
             dsref.Name := dsName;
             Path := if String.eqb path "" then dataset.Path ds else path |},
          Ok "").
Proof.
  intros Hne Hv Hu Hal Hops Hfresh Hid Hw Hc initID book1 book2.
  destruct (WriteDatasetInit_fresh_refers book dsName now1 now2 i userLog
              Hne Hv Hu Hal Hfresh Hid) as [HinitID Hrefers].
  fold book1 initID in Hrefers, HinitID.
  pose proof (WriteDatasetInit_fresh book dsName now1 now2 i userLog Hne Hv Hu Hal Hfresh)
    as Hinit.
  cbv zeta in Hinit.
  set (dsLog := newDatasetLog book dsName now1 now2) in *.
  set (pre := Publish event.ETDatasetNameInit
                {| event.InitID := Log_ID Hash dsLog; event.TopIndex := 0;
                   event.ProfileID := Log_Author userLog; event.Username := Username book;
                   event.PrettyName := dsName; event.HeadRef := ""; event.Info := None |}
                (modifyLog (AddChild dsLog) [i] book)) in *.
  destruct (save_works pre) as (loc & fs' & data & pe & Hsave); [intros logs; apply Hw|].
  assert (Hb1 : store book1 = alter (AddChild dsLog) i (store book)
                /\ authorID book1 = authorID book /\ pk book1 = pk book).
  { unfold book1. rewrite Hinit, Hsave. repeat split; reflexivity. }
  destruct Hb1 as (Hst1 & Haid1 & Hpk1).
  split; [rewrite Hinit, Hsave; reflexivity|].
  set (blog0 := InitLog (branchInitOp book now2)) in *.
  set (p := [i; length (Logs userLog); 0%nat]) in *.
  assert (Ha : hasWriteAccess book1 blog0 = Ok tt).
  { unfold hasWriteAccess, blog0. cbn [InitLog Ops branchInitOp oplog.AuthorID].
    rewrite Haid1. unfold AuthorID. rewrite String.eqb_refl. reflexivity. }
  destruct (versionSaveOp ds) as [op| |] eqn:Hop;
    try (unfold versionSaveOp in Hop; rewrite Hc in Hop; discriminate).
  assert (Hr0 : refersTo book1 (mkRef "" (Username book) "" dsName "") initID p blog0)
    by (apply Hrefers; reflexivity).
  pose proof (refersTo_branchLog _ _ _ _ _ Hr0) as Hbl.
  assert (Hsave2 : exists loc2 fs2 data2 pe2,
             save (modifyLog (Append op) p book1)
             = (mkBook (store (modifyLog (Append op) p book1)) (pk book1) (authorID book1)
                  (authorName book1) loc2 fs2
                  (effects book1 ++ [EffPut (fsLocation book1) data2 pe2]), Ok tt)).
  { apply (save_works (modifyLog (Append op) p book1)).
    intros logs. cbn [modifyLog withStore pk]. rewrite Hpk1. apply Hw. }
  destruct Hsave2 as (loc2 & fs2 & data2 & pe2 & Hsave2).
  split.
  { unfold WriteVersionSave. rewrite Hbl. cbn [attempt]. rewrite Ha. cbn [attempt].
    unfold appendVersionSave. rewrite Hop. cbn [attempt]. rewrite Hsave2. reflexivity. }
  assert (Hst2 : store book2 = update (appendAll [op]) (store book1) p).
  { apply (runWrite_store book1 initID (VersionSave ds None) p blog0 [op] Hbl Ha);
      [cbn [appendedOps]; rewrite Hop; reflexivity | reflexivity]. }
  assert (Hhead : latestSavePath (appendAll [op] blog0) = dataset.Path ds).
  { change [op] with ([] ++ [op]). rewrite (latestSavePath_last_commit blog0 [] op);
      unfold versionSaveOp in Hop; rewrite Hc in Hop; injection Hop as <-;
      [reflexivity | reflexivity | discriminate]. }
  assert (Huser : exists userLog2,
             Journal_Get Hash (store book2) (Log_Author (appendAll [op] blog0))
             = Ok ([i], userLog2) /\ Ops userLog2 = op0 :: rest).
  { change (Log_Author (appendAll [op] blog0)) with (authorID book).
    unfold authorLog in Hal.
    pose proof (Journal_Get_alter Hash _ _ i userLog (AddChild dsLog) Hal eq_refl) as Hg1.
    rewrite <- Hst1 in Hg1.
    pose proof (branchLog_sound _ _ _ _ Hbl) as Hd0.
    destruct (Journal_Get_update Hash _ _ (appendAll [op]) p blog0 _ _ Hd0 eq_refl eq_refl Hg1)
      as (found' & Hg2 & Hd2).
    rewrite <- Hst2 in Hg2, Hd2. exists found'. split; [exact Hg2|].
    rewrite Hst2, deref_top in Hd2. unfold p in Hd2.
    destruct (Journal_Get_sound _ _ _ _ _ Hg1) as [Hd1 _]. rewrite deref_top in Hd1.
    rewrite (lookup_update_below _ _ _ _ _ _ Hd1) in Hd2. injection Hd2 as <-.
    exact Hops. }
  destruct Huser as (userLog2 & Hg2 & Hops2).
  split.
  { assert (Haid2 : authorID book2 = authorID book).
    { unfold book2, WriteVersionSave. rewrite Hbl. cbn [attempt]. rewrite Ha. cbn [attempt].
      unfold appendVersionSave. rewrite Hop. cbn [attempt]. rewrite Hsave2. exact Haid1. }
    unfold ActivePeerID. rewrite Haid2.
    change (Log_Author (appendAll [op] blog0)) with (authorID book) in Hg2.
    rewrite Hg2. unfold Log_Author. rewrite Hops2. reflexivity. }
  intros path.
  assert (Hr2 : refersTo book2 (mkRef "" (Username book) "" dsName path) initID p
                  (appendAll [op] blog0)).
  { apply (refersTo_append book1 book2 _ initID p blog0 [op]);
      [apply Hrefers; reflexivity | discriminate | exact Hst2]. }
  rewrite (ResolveRef_refersTo book2 _ initID p _ [i] userLog2 op0 rest Hr2 Hg2 Hops2).
  cbn [dsref.ProfileID dsref.Path dsref.Username dsref.Name String.eqb]. rewrite Hhead.
  reflexivity.
Qed.

End ResolverExample.



Section LogEntriesFacts.
Context {PrivKey PubKey Filesystem : Type}.
Context {C : Collaborators PrivKey PubKey Filesystem}.
Local Abbreviation Book := (@Book PrivKey Filesystem).


End LogEntriesFacts.

(** X22. [ModelString] gives the empty string exactly for the numbers above the
    last model, and different models have different descriptors. *)
Theorem model_descriptors_are_unique (m1 m2 : N) :
  (ModelString m1 = "" <-> (ACLModel < m1)%N)
  /\ (ModelString m1 = ModelString m2 -> ModelString m1 <> "" -> m1 = m2).
Proof.
  unfold ModelString, AuthorModel, DatasetModel, BranchModel, CommitModel, PushModel,
    ACLModel, RunModel.
  split.
  - repeat match goal with
           | |- context [(m1 =? ?k)%N] => destruct (N.eqb_spec m1 k)
           end; split; intros H; try discriminate; try lia; reflexivity.
  - repeat match goal with
           | |- context [(?m =? ?k)%N] => destruct (N.eqb_spec m k)
           end; intros H Hne; try discriminate; try lia; exfalso; apply Hne; reflexivity.
Qed.

Lemma wrap64_le z : 0 <= z -> wrap64 z <= z.
Proof.
  intros H. unfold wrap64.
  pose proof (Z.mod_le (z + 2 ^ 63) (2 ^ 64) ltac:(lia) ltac:(lia)). lia.
Qed.

Lemma addPaths_union ps : forall paths : gset string,
  addPaths ps paths = list_to_set ps ∪ paths.
Proof.
  unfold addPaths. induction ps as [|p ps IH]; intros paths; cbn [foldl].
  - rewrite list_to_set_nil. symmetry. apply (left_id_L ∅ (∪)).
  - rewrite IH, list_to_set_cons. apply set_eq. intros x.
    rewrite !elem_of_union. tauto.
Qed.

Lemma list_to_set_reverse_paths (l : list string) :
  (list_to_set (reverse l) : gset string) = list_to_set l.
Proof. apply set_eq. intros x. rewrite !elem_of_list_to_set, elem_of_reverse. reflexivity. Qed.

Section PathFacts.
Variable growcap : nat -> nat.
Variable growcapPaths : nat -> nat.
Variable ref : Ref.

Lemma pvisible_pappend s x : pvisible (pappend growcapPaths s x) = pvisible s ++ [x].
Proof. unfold pappend. destruct (pspare s); reflexivity. Qed.

Lemma addReferencedPaths_unfold ops logs sig paths :
  addReferencedPaths growcapPaths (mkLog ops logs sig) paths
  = match addReferencedPaths_loop growcapPaths emptyPaths ops with
    | Ok ps => addAllReferencedPaths growcapPaths logs (addPaths (pvisible ps) paths)
    | Err e => Err e
    | Panic => Panic
    end.
Proof. reflexivity. Qed.

Lemma addReferencedPaths_step_no_err ps op e : addReferencedPaths_step growcapPaths ps op <> Err e.
Proof.
  unfold addReferencedPaths_step, pathsTo, pathsSet.
  repeat break_match; discriminate.
Qed.

Lemma addReferencedPaths_loop_no_err ops : forall ps e,
  addReferencedPaths_loop growcapPaths ps ops <> Err e.
Proof.
  induction ops as [|op ops IH]; intros ps e; cbn [addReferencedPaths_loop]; [discriminate|].
  destruct (addReferencedPaths_step growcapPaths ps op) eqn:E; try discriminate.
  - apply IH.
  - exfalso. exact (addReferencedPaths_step_no_err _ _ _ E).
Qed.

Lemma step_inStep refs ps op :
  inStep refs ps -> commitsOnly op ->
  match branchToVersionInfos_step growcap ref true (refs, 0) op,
        addReferencedPaths_step growcapPaths ps op with
  | Ok (refs', d'), Ok ps' => inStep refs' ps' /\ d' = 0
  | Panic, Panic => True
  | _, _ => False
  end.
Proof.
  intros [Hp Hr] [Hi|[HM Hsz]].
  - rewrite step_ignored by exact Hi. unfold addReferencedPaths_step.
    destruct Hi as (Hi & _). destruct (N.eqb_spec (Model op) CommitModel); [contradiction|].
    split; [split; assumption | reflexivity].
  - assert (Hlen : plen ps = slen refs).
    { unfold plen, slen. rewrite Hp, length_map. reflexivity. }
    unfold addReferencedPaths_step. rewrite HM.
    change (CommitModel =? CommitModel)%N with true. cbv iota.
    destruct (Type_ op) eqn:HT.
    + (* Init *)
      assert (Hs : branchToVersionInfos_step growcap ref true (refs, 0) op
                   = Ok (sappend growcap refs (versionInfoFromOp ref op), 0)).
      { unfold branchToVersionInfos_step. rewrite HM, HT.
        change (CommitModel =? CommitModel)%N with true. cbv iota.
        destruct (String.eqb_spec (commitOpRunID op) "") as [|Hne]; [reflexivity|].
        cbn [negb andb]. destruct (0 <? slen refs); [|reflexivity].
        destruct (sliceIndex refs (slen refs - 1)) as [li| |] eqn:Eli; try reflexivity.
        assert (Hli : RunID li = "").
        { unfold sliceIndex in Eli. destruct (_ && _); [|discriminate].
          destruct (visible refs !! Z.to_nat (slen refs - 1)) as [x|] eqn:Ex; [|discriminate].
          injection Eli as <-. rewrite Forall_lookup in Hr. apply (Hr _ _ Ex). }
        rewrite Hli. destruct (String.eqb_spec (commitOpRunID op) ""); [contradiction|].
        reflexivity. }
      rewrite Hs. split; [|reflexivity]. split.
      * rewrite pvisible_pappend, visible_sappend, map_app, Hp. reflexivity.
      * rewrite visible_sappend. apply Forall_app. split; [exact Hr|].
        constructor; [reflexivity|constructor].
    + (* Amend *)
      unfold branchToVersionInfos_step. rewrite HM, HT.
      change (CommitModel =? CommitModel)%N with true. cbv iota.
      unfold pathsSet. rewrite Hlen.
      destruct (Z.le_gt_cases 1 (slen refs)) as [Hge|Hlt].
      * rewrite sliceAlter_ok by lia.
        destruct (Z.leb_spec 0 (slen refs - 1)); [|lia].
        destruct (Z.ltb_spec (slen refs - 1) (slen refs)); [|lia].
        cbn [andb]. split; [|reflexivity]. split; cbn [pvisible visible].
        -- rewrite Hp. apply list_eq. intros k.
           rewrite list_lookup_fmap.
           destruct (decide (k = Z.to_nat (slen refs - 1))) as [->|Hne].
           ++ rewrite list_lookup_alter_eq, list_lookup_insert_eq
                by (rewrite length_map; unfold slen in *; lia).
              destruct (visible refs !! Z.to_nat (slen refs - 1)) eqn:E; [reflexivity|].
              apply lookup_ge_None in E. unfold slen in *. lia.
           ++ rewrite list_lookup_alter_ne, list_lookup_insert_ne by congruence.
              rewrite list_lookup_fmap. reflexivity.
        -- rewrite Forall_lookup in Hr |- *. intros k v Hk.
           destruct (decide (k = Z.to_nat (slen refs - 1))) as [->|Hne].
           ++ rewrite list_lookup_alter_eq in Hk.
              destruct (visible refs !! Z.to_nat (slen refs - 1)); [|discriminate].
              injection Hk as <-. reflexivity.
           ++ rewrite list_lookup_alter_ne in Hk by congruence. apply (Hr _ _ Hk).
      * rewrite sliceAlter_panic by lia.
        destruct (Z.leb_spec 0 (slen refs - 1)); [lia|]. exact I.
    + (* Remove *)
      specialize (Hsz eq_refl).
      unfold branchToVersionInfos_step. rewrite HM, HT.
      change (CommitModel =? CommitModel)%N with true. cbv iota.
      unfold pathsTo, sliceTo. rewrite Hlen.
      set (v := wrap64 (slen refs - Size op)).
      assert (Hv : v < 0 \/ 0 <= v <= slen refs).
      { unfold v. destruct (Z.lt_ge_cases (slen refs - Size op) 0) as [Hneg|Hpos].
        - left. rewrite wrap64_small by (unfold slen in *; lia). exact Hneg.
        - pose proof (wrap64_le _ Hpos).
          destruct (Z.lt_ge_cases (wrap64 (slen refs - Size op)) 0); [left|right]; lia. }
      destruct Hv as [Hneg|Hin].
      * destruct (Z.leb_spec 0 v); [lia|]. exact I.
      * destruct (Z.leb_spec 0 v); [|lia].
        destruct (Z.leb_spec v (scap refs)); [|unfold scap, slen in *; lia].
        destruct (Z.leb_spec v (pcap ps)); [|unfold pcap, plen, slen in *; lia].
        cbn [andb]. split; [|reflexivity]. split; cbn [pvisible visible].
        -- rewrite !take_app_le by (unfold plen, slen in *; lia).
           rewrite Hp. change map with (@fmap list _). rewrite fmap_take. reflexivity.
        -- rewrite take_app_le by (unfold slen in *; lia). apply Forall_take. exact Hr.
Qed.

Lemma loop_inStep ops : forall refs ps,
  inStep refs ps -> Forall commitsOnly ops ->
  match branchToVersionInfos_loop growcap ref true (refs, 0) ops,
        addReferencedPaths_loop growcapPaths ps ops with
  | Ok (refs', d'), Ok ps' => inStep refs' ps' /\ d' = 0
  | Panic, Panic => True
  | _, _ => False
  end.
Proof.
  induction ops as [|op ops IH]; intros refs ps Hin Hops.
  - cbn. split; [exact Hin|reflexivity].
  - inversion Hops as [|? ? Hop Hrest]; subst.
    cbn [branchToVersionInfos_loop addReferencedPaths_loop].
    pose proof (step_inStep refs ps op Hin Hop) as Hs.
    destruct (branchToVersionInfos_step growcap ref true (refs, 0) op) as [[refs' d']| |],
      (addReferencedPaths_step growcapPaths ps op) as [ps'| |]; try contradiction.
    + destruct Hs as [Hin' ->]. apply IH; assumption.
    + exact I.
Qed.

End PathFacts.

(** X24. On a log without children, whose ops are commit ops (a Remove of a size
    that is not negative) or of a model neither function looks at,
    [addReferencedPaths] adds exactly the paths of the versions that
    [branchToVersionInfos] lists when it collapses all deletes, and it
    panics exactly when that derivation panics. *)
Theorem referenced_paths_are_the_listed_versions (growcap growcapPaths : nat -> nat)
    (ref : Ref) (ops : list Op) (signature : list Byte.byte) (paths : gset string) :
  Forall commitsOnly ops ->
  match branchToVersionInfos growcap (mkLog ops [] signature) ref 0 (-1) true with
  | Ok versions =>
      addReferencedPaths growcapPaths (mkLog ops [] signature) paths
      = Ok (list_to_set (map viPath versions) ∪ paths)
  | Err _ => False
  | Panic => addReferencedPaths growcapPaths (mkLog ops [] signature) paths = Panic
  end.
Proof.
  intros Hops. rewrite addReferencedPaths_unfold. unfold branchToVersionInfos. cbn [Ops].
  pose proof (loop_inStep growcap growcapPaths ref ops emptySlice emptyPaths
                (conj eq_refl (Forall_nil_2 _)) Hops) as Hs.
  destruct (branchToVersionInfos_loop growcap ref true (emptySlice, 0) ops) as [[refs d]| |],
    (addReferencedPaths_loop growcapPaths emptyPaths ops) as [ps| |]; try contradiction.
  - destruct Hs as [[Hp _] ->]. rewrite finish_all. cbn [addAllReferencedPaths].
    rewrite addPaths_union, Hp. change map with (@fmap list _).
    rewrite fmap_reverse, list_to_set_reverse_paths. reflexivity.
  - reflexivity.
Qed.

(** What a log adds to the map does not depend on what the map holds. *)
Lemma addReferencedPaths_additive (growcapPaths : nat -> nat) (log : Log) :
  (exists own : gset string,
      forall paths, addReferencedPaths growcapPaths log paths = Ok (own ∪ paths))
  \/ (forall paths, addReferencedPaths growcapPaths log paths = Panic).
Proof.
  induction log as [ops logs sig IH] using Log_forall_ind.
  assert (Hall : (exists own : gset string,
                     forall paths, addAllReferencedPaths growcapPaths logs paths
                                   = Ok (own ∪ paths))
                 \/ (forall paths, addAllReferencedPaths growcapPaths logs paths = Panic)).
  { induction logs as [|l logs IHl].
    - left. exists ∅. intros paths. cbn. f_equal. symmetry. apply (left_id_L ∅ (∪)).
    - inversion IH as [|? ? Hl Hrest]; subst. specialize (IHl Hrest).
      cbn [addAllReferencedPaths].
      destruct Hl as [(own1 & H1)|H1].
      + destruct IHl as [(own2 & H2)|H2].
        * left. exists (own2 ∪ own1). intros paths. rewrite H1, H2. f_equal.
          apply set_eq. intros x. rewrite !elem_of_union. tauto.
        * right. intros paths. rewrite H1, H2. reflexivity.
      + right. intros paths. rewrite H1. reflexivity. }
  destruct (addReferencedPaths_loop growcapPaths emptyPaths ops) as [ps|e|] eqn:E.
  - destruct Hall as [(own & H)|H].
    + left. exists (own ∪ list_to_set (pvisible ps)). intros paths.
      rewrite addReferencedPaths_unfold, E, H, addPaths_union. f_equal.
      apply set_eq. intros x. rewrite !elem_of_union. tauto.
    + right. intros paths. rewrite addReferencedPaths_unfold, E. apply H.
  - exfalso. exact (addReferencedPaths_loop_no_err _ _ _ _ E).
  - right. intros paths. rewrite addReferencedPaths_unfold, E. reflexivity.
Qed.

Lemma update_id : forall p logs, update (fun lg => lg) logs p = logs.
Proof.
  induction p as [|i p IH]; intros logs; [reflexivity|].
  rewrite update_cons. apply list_eq. intros k.
  destruct (decide (k = i)) as [->|Hne].
  - rewrite list_lookup_alter_eq. destruct (logs !! i) as [x|]; [|reflexivity].
    cbn [fmap option_fmap option_map]. f_equal.
    destruct p as [|j p]; [reflexivity|]. rewrite IH. apply setLogs_same.
  - rewrite list_lookup_alter_ne by congruence. reflexivity.
Qed.

Lemma appendAll_nil lg : appendAll [] lg = lg.
Proof. destruct lg. unfold appendAll. cbn [Ops Logs Signature]. rewrite app_nil_r. reflexivity. Qed.

Lemma appendAll_cons op ops lg : appendAll ops (Append op lg) = appendAll (op :: ops) lg.
Proof.
  unfold appendAll, Append. cbn [Ops Logs Signature]. rewrite <- app_assoc. reflexivity.
Qed.

Section HistoryFacts.
Context {PrivKey PubKey Filesystem : Type}.
Context {C : Collaborators PrivKey PubKey Filesystem}.
Local Abbreviation Book := (@Book PrivKey Filesystem).

Lemma appendHistory_ok p (history : list dataset.Dataset) : forall (ops : list Op) (book : Book) blog,
  Forall2 (fun ds op => versionSaveOp ds = Ok op) history ops ->
  exists book',
    appendHistory book p blog history = (book', Ok (appendAll ops blog))
    /\ store book' = update (appendAll ops) (store book) p
    /\ pk book' = pk book /\ authorID book' = authorID book
    /\ effects book' = effects book.
Proof.
  induction history as [|ds history IH]; intros ops book blog HF.
  - inversion HF; subst. exists book. cbn [appendHistory]. rewrite appendAll_nil.
    split; [reflexivity|]. split; [|repeat split].
    rewrite (update_ext (appendAll []) (fun lg => lg)) by apply appendAll_nil.
    symmetry. apply update_id.
  - inversion HF as [|? op ? ops' Hop Hrest]; subst. cbn [appendHistory].
    unfold appendVersionSave. rewrite Hop. cbn [attempt].
    destruct (IH ops' (modifyLog (Append op) p book) (Append op blog) Hrest)
      as (book' & Hh & Hs & Hpk & Hid & He).
    exists book'. rewrite Hh, appendAll_cons. split; [reflexivity|].
    split; [|repeat split; assumption].
    rewrite Hs. cbn [modifyLog withStore store]. rewrite update_update.
    apply update_ext. intros x. apply appendAll_cons.
Qed.

End HistoryFacts.

Section ConstructFacts.
Context {PrivKey PubKey Filesystem : Type}.
Context {C : Collaborators PrivKey PubKey Filesystem}.
Local Abbreviation Book := (@Book PrivKey Filesystem).

(** X20. [ConstructDatasetLog] for a name the author has not used writes the
    dataset and one commit op per version of the history: it returns no
    error and [Items] lists the history, newest first. A second call for the
    same reference is refused with [ErrLogTooShort] and changes nothing. *)
Theorem constructed_log_lists_the_history (book : Book) (ref : Ref)
    (history : list dataset.Dataset) (ops : list Op) now1 now2 i userLog :
  dsref.Username ref = Username book ->
  dsref.Name ref <> "" -> IsValidName (dsref.Name ref) = true ->
  findNamed (Username book) (store book) = Some (i, userLog) ->
  authorLog book = Ok ([i], userLog) ->
  findNamed (dsref.Name ref) (Logs userLog) = None ->
  Journal_Get Hash (store book) (Hash (datasetInitOp book (dsref.Name ref) now1))
  = Err ErrOplogNotFound ->
  cipherWorks book ->
  Forall2 (fun ds op => versionSaveOp ds = Ok op /\ commitOpRunID op = "") history ops ->
  let book' := fst (ConstructDatasetLog book ref history now1 now2) in
  snd (ConstructDatasetLog book ref history now1 now2) = Ok tt
  /\ Items book' ref 0 (-1) = Ok (reverse (map (versionInfoFromOp ref) ops))
  /\ ConstructDatasetLog book' ref history now1 now2 = (book', Err ErrLogTooShort).
Proof.
  intros Hru Hne Hv Hu Hal Hfresh Hid Hw Hhist book'.
  set (dsName := dsref.Name ref) in *.
  destruct (WriteDatasetInit_fresh_refers book dsName now1 now2 i userLog
              Hne Hv Hu Hal Hfresh Hid) as [HinitID Hrefers].
  specialize (Hrefers ref Hru eq_refl).
  pose proof (WriteDatasetInit_fresh book dsName now1 now2 i userLog Hne Hv Hu Hal Hfresh)
    as Hinit.
  cbv zeta in Hinit.
  set (dsLog := newDatasetLog book dsName now1 now2) in *.
  set (pre := Publish event.ETDatasetNameInit
                {| event.InitID := Log_ID Hash dsLog; event.TopIndex := 0;
                   event.ProfileID := Log_Author userLog; event.Username := Username book;
                   event.PrettyName := dsName; event.HeadRef := ""; event.Info := None |}
                (modifyLog (AddChild dsLog) [i] book)) in *.
  destruct (save_works pre) as (loc & fs' & data & pe & Hsave); [intros logs; apply Hw|].
  rewrite Hinit, Hsave in Hrefers. cbn [fst snd] in Hrefers.
  set (book1 := mkBook (store pre) (pk pre) (authorID pre) (authorName pre) loc fs'
                  (effects pre ++ [EffPut (fsLocation pre) data pe])) in *.
  set (initID := Log_ID Hash dsLog) in *.
  set (blog0 := InitLog (branchInitOp book now2)) in *.
  set (p := [i; length (Logs userLog); 0%nat]) in *.
  assert (HF : Forall2 (fun ds op => versionSaveOp ds = Ok op) history ops).
  { eapply Forall2_impl; [exact Hhist|]. intros ds op [H _]. exact H. }
  destruct (appendHistory_ok p history ops book1 blog0 HF)
    as (book2 & Hh & Hs2 & Hpk2 & Hid2 & He2).
  destruct (save_works book2) as (loc2 & fs2 & data2 & pe2 & Hsave2).
  { intros logs. rewrite Hpk2. apply Hw. }
  assert (Hnot : RefToInitID book ref = Err ErrNotFound).
  { unfold RefToInitID, Journal_HeadRef. cbn [Log_HeadRef]. rewrite Hru, Hu.
    fold dsName. rewrite Hfresh. reflexivity. }
  assert (Hrun : ConstructDatasetLog book ref history now1 now2 = save book2).
  { unfold ConstructDatasetLog. rewrite Hnot. fold dsName. rewrite Hinit, Hsave.
    fold book1. cbn [fst snd]. rewrite (refersTo_branchLog _ _ _ _ _ Hrefers). cbn [attempt].
    rewrite Hh. cbn [attempt]. reflexivity. }
  assert (Hr2 : refersTo book' ref initID p (appendAll ops blog0)).
  { apply (refersTo_append book1 book' ref initID p blog0 ops Hrefers); [discriminate|].
    unfold book'. rewrite Hrun, save_store. exact Hs2. }
  split; [rewrite Hrun, Hsave2; reflexivity|].
  split.
  - rewrite (refersTo_Items _ _ _ _ _ _ _ Hr2).
    unfold branchToVersionInfos.
    destruct (loop_plain_saves growcap ref true (Ops (appendAll ops blog0)) emptySlice 0)
      as (refs & -> & Hv').
    { unfold appendAll, blog0. cbn [Ops InitLog app]. constructor.
      - left. repeat split; discriminate.
      - clear -Hhist. induction Hhist as [|ds op history ops [Hop Hrun] _ IH]; constructor.
        + right. unfold versionSaveOp in Hop. destruct (dataset.Commit_ ds); [|discriminate].
          injection Hop as <-. repeat split. exact Hrun.
        + exact IH. }
    rewrite finish_all, Hv'. cbn [emptySlice visible app]. do 3 f_equal.
    unfold appendAll, blog0. cbn [Ops InitLog app].
    rewrite filter_cons, decide_False by discriminate.
    clear -Hhist. induction Hhist as [|ds op history ops [Hop Hrun] _ IH]; [reflexivity|].
    rewrite filter_cons, decide_True.
    + f_equal. exact IH.
    + unfold versionSaveOp in Hop. destruct (dataset.Commit_ ds); [|discriminate].
      injection Hop as <-. reflexivity.
  - unfold ConstructDatasetLog at 1.
    rewrite (refersTo_RefToInitID _ ref initID p _ ref Hr2 eq_refl eq_refl). reflexivity.
Qed.

End ConstructFacts.

Lemma knownModels_unfold ops logs sig :
  knownModels (mkLog ops logs sig)
  <-> Forall (fun op => (Model op <= ACLModel)%N) ops /\ Forall knownModels logs.
Proof.
  cbn [knownModels]. split; intros [H1 H2]; (split; [exact H1|]).
  - induction logs as [|l logs IH]; constructor; [apply H2 | apply IH, H2].
  - induction H2 as [|l logs Hl _ IH]; [exact I | split; assumption].
Qed.

Lemma ModelString_known_inj m1 m2 :
  (m1 <= ACLModel)%N -> (m2 <= ACLModel)%N -> ModelString m1 = ModelString m2 -> m1 = m2.
Proof.
  unfold ModelString, AuthorModel, DatasetModel, BranchModel, CommitModel, PushModel,
    ACLModel, RunModel.
  intros H1 H2.
  repeat match goal with
         | |- context [(?m =? ?k)%N] => destruct (N.eqb_spec m k)
         end; intros H; try discriminate; lia.
Qed.

Lemma opTypeString_inj t1 t2 : opTypeString t1 = opTypeString t2 -> t1 = t2.
Proof. destruct t1, t2; intros H; try discriminate; reflexivity. Qed.

Lemma newPlainOp_known_inj op1 op2 :
  (Model op1 <= ACLModel)%N -> (Model op2 <= ACLModel)%N ->
  newPlainOp op1 = newPlainOp op2 -> op1 = op2.
Proof.
  intros H1 H2 H. destruct op1, op2. unfold newPlainOp in H. cbn in *.
  injection H as Ht Hm -> -> -> -> -> -> -> ->.
  apply opTypeString_inj in Ht as ->.
  apply (ModelString_known_inj _ _ H1 H2) in Hm as ->. reflexivity.
Qed.

(** X23. For logs whose ops have models the package knows, the plain form
    keeps everything but the signatures: two logs have the same plain log
    if and only if they are equal once the signatures are taken off. *)
Theorem plain_log_keeps_all_but_signatures (a b : Log) :
  knownModels a -> knownModels b ->
  (NewPlainLog a = NewPlainLog b <-> withoutSignatures a = withoutSignatures b).
Proof.
  intros Ha Hb. split.
  - revert b Hb Ha. induction a as [ops logs sig IH] using Log_forall_ind.
    intros [ops' logs' sig'] Hb Ha.
    apply knownModels_unfold in Ha as [Hao Hal].
    apply knownModels_unfold in Hb as [Hbo Hbl].
    cbn [NewPlainLog withoutSignatures]. intros [= Ho Hl].
    f_equal.
    + clear -Ho Hao Hbo. revert ops' Ho Hbo.
      induction Hao as [|op ops Hop _ IHo]; intros [|op' ops'] Ho Hbo;
        try discriminate; [reflexivity|].
      inversion Hbo; subst. cbn [map] in Ho.
      remember (newPlainOp op) as x eqn:Hx. remember (newPlainOp op') as y eqn:Hy.
      injection Ho as Hxy Ho. subst x y.
      f_equal; [apply newPlainOp_known_inj; assumption | apply IHo; assumption].
    + clear -Hl IH Hal Hbl. revert logs' Hl Hbl.
      induction IH as [|l logs Hi _ IHl]; intros [|l' logs'] Hl Hbl;
        try discriminate; [reflexivity|].
      inversion Hal; subst. inversion Hbl; subst. cbn [map] in Hl |- *.
      injection Hl as Hl1 Hl2.
      f_equal; [apply Hi; assumption | apply IHl; assumption].
  - clear Ha Hb. revert b. induction a as [ops logs sig IH] using Log_forall_ind.
    intros [ops' logs' sig']. cbn [NewPlainLog withoutSignatures]. intros [= -> Hl].
    f_equal. revert logs' Hl.
    induction IH as [|l logs Hi _ IHl]; intros [|l' logs'] Hl;
      try discriminate; [reflexivity|].
    cbn [map] in Hl |- *. injection Hl as Hl1 Hl2.
    f_equal; [apply Hi; assumption | apply IHl; assumption].
Qed.

(** X5. The run id written by [appendVersionSave] is the one [commitOpRunID]
    reads back: for the op built from a dataset the result is the commit's
    run id (the empty string included); in general it is the rest of the
    first relation that starts with "runID:", and the empty string when no
    relation does. *)
Theorem run_id_relation_round_trip :
  (forall ds commit op,
      dataset.Commit_ ds = Some commit -> versionSaveOp ds = Ok op ->
      commitOpRunID op = dataset.RunID commit)
  /\ (forall op before id after,
         Relations op = before ++ String.append runIDRelPrefix id :: after ->
         Forall (fun relation => HasPrefix relation runIDRelPrefix = false) before ->
         commitOpRunID op = id)
  /\ (forall op,
         Forall (fun relation => HasPrefix relation runIDRelPrefix = false) (Relations op) ->
         commitOpRunID op = "").
Proof.
  split; [exact commitOpRunID_versionSaveOp|]. split.
  - intros op before id after Hrel Hbefore. unfold commitOpRunID. rewrite Hrel. clear Hrel.
    induction Hbefore as [|r before Hr _ IH]; cbn [app commitOpRunID_loop].
    + unfold HasPrefix. rewrite prefix_append. apply TrimPrefix_append.
    + rewrite Hr. exact IH.
  - intros op H. unfold commitOpRunID.
    induction H as [|r rest Hr _ IH]; cbn [commitOpRunID_loop]; [reflexivity|].
    rewrite Hr. exact IH.
Qed.

Section AliasFacts.
Context {PrivKey PubKey Filesystem : Type}.
Context {C : Collaborators PrivKey PubKey Filesystem}.
Local Abbreviation Book := (@Book PrivKey Filesystem).

(** X27. Once the author has initialized a first dataset, [DsrefAliasForLog]
    of the author's log gives the reference of that dataset: the author's
    name, the dataset name and the author's profile id, with no init id and
    no path. *)
Theorem alias_of_first_dataset (book : Book) dsName now1 now2 i userLog :
  dsName <> "" -> IsValidName dsName = true ->
  findNamed (Username book) (store book) = Some (i, userLog) ->
  authorLog book = Ok ([i], userLog) ->
  Logs userLog = [] ->
  Log_Model userLog = AuthorModel ->
  let book' := fst (WriteDatasetInit book dsName now1 now2) in
  exists userLog',
    store book' !! i = Some userLog'
    /\ DsrefAliasForLog userLog'
       = ({| InitID := ""; dsref.Username := Username book;
             ProfileID := Log_Author userLog; dsref.Name := dsName; Path := "" |}, Ok tt).
Proof.
  intros Hne Hv Hu Hal Hnone Hm book'.
  assert (Hfresh : findNamed dsName (Logs userLog) = None) by (rewrite Hnone; reflexivity).
  pose proof (WriteDatasetInit_fresh book dsName now1 now2 i userLog Hne Hv Hu Hal Hfresh)
    as Hinit.
  cbv zeta in Hinit. unfold book'. rewrite Hinit. cbn [fst]. rewrite save_store.
  cbn [Publish modifyLog withStore store update].
  apply findNamed_Some in Hu as [Hi Hname].
  exists (AddChild (newDatasetLog book dsName now1 now2) userLog).
  split; [rewrite list_lookup_alter_eq, Hi; reflexivity|].
  unfold DsrefAliasForLog.
  change (Log_Model (AddChild (newDatasetLog book dsName now1 now2) userLog))
    with (Log_Model userLog).
  rewrite Hm. change (AuthorModel =? AuthorModel)%N with true. cbn [negb].
  unfold AddChild at 1. cbn [Logs]. rewrite Hnone. cbn [app].
  change (Log_Name (AddChild (newDatasetLog book dsName now1 now2) userLog))
    with (Log_Name userLog).
  rewrite Hname. reflexivity.
Qed.

End AliasFacts.

Section NewJournalFacts.
Context {PrivKey PubKey Filesystem : Type}.
Context {C : Collaborators PrivKey PubKey Filesystem}.
Local Abbreviation Book := (@Book PrivKey Filesystem).

(** X19. [NewJournalOverwriteWithProfileID] with a key, a filesystem, a bus, a
    location and a profile id returns a book whose journal holds the
    author's log and nothing else: one Init op with the username and the
    profile id. The book's author id is the id of that log, and
    [ActivePeerID] is the profile id. *)
Theorem new_journal_holds_the_author_log (key : PrivKey) (username : string)
    (fs : Filesystem) (location profileID : string) (now : Z) :
  location <> "" -> profileID <> "" ->
  let userLog :=
    InitLog {| Type_ := OpTypeInit; Model := AuthorModel; oplog.Ref := ""; Prev := "";
               Relations := []; oplog.Name := username; oplog.AuthorID := profileID;
               Timestamp := now; Size := 0; Note := "" |} in
  Journal_MergeLog [] userLog = ([userLog], None) ->
  (forall logs, snd (FlatbufferCipher logs key) = None) ->
  exists book,
    NewJournalOverwriteWithProfileID (Some key) username (Some tt) (Some fs) location
      profileID now = (Some book, Ok tt)
    /\ store book = [userLog]
    /\ Username book = username
    /\ authorID book = Log_ID Hash userLog
    /\ authorLog book = Ok ([0%nat], userLog)
    /\ findNamed (Username book) (store book) = Some (0%nat, userLog)
    /\ ActivePeerID book = Ok profileID
    /\ cipherWorks book.
Proof.
  intros Hloc Hpid userLog Hmerge Hcipher.
  unfold NewJournalOverwriteWithProfileID.
  rewrite (proj2 (String.eqb_neq location "") Hloc), (proj2 (String.eqb_neq profileID "") Hpid).
  unfold initialize. cbn [Username authorName withAuthorID store]. fold userLog.
  rewrite Hmerge.
  match goal with
  | |- context [save ?b] =>
      destruct (save_works b) as (loc & fs' & data & pe & Hs);
        [intros logs; apply Hcipher | rewrite Hs]
  end.
  eexists. split; [reflexivity|].
  cbn [store withStore withAuthorID authorID authorName pk].
  split; [reflexivity|]. split; [reflexivity|]. split; [reflexivity|].
  assert (Hal : Journal_Get Hash [userLog] (Log_ID Hash userLog) = Ok ([0%nat], userLog)).
  { unfold Journal_Get. cbn [first_some_from]. rewrite Log_find_unfold, String.eqb_refl.
    reflexivity. }
  split; [exact Hal|].
  split.
  { unfold findNamed. cbn [first_some_from].
    change (Log_Name userLog) with username. unfold Username. cbn [authorName].
    rewrite String.eqb_refl. reflexivity. }
  split.
  { unfold ActivePeerID. cbn [store authorID]. rewrite Hal. reflexivity. }
  intros logs. apply Hcipher.
Qed.

End NewJournalFacts.

Lemma addAllReferencedPaths_additive (growcapPaths : nat -> nat) (logs : list Log) :
  (exists own : gset string,
      forall paths, addAllReferencedPaths growcapPaths logs paths = Ok (own ∪ paths))
  \/ (forall paths, addAllReferencedPaths growcapPaths logs paths = Panic).
Proof.
  induction logs as [|l logs IHl].
  - left. exists ∅. intros paths. cbn. f_equal. symmetry. apply (left_id_L ∅ (∪)).
  - cbn [addAllReferencedPaths].
    destruct (addReferencedPaths_additive growcapPaths l) as [(own1 & H1)|H1].
    + destruct IHl as [(own2 & H2)|H2].
      * left. exists (own2 ∪ own1). intros paths. rewrite H1, H2. f_equal.
        apply set_eq. intros x. rewrite !elem_of_union. tauto.
      * right. intros paths. rewrite H1, H2. reflexivity.
    + right. intros paths. rewrite H1. reflexivity.
Qed.

Lemma addReferencedPaths_grows gp l paths S :
  addReferencedPaths gp l paths = Ok S -> paths ⊆ S.
Proof.
  destruct (addReferencedPaths_additive gp l) as [(own & H)|H]; rewrite H; [|discriminate].
  intros [= <-]. apply union_subseteq_r.
Qed.

Lemma addAllReferencedPaths_grows gp logs paths S :
  addAllReferencedPaths gp logs paths = Ok S -> paths ⊆ S.
Proof.
  destruct (addAllReferencedPaths_additive gp logs) as [(own & H)|H]; rewrite H; [|discriminate].
  intros [= <-]. apply union_subseteq_r.
Qed.

(** What is listed keeps what each of its logs adds. *)
Lemma addAllReferencedPaths_member gp : forall logs paths S k l own,
  addAllReferencedPaths gp logs paths = Ok S ->
  logs !! k = Some l ->
  addReferencedPaths gp l ∅ = Ok own ->
  own ⊆ S.
Proof.
  induction logs as [|a logs IH]; intros paths S k l own Hall Hk Hown; [discriminate|].
  cbn [addAllReferencedPaths] in Hall.
  destruct (addReferencedPaths gp a paths) as [paths'| |] eqn:Ea; try discriminate.
  destruct k as [|k]; cbn in Hk.
  - injection Hk as ->.
    destruct (addReferencedPaths_additive gp l) as [(o & H)|H];
      rewrite H in Hown, Ea; [|discriminate].
    injection Hown as <-. injection Ea as <-.
    apply addAllReferencedPaths_grows in Hall.
    intros x Hx. apply Hall. rewrite elem_of_union in Hx |- *. destruct Hx as [Hx|Hx]; [left; exact Hx|].
    exfalso. exact (not_elem_of_empty x Hx).
  - apply (IH _ _ _ _ _ Hall Hk Hown).
Qed.

Lemma addReferencedPaths_ok_empty gp l paths S :
  addReferencedPaths gp l paths = Ok S -> exists own, addReferencedPaths gp l ∅ = Ok own.
Proof.
  destruct (addReferencedPaths_additive gp l) as [(own & H)|H]; rewrite !H; [|discriminate].
  intros _. eauto.
Qed.

Lemma addAllReferencedPaths_ok_member gp : forall logs paths S k l,
  addAllReferencedPaths gp logs paths = Ok S -> logs !! k = Some l ->
  exists own, addReferencedPaths gp l ∅ = Ok own.
Proof.
  induction logs as [|a logs IH]; intros paths S k l Hall Hk; [discriminate|].
  cbn [addAllReferencedPaths] in Hall.
  destruct (addReferencedPaths gp a paths) as [paths'| |] eqn:Ea; try discriminate.
  destruct k as [|k]; cbn in Hk.
  - injection Hk as ->. apply (addReferencedPaths_ok_empty _ _ _ _ Ea).
  - apply (IH _ _ _ _ Hall Hk).
Qed.

(** What a log adds holds what a log below it adds. *)
Lemma addReferencedPaths_below gp : forall p lg found own ownFound,
  deref (Logs lg) p = Some found ->
  addReferencedPaths gp lg ∅ = Ok own ->
  addReferencedPaths gp found ∅ = Ok ownFound ->
  ownFound ⊆ own.
Proof.
  induction p as [|k p IH]; intros lg found own ownFound Hd Hown Hf; [discriminate|].
  destruct lg as [ops logs sig]. cbn [Logs] in Hd.
  rewrite addReferencedPaths_unfold in Hown.
  destruct (addReferencedPaths_loop gp emptyPaths ops) as [ps| |]; try discriminate.
  destruct p as [|j p].
  - rewrite deref_top in Hd. apply (addAllReferencedPaths_member _ _ _ _ _ _ _ Hown Hd Hf).
  - rewrite deref_below in Hd. destruct (logs !! k) as [child|] eqn:Hk; [|discriminate].
    destruct (addAllReferencedPaths_ok_member _ _ _ _ _ _ Hown Hk) as (ownChild & Hc).
    transitivity ownChild.
    + apply (IH child found ownChild ownFound Hd Hc Hf).
    + apply (addAllReferencedPaths_member _ _ _ _ _ _ _ Hown Hk Hc).
Qed.

Lemma addAllReferencedPaths_deref gp : forall p logs found S,
  deref logs p = Some found ->
  addAllReferencedPaths gp logs ∅ = Ok S ->
  exists ownFound, addReferencedPaths gp found ∅ = Ok ownFound /\ ownFound ⊆ S.
Proof.
  intros p logs found S Hd Hall.
  destruct p as [|k p]; [discriminate|].
  destruct p as [|j p].
  - rewrite deref_top in Hd.
    destruct (addAllReferencedPaths_ok_member _ _ _ _ _ _ Hall Hd) as (own & Hown).
    exists own. split; [exact Hown|]. apply (addAllReferencedPaths_member _ _ _ _ _ _ _ Hall Hd Hown).
  - rewrite deref_below in Hd. destruct (logs !! k) as [top|] eqn:Hk; [|discriminate].
    destruct (addAllReferencedPaths_ok_member _ _ _ _ _ _ Hall Hk) as (ownTop & Ht).
    assert (Hf : exists ownFound, addReferencedPaths gp found ∅ = Ok ownFound).
    { clear -Hd Ht. revert top ownTop Hd Ht. generalize (j :: p) as q.
      induction q as [|i q IHq]; intros top ownTop Hd Ht; [discriminate|].
      destruct top as [ops logs sig]. cbn [Logs] in Hd.
      rewrite addReferencedPaths_unfold in Ht.
      destruct (addReferencedPaths_loop gp emptyPaths ops) as [ps| |]; try discriminate.
      destruct q as [|i' q].
      - rewrite deref_top in Hd. apply (addAllReferencedPaths_ok_member _ _ _ _ _ _ Ht Hd).
      - rewrite deref_below in Hd. destruct (logs !! i) as [child|] eqn:Hi; [|discriminate].
        destruct (addAllReferencedPaths_ok_member _ _ _ _ _ _ Ht Hi) as (oc & Hc).
        apply (IHq child oc Hd Hc). }
    destruct Hf as (ownFound & Hf). exists ownFound. split; [exact Hf|].
    transitivity ownTop.
    + apply (addReferencedPaths_below gp (j :: p) top found _ _ Hd Ht Hf).
    + apply (addAllReferencedPaths_member _ _ _ _ _ _ _ Hall Hk Ht).
Qed.

(** X25. [addReferencedPaths] only ever adds: a log, and a list of logs, either
    panics whatever the set is, or adds one fixed set of paths to the set it
    is given. *)
Theorem referenced_paths_accumulate (growcapPaths : nat -> nat) (log : Log)
    (logs : list Log) :
  ((exists own : gset string,
       forall paths, addReferencedPaths growcapPaths log paths = Ok (own ∪ paths))
   \/ (forall paths, addReferencedPaths growcapPaths log paths = Panic))
  /\ ((exists own : gset string,
          forall paths, addAllReferencedPaths growcapPaths logs paths = Ok (own ∪ paths))
      \/ (forall paths, addAllReferencedPaths growcapPaths logs paths = Panic)).
Proof.
  split; [apply addReferencedPaths_additive | apply addAllReferencedPaths_additive].
Qed.

Section ReferencedFacts.
Context {PrivKey PubKey Filesystem : Type}.
Context {C : Collaborators PrivKey PubKey Filesystem}.
Local Abbreviation Book := (@Book PrivKey Filesystem).

(** X26. Every version [Items] lists for a dataset of the book is among the
    paths [AllReferencedDatasetPaths] returns, when the journal lists all
    its logs and the branch log holds commit ops only. *)
Theorem listed_versions_are_referenced
    (Journal_Logs : list Log -> Z -> Z -> result (list Log)) (growcapPaths : nat -> nat)
    (book : Book) ref initID p blog versions referenced :
  Journal_Logs (store book) 0 (-1) = Ok (store book) ->
  refersTo book ref initID p blog ->
  Forall commitsOnly (Ops blog) -> Logs blog = [] ->
  Items book ref 0 (-1) = Ok versions ->
  AllReferencedDatasetPaths Journal_Logs growcapPaths book = Ok referenced ->
  forall version, version ∈ versions -> viPath version ∈ referenced.
Proof.
  intros Hlist Hr Hops Hleaf Hitems Hall version Hin.
  unfold AllReferencedDatasetPaths, ListAllLogs in Hall. rewrite Hlist in Hall.
  pose proof (branchLog_sound _ _ _ _ (refersTo_branchLog _ _ _ _ _ Hr)) as Hd.
  destruct (addAllReferencedPaths_deref growcapPaths p (store book) blog referenced Hd Hall)
    as (own & Hown & Hsub).
  rewrite (refersTo_Items _ _ _ _ _ _ _ Hr) in Hitems.
  destruct blog as [ops logs sig]. cbn [Logs Ops] in *. subst logs.
  rewrite addReferencedPaths_unfold in Hown.
  unfold branchToVersionInfos in Hitems. cbn [Ops] in Hitems.
  pose proof (loop_inStep growcap growcapPaths ref ops emptySlice emptyPaths
                (conj eq_refl (Forall_nil_2 _)) Hops) as Hs.
  destruct (branchToVersionInfos_loop growcap ref true (emptySlice, 0) ops) as [[refs d]| |],
    (addReferencedPaths_loop growcapPaths emptyPaths ops) as [ps| |];
    try contradiction; try discriminate.
  destruct Hs as [[Hp _] ->]. rewrite finish_all in Hitems. injection Hitems as <-.
  cbn [addAllReferencedPaths] in Hown. injection Hown as <-.
  apply Hsub. rewrite addPaths_union, Hp. apply elem_of_union. left.
  apply elem_of_list_to_set. apply (list_elem_of_fmap_2 viPath).
  apply elem_of_reverse. exact Hin.
Qed.

End ReferencedFacts.

(** ** The properties on the books of Alice and Bob *)
Ltac sample_refers book :=
  exists 0%nat, 0%nat, (Sample.logAt book [0; 0]%nat);
  repeat (split; [vm_compute; reflexivity|]); reflexivity.

Ltac plain_saves :=
  repeat (constructor;
          [first [left; repeat split; discriminate | right; repeat split; reflexivity]|]);
  constructor.

Lemma saves_are_listed_newest_first_witness :
  branchToVersionInfos (fun n => S n)
    (Sample.branchOf [Sample.commitOp "/ipfs/Qa"; Sample.commitOp "/ipfs/Qb"])
    Sample.moviesRef 0 (-1) false
  = Ok [mkVersionInfo "alice" "" "movies" "/ipfs/Qb" false 1000 10 "t" "" "" 0;
        mkVersionInfo "alice" "" "movies" "/ipfs/Qa" false 1000 10 "t" "" "" 0].
Proof.
  apply (saves_are_listed_newest_first (fun n => S n) Sample.moviesRef
           (Sample.branchOf [Sample.commitOp "/ipfs/Qa"; Sample.commitOp "/ipfs/Qb"]) false).
  unfold Sample.branchOf. cbn [Ops]. plain_saves.
Defined.

Lemma offset_and_limit_select_a_window_witness :
  branchToVersionInfos (fun n => S n)
    (Sample.branchOf [Sample.commitOp "/ipfs/Qa"; Sample.commitOp "/ipfs/Qb";
                      Sample.commitOp "/ipfs/Qc"])
    Sample.moviesRef 1 1 true
  = Ok [mkVersionInfo "alice" "" "movies" "/ipfs/Qb" false 1000 10 "t" "" "" 0].
Proof.
  apply (proj1 (offset_and_limit_select_a_window (fun n => S n)
                  (Sample.branchOf [Sample.commitOp "/ipfs/Qa"; Sample.commitOp "/ipfs/Qb";
                                    Sample.commitOp "/ipfs/Qc"])
                  Sample.moviesRef true 1 1
                  [mkVersionInfo "alice" "" "movies" "/ipfs/Qc" false 1000 10 "t" "" "" 0;
                   mkVersionInfo "alice" "" "movies" "/ipfs/Qb" false 1000 10 "t" "" "" 0;
                   mkVersionInfo "alice" "" "movies" "/ipfs/Qa" false 1000 10 "t" "" "" 0]
                  ltac:(vm_compute; reflexivity))); lia.
Defined.

Lemma delete_op_cuts_newest_versions_witness :
  branchToVersionInfos (fun n => S n)
    (Append (versionDeleteOp 1)
       (Sample.branchOf [Sample.commitOp "/ipfs/Qa"; Sample.commitOp "/ipfs/Qb"]))
    Sample.moviesRef 0 (-1) false
  = Ok [mkVersionInfo "alice" "" "movies" "/ipfs/Qa" false 1000 10 "t" "" "" 0]
  /\ branchToVersionInfos (fun n => S n)
       (Append (versionDeleteOp 3)
          (Sample.branchOf [Sample.commitOp "/ipfs/Qa"; Sample.commitOp "/ipfs/Qb"]))
       Sample.moviesRef 0 (-1) true
     = Panic.
Proof.
  split.
  - apply (proj1 (delete_op_cuts_newest_versions (fun n => S n) Sample.moviesRef
                    (Sample.branchOf [Sample.commitOp "/ipfs/Qa"; Sample.commitOp "/ipfs/Qb"])
                    1 ltac:(unfold Sample.branchOf; cbn [Ops]; plain_saves)
                    ltac:(lia) ltac:(vm_compute; reflexivity))).
  - apply (proj2 (delete_op_cuts_newest_versions (fun n => S n) Sample.moviesRef
                    (Sample.branchOf [Sample.commitOp "/ipfs/Qa"; Sample.commitOp "/ipfs/Qb"])
                    3 ltac:(unfold Sample.branchOf; cbn [Ops]; plain_saves)
                    ltac:(lia) ltac:(vm_compute; reflexivity))).
Defined.

Lemma head_is_latest_commit_without_deletes_witness :
  latestSavePath
    (Sample.branchOf [Sample.commitOp "/ipfs/Qa"; Sample.amendOp "/ipfs/Qb"]) = "/ipfs/Qb".
Proof.
  apply (proj1 (head_is_latest_commit_without_deletes (fun n => S n) Sample.moviesRef
                  (Sample.branchOf [Sample.commitOp "/ipfs/Qa"; Sample.amendOp "/ipfs/Qb"])
                  ltac:(unfold Sample.branchOf; cbn [Ops];
                        repeat (constructor; [intros [_ H]; discriminate H|]);
                        constructor))).
Defined.

Lemma save_puts_version_first_witness :
  Items (fst (WriteVersionSave Sample.savedOnce Sample.moviesID
                (Sample.version "/ipfs/Qb" "/ipfs/Qa" "t2" 1001) None))
    Sample.moviesRef 0 (-1)
  = Ok [mkVersionInfo "alice" "" "movies" "/ipfs/Qb" false 1001 10 "t2" "" "" 0;
        mkVersionInfo "alice" "" "movies" "/ipfs/Qa" false 1000 10 "t1" "" "" 0].
Proof.
  apply (save_puts_version_first Sample.savedOnce Sample.moviesRef Sample.moviesID
           [0; 0; 0]%nat (Sample.logAt Sample.savedOnce [0; 0; 0]%nat)
           (Sample.version "/ipfs/Qb" "/ipfs/Qa" "t2" 1001)
           (dataset.mkCommit 1001 "t2" "")
           [mkVersionInfo "alice" "" "movies" "/ipfs/Qa" false 1000 10 "t1" "" "" 0]).
  - sample_refers Sample.savedOnce.
  - vm_compute. reflexivity.
  - reflexivity.
  - reflexivity.
  - vm_compute. reflexivity.
Defined.

Lemma run_and_commit_are_one_item_witness :
  Items (fst (WriteVersionSave Sample.savedOnce Sample.moviesID
                (Sample.versionOfRun "/ipfs/Qr" "/ipfs/Qa" "t2" "run-1" 1001)
                (Some (Sample.runState "run-1"))))
    Sample.moviesRef 0 (-1)
  = Ok [mkVersionInfo "alice" "" "movies" "/ipfs/Qr" false 1001 10 "t2" "run-1" "succeeded" 2500;
        mkVersionInfo "alice" "" "movies" "/ipfs/Qa" false 1000 10 "t1" "" "" 0].
Proof.
  apply (run_and_commit_are_one_item Sample.savedOnce Sample.moviesRef Sample.moviesID
           [0; 0; 0]%nat (Sample.logAt Sample.savedOnce [0; 0; 0]%nat)
           (Sample.versionOfRun "/ipfs/Qr" "/ipfs/Qa" "t2" "run-1" 1001)
           (dataset.mkCommit 1001 "t2" "run-1") (Sample.runState "run-1")
           [mkVersionInfo "alice" "" "movies" "/ipfs/Qa" false 1000 10 "t1" "" "" 0]).
  - sample_refers Sample.savedOnce.
  - vm_compute. reflexivity.
  - reflexivity.
  - reflexivity.
  - discriminate.
  - vm_compute. reflexivity.
Defined.

Lemma run_is_listed_first_witness :
  Items (fst (WriteTransformRun Sample.savedOnce Sample.moviesID
                (Some (Sample.runState "run-7"))))
    Sample.moviesRef 0 (-1)
  = Ok [mkVersionInfo "alice" "" "movies" "" false 999 0 "" "run-7" "succeeded" 2500;
        mkVersionInfo "alice" "" "movies" "/ipfs/Qa" false 1000 10 "t1" "" "" 0].
Proof.
  apply (run_is_listed_first Sample.savedOnce Sample.moviesRef Sample.moviesID
           [0; 0; 0]%nat (Sample.logAt Sample.savedOnce [0; 0; 0]%nat)
           (Sample.runState "run-7")
           [mkVersionInfo "alice" "" "movies" "/ipfs/Qa" false 1000 10 "t1" "" "" 0]).
  - sample_refers Sample.savedOnce.
  - vm_compute. reflexivity.
  - vm_compute. reflexivity.
Defined.

Lemma amend_replaces_newest_item_witness :
  Items (fst (WriteVersionAmend Sample.savedTwice Sample.moviesID
                (Sample.version "/ipfs/Qb2" "/ipfs/Qa" "t2 again" 1005)))
    Sample.moviesRef 0 (-1)
  = Ok [mkVersionInfo "alice" "" "movies" "/ipfs/Qb2" false 1005 0 "t2 again" "" "" 0;
        mkVersionInfo "alice" "" "movies" "/ipfs/Qa" false 1000 10 "t1" "" "" 0].
Proof.
  apply (amend_replaces_newest_item Sample.savedTwice Sample.moviesRef Sample.moviesID
           [0; 0; 0]%nat (Sample.logAt Sample.savedTwice [0; 0; 0]%nat)
           (Sample.version "/ipfs/Qb2" "/ipfs/Qa" "t2 again" 1005)
           (dataset.mkCommit 1005 "t2 again" "")
           [mkVersionInfo "alice" "" "movies" "/ipfs/Qb" false 1001 10 "t2" "" "" 0;
            mkVersionInfo "alice" "" "movies" "/ipfs/Qa" false 1000 10 "t1" "" "" 0]).
  - sample_refers Sample.savedTwice.
  - vm_compute. reflexivity.
  - reflexivity.
  - vm_compute. reflexivity.
Defined.

Lemma delete_drops_newest_items_witness :
  Items (fst (WriteVersionDelete Sample.savedThrice Sample.moviesID 2))
    Sample.moviesRef 0 (-1)
  = Ok [mkVersionInfo "alice" "" "movies" "/ipfs/Qa" false 1000 10 "t1" "" "" 0].
Proof.
  apply (delete_drops_newest_items Sample.savedThrice Sample.moviesRef Sample.moviesID
           [0; 0; 0]%nat (Sample.logAt Sample.savedThrice [0; 0; 0]%nat) 2
           [mkVersionInfo "alice" "" "movies" "/ipfs/Qc" false 1002 10 "t3" "" "" 0;
            mkVersionInfo "alice" "" "movies" "/ipfs/Qb" false 1001 10 "t2" "" "" 0;
            mkVersionInfo "alice" "" "movies" "/ipfs/Qa" false 1000 10 "t1" "" "" 0]).
  - sample_refers Sample.savedThrice.
  - vm_compute. reflexivity.
  - vm_compute. reflexivity.
  - lia.
  - vm_compute. reflexivity.
Defined.

Lemma version_delete_event_witness :
  events (effects (fst (WriteVersionDelete Sample.savedThrice Sample.moviesID 1)))
  = events (effects Sample.savedThrice)
    ++ [(event.ETDatasetCommitChange,
         {| event.InitID := Sample.moviesID;
            event.TopIndex := 2;
            event.ProfileID := ""; event.Username := ""; event.PrettyName := "";
            event.HeadRef := "/ipfs/Qa";
            event.Info := Some (mkVersionInfo "" "" "" "/ipfs/Qa" false 1000 10 "t1" "" "" 0) |})].
Proof.
  apply (version_delete_event Sample.savedThrice Sample.moviesID
           [0; 0; 0]%nat (Sample.logAt Sample.savedThrice [0; 0; 0]%nat) 1).
  - vm_compute. reflexivity.
  - vm_compute. reflexivity.
  - vm_compute. plain_saves.
  - lia.
  - vm_compute. reflexivity.
Defined.

Lemma push_marks_newest_published_witness :
  Items (fst (WriteRemotePush Sample.savedTwice Sample.moviesID 1 "remote" 50))
    Sample.moviesRef 0 (-1)
  = Ok [mkVersionInfo "alice" "" "movies" "/ipfs/Qb" true 1001 10 "t2" "" "" 0;
        mkVersionInfo "alice" "" "movies" "/ipfs/Qa" false 1000 10 "t1" "" "" 0].
Proof.
  apply (push_marks_newest_published Sample.savedTwice true Sample.moviesRef Sample.moviesID
           [0; 0; 0]%nat (Sample.logAt Sample.savedTwice [0; 0; 0]%nat) 1 "remote" 50
           [mkVersionInfo "alice" "" "movies" "/ipfs/Qb" false 1001 10 "t2" "" "" 0;
            mkVersionInfo "alice" "" "movies" "/ipfs/Qa" false 1000 10 "t1" "" "" 0]
           _ (snd (WriteRemotePush Sample.savedTwice Sample.moviesID 1 "remote" 50))).
  - sample_refers Sample.savedTwice.
  - apply surjective_pairing.
  - vm_compute. reflexivity.
  - vm_compute. reflexivity.
Defined.

Lemma rollback_drops_last_op_witness :
  (exists book2 rb2,
      (let '(book1, res) := WriteRemotePush Sample.savedTwice Sample.moviesID 1 "remote" 50 in
       match prRollback res with
       | Some rb => callRollback book1 rb
       | None => (book1, mkRollback "" false None, Panic)
       end) = (book2, rb2, Ok tt)
      /\ store book2 = store Sample.savedTwice
      /\ callRollback book2 rb2 = (book2, rb2, Ok tt))
  /\ (let '(book1, res) := WriteRemotePush Sample.savedTwice Sample.moviesID 1 "remote" 50 in
      let later :=
        fst (WriteVersionSave book1 Sample.moviesID
               (Sample.version "/ipfs/Qc" "/ipfs/Qb" "t3" 1002) None) in
      match prRollback res with
      | Some rb =>
          snd (callRollback later rb) = Ok tt
          /\ option_map Ops (deref (store (fst (fst (callRollback later rb)))) [0; 0; 0]%nat)
             = Some (Ops (Sample.logAt Sample.savedTwice [0; 0; 0]%nat)
                     ++ [remoteOp OpTypeInit 1 "remote" 50])
      | None => False
      end).
Proof.
  assert (Hok0 : prErr (snd (writeRemote OpTypeInit Sample.savedTwice Sample.moviesID 1
                                 "remote" 50)) = Ok tt) by (vm_compute; reflexivity).
  destruct (rollback_drops_last_op Sample.savedTwice OpTypeInit Sample.moviesID 1 "remote" 50
              _ _ (surjective_pairing _) Hok0)
    as (p & blog & rb & _ & _ & Hrb & (book2 & rb2 & r & Hcall & Hstore & _ & Hok & Hagain)
        & Hlater).
  change (WriteRemotePush Sample.savedTwice Sample.moviesID 1 "remote" 50)
    with (writeRemote OpTypeInit Sample.savedTwice Sample.moviesID 1 "remote" 50).
  rewrite (surjective_pairing (writeRemote OpTypeInit Sample.savedTwice Sample.moviesID 1
                                 "remote" 50)).
  rewrite Hrb. split.
  - exists book2, rb2.
    assert (Hr : r = Ok tt) by (apply Hok; intros logs; vm_compute; reflexivity).
    subst r. repeat split; assumption.
  - lazy beta zeta iota.
    set (later := fst (WriteVersionSave
                         (fst (writeRemote OpTypeInit Sample.savedTwice Sample.moviesID 1
                                 "remote" 50))
                         Sample.moviesID
                         (Sample.version "/ipfs/Qc" "/ipfs/Qb" "t3" 1002) None)).
    assert (Hbl : branchLog later Sample.moviesID
                  = Ok ([0; 0; 0]%nat, Sample.logAt later [0; 0; 0]%nat))
      by (vm_compute; reflexivity).
    assert (Hops : Ops (Sample.logAt later [0; 0; 0]%nat)
                   = (Ops (Sample.logAt Sample.savedTwice [0; 0; 0]%nat)
                      ++ [remoteOp OpTypeInit 1 "remote" 50])
                     ++ [mkOp OpTypeInit CommitModel "/ipfs/Qc" "/ipfs/Qb" [] "" "" 1002 10
                           "t3"])
      by (vm_compute; reflexivity).
    destruct (Hlater later _ _ _ _ Hbl Hops)
      as (b2 & r2 & res2 & Hcall2 & Hderef & _ & _ & Hw & _).
    rewrite Hcall2. cbn [fst snd]. split.
    + apply Hw. intros logs. vm_compute. reflexivity.
    + rewrite Hderef. reflexivity.
Defined.

Lemma failed_sparse_lookup_undoes_push_witness :
  exists book' rb,
    writeRemote OpTypeInit Sample.moviesBook (authorID Sample.moviesBook) 1 "remote" 50
    = (book', mkPushResult None (Some rb) (Err ErrOplogNotFound))
    /\ store book' = store Sample.moviesBook
    /\ rbFired rb = true
    /\ callRollback book' rb = (book', rb, Ok tt).
Proof.
  apply (failed_sparse_lookup_undoes_push Sample.moviesBook OpTypeInit
           (authorID Sample.moviesBook) 1 "remote" 50
           [0; 0]%nat (Sample.logAt Sample.moviesBook [0; 0]%nat) ErrOplogNotFound).
  - vm_compute. reflexivity.
  - vm_compute. reflexivity.
  - intros logs. vm_compute. reflexivity.
  - vm_compute. reflexivity.
Defined.

Lemma save_moves_head_witness :
  dsref.InitID
    (fst (ResolveRef
            (fst (WriteVersionSave Sample.savedOnce Sample.moviesID
                    (Sample.version "/ipfs/Qb" "/ipfs/Qa" "t2" 1001) None))
            Sample.moviesRef)) = Sample.moviesID
  /\ dsref.Path
       (fst (ResolveRef
               (fst (WriteVersionSave Sample.savedOnce Sample.moviesID
                       (Sample.version "/ipfs/Qb" "/ipfs/Qa" "t2" 1001) None))
               Sample.moviesRef)) = "/ipfs/Qb".
Proof.
  apply (save_moves_head Sample.savedOnce Sample.moviesRef Sample.moviesID
           [0; 0; 0]%nat (Sample.logAt Sample.savedOnce [0; 0; 0]%nat)
           (Sample.version "/ipfs/Qb" "/ipfs/Qa" "t2" 1001)
           (dataset.mkCommit 1001 "t2" "") None).
  - sample_refers Sample.savedOnce.
  - vm_compute. reflexivity.
  - reflexivity.
  - intros st H. discriminate H.
  - reflexivity.
Defined.

Lemma author_rename_renames_log_before_username_witness :
  exists userLog',
    authorLog (fst (WriteAuthorRename Sample.moviesBook "alicia" 60)) = Ok ([0%nat], userLog')
    /\ Log_Name userLog' = "alicia"
    /\ Username (fst (WriteAuthorRename Sample.moviesBook "alicia" 60)) = "alicia".
Proof.
  assert (Hvalid : IsValidName "alicia" = true) by (vm_compute; reflexivity).
  assert (Hlog0 : authorLog Sample.moviesBook
                  = Ok ([0%nat], Sample.logAt Sample.moviesBook [0%nat]))
    by (vm_compute; reflexivity).
  assert (Hmodel : Log_Model (Sample.logAt Sample.moviesBook [0%nat]) = AuthorModel)
    by (vm_compute; reflexivity).
  assert (Hops : Ops (Sample.logAt Sample.moviesBook [0%nat]) <> [])
    by (vm_compute; discriminate).
  destruct (author_rename_renames_log_before_username Sample.moviesBook "alicia" 60 [0%nat]
              (Sample.logAt Sample.moviesBook [0%nat]) Hvalid Hlog0 Hmodel Hops)
    as (userLog' & Hlog & _ & Hname & Hworks & _).
  exists userLog'. split; [exact Hlog|]. split; [exact Hname|].
  apply Hworks. intros logs. vm_compute. reflexivity.
Defined.

Ltac sample_fresh :=
  repeat match goal with
         | |- _ <> _ => discriminate
         | |- cipherWorks _ => intros ?; vm_compute; reflexivity
         | |- _ = _ => vm_compute; reflexivity
         end.

Lemma fresh_dataset_is_found_by_name_and_id_witness :
  RefToInitID Sample.moviesBook Sample.moviesRef = Ok Sample.moviesID
  /\ datasetLog Sample.moviesBook Sample.moviesID
     = Ok ([0; 0]%nat, newDatasetLog Sample.aliceBook "movies" 2 3)
  /\ branchLog Sample.moviesBook Sample.moviesID
     = Ok ([0; 0; 0]%nat, InitLog (branchInitOp Sample.aliceBook 3))
  /\ Items Sample.moviesBook Sample.moviesRef 0 (-1) = Ok [].
Proof.
  apply (fresh_dataset_is_found_by_name_and_id Sample.aliceBook "movies" 2 3 0%nat
           (Sample.logAt Sample.aliceBook [0%nat])); sample_fresh.
Defined.

Lemma example_oplog_resolves_witness :
  ResolveRef Sample.savedOnce Sample.moviesRef
  = ({| InitID := Sample.moviesID; dsref.Username := "alice"; ProfileID := "QmAliceKey";
        dsref.Name := "movies"; Path := "/ipfs/Qa" |}, Ok "")
  /\ ResolveRef Sample.savedOnce
       (mkRef "" "alice" "" "movies" "/ill_provide_the_path_thank_you_very_much")
     = ({| InitID := Sample.moviesID; dsref.Username := "alice"; ProfileID := "QmAliceKey";
           dsref.Name := "movies"; Path := "/ill_provide_the_path_thank_you_very_much" |},
        Ok "")
  /\ ActivePeerID Sample.savedOnce = Ok "QmAliceKey".
Proof.
  destruct (example_oplog_resolves Sample.aliceBook "movies"
              (Sample.version "/ipfs/Qa" "" "t1" 1000) (dataset.mkCommit 1000 "t1" "")
              2 3 0%nat (Sample.logAt Sample.aliceBook [0%nat])
              (mkOp OpTypeInit AuthorModel "" "" [] "alice" "QmAliceKey" 1 0 "") [])
    as (_ & _ & Hpeer & Hresolve); [sample_fresh ..|].
  split; [exact (Hresolve "")|]. split; [|exact Hpeer].
  exact (Hresolve "/ill_provide_the_path_thank_you_very_much").
Defined.

Lemma new_journal_holds_the_author_log_witness :
  exists book,
    NewJournalOverwriteWithProfileID (Some "alice-private") "alice" (Some tt)
      (Some (Sample.mkFiles [] true)) "/mem/logbook.qfb" "QmAliceKey" 1 = (Some book, Ok tt)
    /\ store book = store Sample.aliceBook
    /\ ActivePeerID book = Ok "QmAliceKey".
Proof.
  destruct (new_journal_holds_the_author_log "alice-private" "alice" (Sample.mkFiles [] true)
              "/mem/logbook.qfb" "QmAliceKey" 1)
    as (book & Hnew & Hstore & _ & _ & _ & _ & Hpeer & _);
    [discriminate | discriminate | reflexivity | intros logs; vm_compute; reflexivity |].
  exists book. split; [exact Hnew|]. split; [|exact Hpeer].
  rewrite Hstore. vm_compute. reflexivity.
Defined.

Lemma constructed_log_lists_the_history_witness :
  snd (ConstructDatasetLog Sample.aliceBook Sample.moviesRef
         [Sample.version "/ipfs/Qa" "" "t1" 1000;
          Sample.version "/ipfs/Qb" "/ipfs/Qa" "t2" 1001] 2 3) = Ok tt
  /\ Items (fst (ConstructDatasetLog Sample.aliceBook Sample.moviesRef
                   [Sample.version "/ipfs/Qa" "" "t1" 1000;
                    Sample.version "/ipfs/Qb" "/ipfs/Qa" "t2" 1001] 2 3))
       Sample.moviesRef 0 (-1)
     = Ok [mkVersionInfo "alice" "" "movies" "/ipfs/Qb" false 1001 10 "t2" "" "" 0;
           mkVersionInfo "alice" "" "movies" "/ipfs/Qa" false 1000 10 "t1" "" "" 0].
Proof.
  destruct (constructed_log_lists_the_history Sample.aliceBook Sample.moviesRef
              [Sample.version "/ipfs/Qa" "" "t1" 1000;
               Sample.version "/ipfs/Qb" "/ipfs/Qa" "t2" 1001]
              [mkOp OpTypeInit CommitModel "/ipfs/Qa" "" [] "" "" 1000 10 "t1";
               mkOp OpTypeInit CommitModel "/ipfs/Qb" "/ipfs/Qa" [] "" "" 1001 10 "t2"]
              2 3 0%nat (Sample.logAt Sample.aliceBook [0%nat]))
    as (Hok & Hitems & _);
    [sample_fresh .. | repeat (constructor; [split; reflexivity|]); constructor |].
  split; [exact Hok | exact Hitems].
Defined.


Ltac known_models :=
  cbv [knownModels Sample.bobLog Sample.bobLogUnsigned Sample.signedBy];
  vm_compute; repeat split; repeat (constructor; [discriminate|]); try constructor.

Lemma plain_log_keeps_all_but_signatures_witness :
  NewPlainLog Sample.bobLog = NewPlainLog Sample.bobLogUnsigned.
Proof.
  assert (Ha : knownModels Sample.bobLog) by known_models.
  assert (Hb : knownModels Sample.bobLogUnsigned) by known_models.
  apply (proj2 (plain_log_keeps_all_but_signatures Sample.bobLog Sample.bobLogUnsigned Ha Hb)).
  vm_compute. reflexivity.
Defined.

Lemma referenced_paths_are_the_listed_versions_witness :
  addReferencedPaths (fun n => S n)
    (mkLog [Sample.commitOp "/ipfs/Qa"; Sample.commitOp "/ipfs/Qb"; versionDeleteOp 1] [] [])
    ∅
  = Ok (list_to_set
          (map viPath [mkVersionInfo "alice" "" "movies" "/ipfs/Qa" false 1000 10 "t" "" "" 0])
        ∪ ∅).
Proof.
  assert (Hops : Forall commitsOnly
                   [Sample.commitOp "/ipfs/Qa"; Sample.commitOp "/ipfs/Qb"; versionDeleteOp 1]).
  { repeat (constructor; [right; split; [reflexivity | intros _; cbn; lia]|]).
    constructor. }
  exact (referenced_paths_are_the_listed_versions (fun n => S n) (fun n => S n)
           Sample.moviesRef
           [Sample.commitOp "/ipfs/Qa"; Sample.commitOp "/ipfs/Qb"; versionDeleteOp 1] [] ∅
           Hops).
Defined.

Lemma listed_versions_are_referenced_witness :
  exists referenced : gset string,
    AllReferencedDatasetPaths (fun logs _ _ => Ok logs) (fun n => S n) Sample.savedTwice
    = Ok referenced
    /\ "/ipfs/Qa" ∈ referenced /\ "/ipfs/Qb" ∈ referenced.
Proof.
  assert (Hall : AllReferencedDatasetPaths (fun logs _ _ => Ok logs) (fun n => S n)
                   Sample.savedTwice
                 = Ok ({["/ipfs/Qa"]} ∪ {["/ipfs/Qb"]}))
    by (vm_compute; reflexivity).
  assert (Hr : refersTo Sample.savedTwice Sample.moviesRef Sample.moviesID [0; 0; 0]%nat
                 (Sample.logAt Sample.savedTwice [0; 0; 0]%nat))
    by (sample_refers Sample.savedTwice).
  assert (Hops : Forall commitsOnly (Ops (Sample.logAt Sample.savedTwice [0; 0; 0]%nat))).
  { let ops := eval vm_compute in (Ops (Sample.logAt Sample.savedTwice [0; 0; 0]%nat)) in
    replace (Ops (Sample.logAt Sample.savedTwice [0; 0; 0]%nat)) with ops
      by (vm_compute; reflexivity).
    constructor; [left; repeat split; discriminate|].
    repeat (constructor; [right; split; [reflexivity | intros H0; discriminate H0]|]).
    constructor. }
  assert (Hlogs : Logs (Sample.logAt Sample.savedTwice [0; 0; 0]%nat) = [])
    by (vm_compute; reflexivity).
  assert (Hitems : Items Sample.savedTwice Sample.moviesRef 0 (-1)
                   = Ok [mkVersionInfo "alice" "" "movies" "/ipfs/Qb" false 1001 10 "t2" "" "" 0;
                         mkVersionInfo "alice" "" "movies" "/ipfs/Qa" false 1000 10 "t1" "" "" 0])
    by (vm_compute; reflexivity).
  pose proof (listed_versions_are_referenced (fun logs _ _ => Ok logs) (fun n => S n)
                Sample.savedTwice Sample.moviesRef Sample.moviesID [0; 0; 0]%nat
                (Sample.logAt Sample.savedTwice [0; 0; 0]%nat) _ _
                eq_refl Hr Hops Hlogs Hitems Hall) as H.
  eexists. split; [exact Hall|]. split.
  - apply (H (mkVersionInfo "alice" "" "movies" "/ipfs/Qa" false 1000 10 "t1" "" "" 0)).
    apply list_elem_of_further, list_elem_of_here.
  - apply (H (mkVersionInfo "alice" "" "movies" "/ipfs/Qb" false 1001 10 "t2" "" "" 0)).
    apply list_elem_of_here.
Defined.

Lemma alias_of_first_dataset_witness :
  exists userLog',
    store Sample.moviesBook !! 0%nat = Some userLog'
    /\ DsrefAliasForLog userLog'
       = ({| InitID := ""; dsref.Username := "alice"; ProfileID := "QmAliceKey";
             dsref.Name := "movies"; Path := "" |}, Ok tt).
Proof.
  apply (alias_of_first_dataset Sample.aliceBook "movies" 2 3 0%nat
           (Sample.logAt Sample.aliceBook [0%nat])).
  - discriminate.
  - vm_compute. reflexivity.
  - vm_compute. reflexivity.
  - vm_compute. reflexivity.
  - vm_compute. reflexivity.
  - vm_compute. reflexivity.
Defined.

(** ** Reference resolution after a delete *)

Section ResolveAfterDelete.
Context {PrivKey PubKey Filesystem : Type}.
Context {C : Collaborators PrivKey PubKey Filesystem}.
Local Abbreviation Book := (@Book PrivKey Filesystem).

Lemma save_authorID (book : Book) : authorID (fst (save book)) = authorID book.
Proof.
  destruct (save_cases book) as [[e ->]|(l & f & d & pe & ->)]; reflexivity.
Qed.

(** An operation on a log leaves the author id of the book alone. *)
Lemma runWrite_authorID (book : Book) initID w p lg ops :
  targetLog book initID w = Ok (p, lg) ->
  hasWriteAccess book lg = Ok tt ->
  appendedOps w = Some ops ->
  isRemoteOp w = false ->
  authorID (fst (runWrite book initID w)) = authorID book.
Proof.
  intros Ht Ha Hops Hremote.
  destruct w; cbn [targetLog] in Ht; cbn [runWrite]; cbn [appendedOps] in Hops;
    try discriminate Hremote.
  - unfold WriteDatasetRename. destruct (IsValidName newName); [|discriminate].
    cbn [negb]. unfold datasetLog in Ht |- *. rewrite Ht.
    cbn [attempt]. rewrite Ha. cbn [attempt]. rewrite save_authorID. reflexivity.
  - unfold WriteDatasetDelete. unfold datasetLog in Ht |- *.
    rewrite Ht. cbn [attempt]. rewrite Ha. cbn [attempt]. rewrite save_authorID.
    reflexivity.
  - unfold WriteVersionSave. rewrite Ht. cbn [attempt]. rewrite Ha. cbn [attempt].
    destruct rs as [st|].
    + destruct (dataset.Commit_ ds) as [commit|] eqn:Ec; [|discriminate].
      destruct (versionSaveOp ds) as [op| |] eqn:Eo; try discriminate.
      destruct (String.eqb (run.ID st) (dataset.RunID commit)); [|discriminate].
      cbn [negb appendTransformRun attempt].
      unfold appendVersionSave. rewrite Eo. cbn [attempt].
      match goal with
      | |- context [save ?b] =>
          destruct (save_cases b) as [[e Hs]|(? & ? & ? & ? & Hs)]; rewrite Hs
      end; reflexivity.
    + destruct (versionSaveOp ds) as [op| |] eqn:Eo; try discriminate.
      cbn [attempt]. unfold appendVersionSave. rewrite Eo. cbn [attempt].
      match goal with
      | |- context [save ?b] =>
          destruct (save_cases b) as [[e Hs]|(? & ? & ? & ? & Hs)]; rewrite Hs
      end; reflexivity.
  - unfold WriteTransformRun. rewrite Ht. cbn [attempt]. rewrite Ha. cbn [attempt].
    destruct rs as [st|]; [|discriminate].
    cbn [appendTransformRun attempt]. rewrite save_authorID. reflexivity.
  - unfold WriteVersionAmend. rewrite Ht. cbn [attempt]. rewrite Ha. cbn [attempt].
    destruct (dataset.Commit_ ds) as [commit|]; [|discriminate].
    rewrite save_authorID. reflexivity.
  - unfold WriteVersionDelete. rewrite Ht. cbn [attempt]. rewrite Ha. cbn [attempt].
    destruct (branchToVersionInfos growcap _ _ 0 (-1) false) as [items| |];
      cbn [attempt fst]; try reflexivity.
    rewrite save_authorID. destruct (last items); reflexivity.
Qed.

(** What a change at a pointer leaves of the first op of each log, when
    the change keeps the first op and the children of the log it is made
    to. *)
Lemma deref_update_first_op f x :
  head (Ops (f x)) = head (Ops x) -> Logs (f x) = Logs x ->
  forall p q logs,
    deref logs p = Some x ->
    (fun lg => head (Ops lg)) <$> deref (update f logs p) q
    = (fun lg => head (Ops lg)) <$> deref logs q.
Proof.
  intros Hops Hlogs. induction p as [|i p IH]; intros q logs Hd; [discriminate|].
  destruct q as [|j q]; [reflexivity|].
  rewrite update_cons. cbn [deref] in Hd |- *.
  destruct (Nat.eq_dec i j) as [->|Hne].
  - rewrite list_lookup_alter_eq.
    destruct (logs !! j) as [lg|]; [|discriminate].
    cbn [fmap option_fmap option_map].
    destruct p as [|i' p].
    + injection Hd as ->. destruct q as [|j' q].
      * cbn [fmap option_fmap option_map]. rewrite Hops. reflexivity.
      * rewrite Hlogs. reflexivity.
    + destruct q as [|j' q]; [reflexivity|].
      unfold setLogs at 1. cbn [Logs]. apply IH. exact Hd.
  - rewrite list_lookup_alter_ne by exact Hne. reflexivity.
Qed.

(** The log a lookup by id finds has the same first op after ops were
    appended to a log that had some. *)
Lemma Journal_Get_after_append (logs : list Log) p x ops id q found op rest :
  deref logs p = Some x -> Ops x <> [] ->
  Journal_Get Hash logs id = Ok (q, found) ->
  Ops found = op :: rest ->
  exists found' rest',
    Journal_Get Hash (update (appendAll ops) logs p) id = Ok (q, found')
    /\ Ops found' = op :: rest'.
Proof.
  intros Hd Hne Hg Hfirst.
  destruct (Journal_Get_update Hash logs id (appendAll ops) p x q found Hd
              (Log_ID_appendAll ops x Hne) eq_refl Hg) as (found' & Hg' & Hd').
  pose proof (Journal_Get_sound _ _ _ _ _ Hg) as [Hdq _].
  assert (Hhead : head (Ops (appendAll ops x)) = head (Ops x))
    by (unfold appendAll; cbn [Ops]; destruct (Ops x); [contradiction|reflexivity]).
  pose proof (deref_update_first_op (appendAll ops) x Hhead eq_refl p q logs Hd) as Hh.
  rewrite Hd', Hdq in Hh. cbn [fmap option_fmap option_map] in Hh.
  rewrite Hfirst in Hh. cbn [head] in Hh.
  exists found'. destruct (Ops found') as [|op' rest']; [discriminate|].
  injection Hh as ->. exists rest'. split; [exact Hg'|reflexivity].
Qed.

(** C3. [ResolveRef] does not fill in the head path. After a version has
    been saved and deleted again - [WriteVersionSave], then
    [WriteVersionDelete] of one revision - [ResolveRef] of a reference
    without path returns no error and sets [Path] to the path of the
    version just deleted, while the head algorithm as specified gives, on
    the same branch log, the head from before the save, and [Items] lists
    the versions from before the save. The rest is as claimed: [InitID] is
    the id of the dataset log, [ProfileID], when it was empty, the author
    id of the first op of the owner's log, and the address is empty.
    Besides, when the pair leads to a dataset log that has not exactly one
    branch log, the call returns [ErrBranchCount], which is neither success
    nor [ErrRefNotFound]. *)
Theorem resolve_ref_returns_deleted_version (book : Book) (ref : Ref) :
  dsref.Path ref = "" ->
  (forall initID p blog ds commit older pu userLog op rest,
      refersTo book ref initID p blog ->
      hasWriteAccess book blog = Ok tt ->
      Journal_Get Hash (store book) (Log_Author blog) = Ok (pu, userLog) ->
      Ops userLog = op :: rest ->
      dataset.Commit_ ds = Some commit -> dataset.RunID commit = "" ->
      Items book ref 0 (-1) = Ok older ->
      Z.of_nat (length older) < 2 ^ 63 - 1 ->
      let saved := fst (WriteVersionSave book initID ds None) in
      let deleted := fst (WriteVersionDelete saved initID 1) in
      exists saveOp branch,
        versionSaveOp ds = Ok saveOp
        /\ branchLog deleted initID = Ok (p, branch)
        /\ Ops branch = Ops blog ++ [saveOp; versionDeleteOp 1]
        /\ ResolveRef deleted ref
           = ({| InitID := initID;
                 dsref.Username := dsref.Username ref;
                 ProfileID := if String.eqb (ProfileID ref) "" then oplog.AuthorID op
                              else ProfileID ref;
                 dsref.Name := dsref.Name ref;
                 Path := dataset.Path ds |},
              Ok "")
        /\ headPath_spec branch = headPath_spec blog
        /\ Items deleted ref 0 (-1) = Ok older)
  /\ (forall pd dsLog,
         Journal_HeadRef (store book) [dsref.Username ref; dsref.Name ref] = Ok (pd, dsLog) ->
         Journal_Get Hash (store book) (Log_ID Hash dsLog) = Ok (pd, dsLog) ->
         (forall branch, Logs dsLog <> [branch]) ->
         ResolveRef book ref
         = (setInitID (Log_ID Hash dsLog) ref, Err (ErrBranchCount (length (Logs dsLog))))).
Proof.
  intros Hpath. split.
  - intros initID p blog ds commit older pu userLog op rest Hr Ha Hu Hfirst Hc Hrun
      Hitems Hlen saved deleted.
    set (saveOp := {| Type_ := OpTypeInit; Model := CommitModel;
                      oplog.Ref := dataset.Path ds; Prev := dataset.PreviousPath ds;
                      Relations := []; oplog.Name := ""; oplog.AuthorID := "";
                      Timestamp := dataset.Timestamp commit;
                      Size := match dataset.Structure_ ds with
                              | Some structure => dataset.Length structure
                              | None => 0
                              end;
                      Note := dataset.Title commit |}).
    assert (Hop : versionSaveOp ds = Ok saveOp)
      by (unfold versionSaveOp; rewrite Hc, Hrun; reflexivity).
    assert (Hw1 : appendedOps (VersionSave ds None) = Some [saveOp])
      by (cbn [appendedOps]; rewrite Hop; reflexivity).
    pose proof (hasWriteAccess_Ops _ _ Ha) as Hne.
    pose proof (refersTo_branchLog _ _ _ _ _ Hr) as Hb.
    pose proof (branchLog_sound _ _ _ _ Hb) as Hd.
    (* the save *)
    destruct (Items_after_runWrite book ref initID p blog (VersionSave ds None) _ older
                Hr Ha eq_refl Hw1 eq_refl Hitems) as (refs & Holder & Hr1 & Hi1).
    cbn [runWrite] in Hr1, Hi1. fold saved in Hr1, Hi1.
    cbn [branchToVersionInfos_loop] in Hi1.
    rewrite step_plain_save in Hi1 by reflexivity.
    rewrite visible_sappend, reverse_snoc in Hi1.
    pose proof (runWrite_store book initID (VersionSave ds None) p blog _ Hb Ha Hw1 eq_refl)
      as Hs1.
    pose proof (runWrite_authorID book initID (VersionSave ds None) p blog _ Hb Ha Hw1 eq_refl)
      as Hid1.
    cbn [runWrite] in Hs1, Hid1. fold saved in Hs1, Hid1.
    pose proof (refersTo_branchLog _ _ _ _ _ Hr1) as Hb1.
    pose proof (branchLog_sound _ _ _ _ Hb1) as Hd1.
    assert (Ha1 : hasWriteAccess saved (appendAll [saveOp] blog) = Ok tt).
    { unfold hasWriteAccess in Ha |- *. rewrite Hid1. unfold appendAll. cbn [Ops].
      destruct (Ops blog); [contradiction|exact Ha]. }
    assert (Hne1 : Ops (appendAll [saveOp] blog) <> [])
      by (exact (hasWriteAccess_Ops _ _ Ha1)).
    (* the delete *)
    destruct (Items_after_runWrite saved ref initID p (appendAll [saveOp] blog)
                (VersionDelete 1) _ _ Hr1 Ha1 eq_refl eq_refl eq_refl Hi1)
      as (refs2 & Hrefs2 & Hr2 & Hi2).
    cbn [runWrite] in Hr2, Hi2. fold deleted in Hr2, Hi2.
    pose proof (runWrite_store saved initID (VersionDelete 1) p _ _ Hb1 Ha1 eq_refl eq_refl)
      as Hs2.
    cbn [runWrite] in Hs2. fold deleted in Hs2.
    set (branch := appendAll [versionDeleteOp 1] (appendAll [saveOp] blog)) in *.
    assert (Hbranch : Ops branch = Ops blog ++ [saveOp; versionDeleteOp 1])
      by (unfold branch, appendAll; cbn [Ops]; rewrite <- app_assoc; reflexivity).
    assert (Hvis : visible refs2 = visible refs ++ [versionInfoFromOp ref saveOp]).
    { apply (f_equal reverse) in Hrefs2. rewrite reverse_involutive in Hrefs2.
      rewrite <- Hrefs2, reverse_cons, reverse_involutive. reflexivity. }
    exists saveOp, branch.
    split; [exact Hop|]. split; [exact (refersTo_branchLog _ _ _ _ _ Hr2)|].
    split; [exact Hbranch|]. split; [|split].
    + (* what ResolveRef returns *)
      destruct (Journal_Get_after_append (store book) p blog [saveOp] _ pu userLog op rest
                  Hd Hne Hu Hfirst) as (userLog1 & rest1 & Hu1 & Hfirst1).
      rewrite <- Hs1 in Hu1.
      destruct (Journal_Get_after_append (store saved) p _ [versionDeleteOp 1] _ pu
                  userLog1 op rest1 Hd1 Hne1 Hu1 Hfirst1)
        as (userLog2 & rest2 & Hu2 & Hfirst2).
      rewrite <- Hs2 in Hu2.
      assert (Hauthor : Log_Author branch = Log_Author blog).
      { unfold Log_Author. rewrite Hbranch. destruct (Ops blog); [contradiction|reflexivity]. }
      rewrite <- Hauthor in Hu2.
      rewrite (ResolveRef_refersTo deleted ref initID p branch pu userLog2 op rest2
                 Hr2 Hu2 Hfirst2).
      rewrite Hpath. cbn [String.eqb].
      assert (Hhead : latestSavePath branch = dataset.Path ds).
      { unfold latestSavePath. rewrite Hbranch.
        change (Ops blog ++ [saveOp; versionDeleteOp 1])
          with (Ops blog ++ [saveOp] ++ [versionDeleteOp 1]).
        rewrite app_assoc, !reverse_snoc. reflexivity. }
      rewrite Hhead. reflexivity.
    + unfold headPath_spec. rewrite Hbranch.
      change (Ops blog ++ [saveOp; versionDeleteOp 1])
        with (Ops blog ++ [saveOp] ++ [versionDeleteOp 1]).
      rewrite app_assoc, !reverse_snoc. reflexivity.
    + rewrite Hi2. cbn [branchToVersionInfos_loop].
      assert (Hslen : slen refs2 = Z.of_nat (length older) + 1).
      { unfold slen. rewrite Hvis, length_app, Holder, length_reverse. cbn [length]. lia. }
      rewrite step_remove_collapsed
        by (try reflexivity; cbn [versionDeleteOp Size]; lia).
      cbn [versionDeleteOp Size].
      destruct (Z.leb_spec 1 (slen refs2)); [|lia].
      cbn [visible]. rewrite Hvis.
      replace (Z.to_nat (slen refs2 - 1)) with (length (visible refs))
        by (rewrite Hslen, Holder, length_reverse; lia).
      rewrite take_app_length, Holder. reflexivity.
  - intros pd dsLog Hhead Hid Hcount.
    unfold ResolveRef, RefToInitID. rewrite Hhead.
    destruct ref as [iid user pid name path]. cbn [dsref.Path] in Hpath. subst path.
    unfold setInitID.
    cbn [dsref.Path dsref.ProfileID dsref.Username dsref.Name dsref.InitID String.eqb].
    unfold branchLog. rewrite Hid.
    destruct (Logs dsLog) as [|b [|b' l]] eqn:El; [reflexivity| |reflexivity].
    exfalso. exact (Hcount b eq_refl).
Qed.

End ResolveAfterDelete.

Lemma resolve_ref_returns_deleted_version_witness :
  (let deleted := fst (WriteVersionDelete Sample.savedThrice Sample.moviesID 1) in
   ResolveRef deleted Sample.moviesRef
   = ({| InitID := Sample.moviesID; dsref.Username := "alice"; ProfileID := "QmAliceKey";
         dsref.Name := "movies"; Path := "/ipfs/Qc" |}, Ok "")
   /\ (exists branch,
          branchLog deleted Sample.moviesID = Ok ([0; 0; 0]%nat, branch)
          /\ headPath_spec branch = "/ipfs/Qb")
   /\ Items deleted Sample.moviesRef 0 (-1)
      = Ok [mkVersionInfo "alice" "" "movies" "/ipfs/Qb" false 1001 10 "t2" "" "" 0;
            mkVersionInfo "alice" "" "movies" "/ipfs/Qa" false 1000 10 "t1" "" "" 0])
  /\ (let branchless :=
        Sample.signedBy "bob-public"
          (setLogs [setLogs [] (Sample.logAt (fst Sample.rare) [0; 0]%nat)]
             Sample.bobLogUnsigned) in
      let merged := MergeLog Sample.savedTwice Sample.bob branchless in
      snd merged = Ok tt
      /\ ResolveRef (fst merged) (mkRef "" "bob" "" "rare" "")
         = (mkRef Sample.rareID "bob" "" "rare" "", Err (ErrBranchCount 0))).
Proof.
  split.
  - assert (Hr : refersTo Sample.savedTwice Sample.moviesRef Sample.moviesID [0; 0; 0]%nat
                   (Sample.logAt Sample.savedTwice [0; 0; 0]%nat))
      by (sample_refers Sample.savedTwice).
    assert (Ha : hasWriteAccess Sample.savedTwice
                   (Sample.logAt Sample.savedTwice [0; 0; 0]%nat) = Ok tt)
      by (vm_compute; reflexivity).
    assert (Hu : Journal_Get Hash (store Sample.savedTwice)
                   (Log_Author (Sample.logAt Sample.savedTwice [0; 0; 0]%nat))
                 = Ok ([0]%nat, Sample.logAt Sample.savedTwice [0]%nat))
      by (vm_compute; reflexivity).
    assert (Hfirst : Ops (Sample.logAt Sample.savedTwice [0]%nat)
                     = mkOp OpTypeInit AuthorModel "" "" [] "alice" "QmAliceKey" 1 0 "" :: [])
      by (vm_compute; reflexivity).
    assert (Hitems : Items Sample.savedTwice Sample.moviesRef 0 (-1)
                     = Ok [mkVersionInfo "alice" "" "movies" "/ipfs/Qb" false 1001 10 "t2"
                             "" "" 0;
                           mkVersionInfo "alice" "" "movies" "/ipfs/Qa" false 1000 10 "t1"
                             "" "" 0])
      by (vm_compute; reflexivity).
    destruct (proj1 (resolve_ref_returns_deleted_version Sample.savedTwice Sample.moviesRef
                       eq_refl)
                Sample.moviesID [0; 0; 0]%nat _
                (Sample.version "/ipfs/Qc" "/ipfs/Qb" "t3" 1002)
                (dataset.mkCommit 1002 "t3" "") _ _ _ _ _
                Hr Ha Hu Hfirst eq_refl eq_refl Hitems ltac:(cbn; lia))
      as (saveOp & branch & _ & Hb & _ & Hresolve & Hhead & Hlist).
    cbv zeta. change Sample.savedThrice
      with (fst (WriteVersionSave Sample.savedTwice Sample.moviesID
                   (Sample.version "/ipfs/Qc" "/ipfs/Qb" "t3" 1002) None)).
    split; [exact Hresolve|]. split; [|exact Hlist].
    exists branch. split; [exact Hb|]. rewrite Hhead. vm_compute. reflexivity.
  - cbv zeta.
    set (branchless := Sample.signedBy "bob-public"
                         (setLogs [setLogs [] (Sample.logAt (fst Sample.rare) [0; 0]%nat)]
                            Sample.bobLogUnsigned)).
    set (merged := MergeLog Sample.savedTwice Sample.bob branchless).
    split; [vm_compute; reflexivity|].
    assert (Hhead : Journal_HeadRef (store (fst merged))
                      [dsref.Username (mkRef "" "bob" "" "rare" "");
                       dsref.Name (mkRef "" "bob" "" "rare" "")]
                    = Ok ([1; 0]%nat, Sample.logAt (fst merged) [1; 0]%nat))
      by (vm_compute; reflexivity).
    assert (Hid : Journal_Get Hash (store (fst merged))
                    (Log_ID Hash (Sample.logAt (fst merged) [1; 0]%nat))
                  = Ok ([1; 0]%nat, Sample.logAt (fst merged) [1; 0]%nat))
      by (vm_compute; reflexivity).
    assert (Hnone : Logs (Sample.logAt (fst merged) [1; 0]%nat) = [])
      by (vm_compute; reflexivity).
    rewrite (proj2 (resolve_ref_returns_deleted_version (fst merged)
                      (mkRef "" "bob" "" "rare" "") eq_refl)
               _ _ Hhead Hid ltac:(intros b Hb; rewrite Hnone in Hb; discriminate Hb)).
    rewrite Hnone. vm_compute. reflexivity.
Defined.
